(** * echo-text-galaxy: the notes store, the list view and the note editor

    A shallow embedding of [src/store/notesStore.ts],
    [src/components/NotesList.tsx], [src/components/NoteEditor.tsx],
    [src/components/SettingsDialog.tsx] and of the foreign key of the SQL
    migration, followed by the properties of the specification that concern
    them.

    Conventions.
    - A JavaScript string is a [string] of code units below 128; the built-ins
      [toLowerCase] and [trim] are given on that range.
    - A [Date] is its [getTime()] value, a number of milliseconds, in [Z];
      [new Date()] reads a clock that the embedding takes as an argument
      [now].
    - An array is a [list]; [Array.from(new Set(xs))] keeps the first
      occurrence of every element, in insertion order.
    - The hosted backend is not part of the repository: every operation takes
      the answers of the backend as a record [Supabase]. *)

From Stdlib Require Import ZArith Ascii Bool Sorted Permutation.
From stdpp Require Import base decidable option list strings.

Local Open Scope Z_scope.

(* ===================================================================== *)
(** ** JavaScript built-ins used by the sources *)
(* ===================================================================== *)

Module JS.

Definition Date := Z.

(** Truthiness of a string: only the empty string is falsy. *)
Definition truthy (s : string) : bool :=
  match s with
  | EmptyString => false
  | String _ _ => true
  end.

(** [a || b] on strings. *)
Definition or_else (a b : string) : string := if truthy a then a else b.

Definition is_upper (c : ascii) : bool :=
  let n := nat_of_ascii c in (65 <=? n)%nat && (n <=? 90)%nat.

Definition lower_char (c : ascii) : ascii :=
  if is_upper c then ascii_of_nat (nat_of_ascii c + 32) else c.

(** [String.prototype.toLowerCase]. *)
Fixpoint toLowerCase (s : string) : string :=
  match s with
  | EmptyString => EmptyString
  | String c s' => String (lower_char c) (toLowerCase s')
  end.

(** [String.prototype.startsWith]. *)
Fixpoint startsWith (s q : string) : bool :=
  match q, s with
  | EmptyString, _ => true
  | String _ _, EmptyString => false
  | String d q', String c s' => bool_decide (c = d) && startsWith s' q'
  end.

(** [String.prototype.includes]: [q] occurs in [s] at some position. *)
Fixpoint includes (s q : string) : bool :=
  startsWith s q ||
  match s with
  | EmptyString => false
  | String _ s' => includes s' q
  end.

(** White space and line terminators below 128: TAB, LF, VT, FF, CR, SP. *)
Definition is_white (c : ascii) : bool :=
  let n := nat_of_ascii c in
  ((9 <=? n)%nat && (n <=? 13)%nat) || (n =? 32)%nat.

Fixpoint trimStart (s : string) : string :=
  match s with
  | EmptyString => EmptyString
  | String c s' => if is_white c then trimStart s' else s
  end.

Fixpoint trimEnd (s : string) : string :=
  match s with
  | EmptyString => EmptyString
  | String c s' =>
      let t := trimEnd s' in
      if is_white c && negb (truthy t) then EmptyString else String c t
  end.

(** [String.prototype.trim]. *)
Definition trim (s : string) : string := trimEnd (trimStart s).

(** [Array.prototype.includes] on an array of strings. *)
Definition arr_includes (l : list string) (x : string) : bool :=
  bool_decide (x ∈ l).

(** [Array.prototype.some]. *)
Definition some {A} (f : A -> bool) (l : list A) : bool := existsb f l.

(** [Array.prototype.find]. *)
Definition find {A} (f : A -> bool) (l : list A) : option A := List.find f l.

(** [Set.prototype.add] on the insertion-ordered contents of a [Set]. *)
Definition Set_add (s : list string) (x : string) : list string :=
  if bool_decide (x ∈ s) then s else s ++ [x].

(** [Array.from(new Set(xs))]. *)
Definition Array_from_Set (xs : list string) : list string :=
  foldl Set_add [] xs.

(** [Array.prototype.flatMap]. *)
Definition flatMap {A B} (f : A -> list B) (l : list A) : list B :=
  List.flat_map f l.

(** [Array.prototype.sort] with a comparator.  For a consistent comparator
    the result is fixed by the language: the sort is stable.  It is given
    here as the insertion sort that puts an element in front of the first
    element it does not exceed. *)
Section Sort.
Context {A : Type} (cmp : A -> A -> Z).

Fixpoint insert_sorted (x : A) (l : list A) : list A :=
  match l with
  | [] => [x]
  | y :: l' => if cmp x y <=? 0 then x :: l else y :: insert_sorted x l'
  end.

Fixpoint sort (l : list A) : list A :=
  match l with
  | [] => []
  | x :: l' => insert_sorted x (sort l')
  end.
End Sort.

End JS.

(* ===================================================================== *)
(** ** [src/types/note.ts] *)
(* ===================================================================== *)

Record Note := mkNote {
  note_id : string;
  note_title : string;
  note_content : string;
  note_tags : list string;
  note_isFavorite : bool;
  note_createdAt : JS.Date;
  note_updatedAt : JS.Date;
  note_folderId : option string
}.

Record Folder := mkFolder {
  folder_id : string;
  folder_name : string;
  folder_color : option string;
  folder_createdAt : JS.Date
}.

(** [Partial<Note>]: every field may be absent. *)
Record PartialNote := mkPartialNote {
  p_id : option string;
  p_title : option string;
  p_content : option string;
  p_tags : option (list string);
  p_isFavorite : option bool;
  p_createdAt : option JS.Date;
  p_updatedAt : option JS.Date;
  p_folderId : option (option string)
}.

(** [Partial<Folder>]. *)
Record PartialFolder := mkPartialFolder {
  pf_id : option string;
  pf_name : option string;
  pf_color : option (option string);
  pf_createdAt : option JS.Date
}.

(** [Omit<Note, 'id' | 'createdAt' | 'updatedAt'>]. *)
Record NoteData := mkNoteData {
  nd_title : string;
  nd_content : string;
  nd_tags : list string;
  nd_isFavorite : bool;
  nd_folderId : option string
}.

(** [Omit<Folder, 'id' | 'createdAt'>]. *)
Record FolderData := mkFolderData {
  fd_name : string;
  fd_color : option string
}.

#[global] Instance Note_eq_dec : EqDecision Note.
Proof. solve_decision. Defined.
#[global] Instance Folder_eq_dec : EqDecision Folder.
Proof. solve_decision. Defined.
#[global] Instance PartialNote_eq_dec : EqDecision PartialNote.
Proof. solve_decision. Defined.
#[global] Instance NoteData_eq_dec : EqDecision NoteData.
Proof. solve_decision. Defined.

(** Object spread [{ ...note, ...updates }]. *)
Definition spread_note (note : Note) (updates : PartialNote) : Note :=
  {| note_id := default (note_id note) (p_id updates);
     note_title := default (note_title note) (p_title updates);
     note_content := default (note_content note) (p_content updates);
     note_tags := default (note_tags note) (p_tags updates);
     note_isFavorite := default (note_isFavorite note) (p_isFavorite updates);
     note_createdAt := default (note_createdAt note) (p_createdAt updates);
     note_updatedAt := default (note_updatedAt note) (p_updatedAt updates);
     note_folderId := default (note_folderId note) (p_folderId updates) |}.

(** Object spread [{ ...folder, ...updates }]. *)
Definition spread_folder (folder : Folder) (updates : PartialFolder) : Folder :=
  {| folder_id := default (folder_id folder) (pf_id updates);
     folder_name := default (folder_name folder) (pf_name updates);
     folder_color := default (folder_color folder) (pf_color updates);
     folder_createdAt := default (folder_createdAt folder) (pf_createdAt updates) |}.

(* ===================================================================== *)
(** ** The Remote Store Client (hosted backend, outside the repository) *)
(* ===================================================================== *)

Module Remote.

Definition PostgrestError := string.

(** The answer [{ data, error }] of a request: either an error and no
    data, or data and no error. *)
Inductive PostgrestResponse (A : Type) :=
| success (data : A)
| failure (error : PostgrestError).
Arguments success {A} data.
Arguments failure {A} error.

(** The answer [{ data: { user }, error }] of [auth.getUser()]. *)
Record UserResponse := mkUserResponse {
  user : option string;          (* the id of the signed-in user *)
  userError : option string
}.

(** A row of table [notes]; nullable columns are options. *)
Record NoteRow := mkNoteRow {
  row_id : string;
  row_title : string;
  row_content : option string;
  row_tags : option (list string);
  row_is_favorite : option bool;
  row_folder_id : option string;
  row_created_at : JS.Date;
  row_updated_at : JS.Date
}.

(** A row of table [folders]. *)
Record FolderRow := mkFolderRow {
  frow_id : string;
  frow_name : string;
  frow_color : option string;
  frow_created_at : JS.Date
}.

(** The column values sent by [updateNote]. *)
Record NoteUpdate := mkNoteUpdate {
  u_title : option string;
  u_content : option string;
  u_tags : option (list string);
  u_is_favorite : option bool;
  u_folder_id : option (option string)
}.

(** The columns the store asks a select to be ordered by. *)
Inductive Column := created_at | updated_at.

(** The argument of [.order(column, { ascending })] of a select request
    [.from(table).select('*').order(column, { ascending })]. *)
Record Order := mkOrder {
  column : Column;
  ascending : bool
}.

(** How the backend answers each request of the store. *)
Record Supabase := mkSupabase {
  auth_getUser : UserResponse;
  notes_insert : NoteData -> string -> PostgrestResponse NoteRow;
  notes_update : string -> NoteUpdate -> PostgrestResponse unit;
  notes_delete : string -> PostgrestResponse unit;
  notes_select : Order -> PostgrestResponse (list NoteRow);
  folders_insert : FolderData -> string -> PostgrestResponse FolderRow;
  folders_update : string -> PartialFolder -> PostgrestResponse unit;
  folders_delete : string -> PostgrestResponse unit;
  folders_select : Order -> PostgrestResponse (list FolderRow)
}.

End Remote.

(* ===================================================================== *)
(** ** [src/store/notesStore.ts] *)
(* ===================================================================== *)

Module Store.
Import Remote.

Record NotesState := mkNotesState {
  notes : list Note;
  folders : list Folder;
  tags : list string;
  isLoading : bool;
  lastSync : option JS.Date
}.

Definition initial : NotesState :=
  {| notes := []; folders := []; tags := []; isLoading := false;
     lastSync := None |}.

(** What an action throws. *)
Inductive Error :=
| NotAuthenticated                       (* new Error('User not authenticated') *)
| Rejected (error : PostgrestError).     (* throw error *)

Inductive Outcome (A : Type) :=
| Done (a : A)
| Thrown (e : Error).
Arguments Done {A} a.
Arguments Thrown {A} e.

(** An action runs on the store state and ends with a value or throws. *)
Definition Action (A : Type) : Type := NotesState -> NotesState * Outcome A.

Definition ret {A} (a : A) : Action A := fun s => (s, Done a).

Definition throw {A} (e : Error) : Action A := fun s => (s, Thrown e).

Definition bind {A B} (m : Action A) (k : A -> Action B) : Action B :=
  fun s =>
    match m s with
    | (s', Done a) => k a s'
    | (s', Thrown e) => (s', Thrown e)
    end.

(** zustand's [set]. *)
Definition set (f : NotesState -> NotesState) : Action unit :=
  fun s => (f s, Done tt).

(** [const { data, error } = await request; if (error) throw error;]. *)
Definition await_or_throw {A} (r : PostgrestResponse A) : Action A :=
  match r with
  | success data => ret data
  | failure error => throw (Rejected error)
  end.

Notation "x <- m ;; k" := (bind m (fun x => k))
  (at level 100, m at level 99, k at level 200, right associativity).
Notation "m ;;; k" := (bind m (fun _ => k))
  (at level 100, k at level 200, right associativity).

Definition with_notes (f : list Note -> list Note) (s : NotesState) :=
  {| notes := f (notes s); folders := folders s; tags := tags s;
     isLoading := isLoading s; lastSync := lastSync s |}.

Definition with_tags (f : list string -> list string) (s : NotesState) :=
  {| notes := notes s; folders := folders s; tags := f (tags s);
     isLoading := isLoading s; lastSync := lastSync s |}.

Definition with_folders (f : list Folder -> list Folder) (s : NotesState) :=
  {| notes := notes s; folders := f (folders s); tags := tags s;
     isLoading := isLoading s; lastSync := lastSync s |}.

Definition setLoading (loading : bool) : Action unit :=
  set (fun s =>
    {| notes := notes s; folders := folders s; tags := tags s;
       isLoading := loading; lastSync := lastSync s |}).

(** [supabase.auth.getUser()] followed by the check of [addNote] and
    [addFolder]. *)
Definition current_user (db : Supabase) : Action string :=
  match userError (auth_getUser db), user (auth_getUser db) with
  | None, Some uid => ret uid
  | _, _ => throw NotAuthenticated
  end.

(** The note built by [addNote] from the inserted row.  [content] is
    copied as it is: the row answers an insert whose payload carries a
    string, a missing value reads as the empty string here. *)
Definition note_of_inserted (data : NoteRow) : Note :=
  {| note_id := row_id data;
     note_title := row_title data;
     note_content := default EmptyString (row_content data);
     note_tags := default [] (row_tags data);
     note_isFavorite := default false (row_is_favorite data);
     note_folderId := row_folder_id data;
     note_createdAt := row_created_at data;
     note_updatedAt := row_updated_at data |}.

Definition addNote (db : Supabase) (noteData : NoteData) : Action unit :=
  uid <- current_user db ;;
  data <- await_or_throw (notes_insert db noteData uid) ;;
  let newNote := note_of_inserted data in
  set (fun state =>
    with_tags (fun _ => JS.Array_from_Set (tags state ++ note_tags newNote))
      (with_notes (fun _ => newNote :: notes state) state)).

Definition update_payload (updates : PartialNote) : NoteUpdate :=
  {| u_title := p_title updates;
     u_content := p_content updates;
     u_tags := p_tags updates;
     u_is_favorite := p_isFavorite updates;
     u_folder_id := p_folderId updates |}.

(** [{ ...note, ...updates, updatedAt: new Date() }]. *)
Definition merged (now : JS.Date) (note : Note) (updates : PartialNote) : Note :=
  let m := spread_note note updates in
  {| note_id := note_id m; note_title := note_title m;
     note_content := note_content m; note_tags := note_tags m;
     note_isFavorite := note_isFavorite m; note_createdAt := note_createdAt m;
     note_updatedAt := now; note_folderId := note_folderId m |}.

Definition updateNote (db : Supabase) (now : JS.Date)
    (id : string) (updates : PartialNote) : Action unit :=
  await_or_throw (notes_update db id (update_payload updates)) ;;;
  set (fun state =>
    with_tags (fun _ =>
        JS.Array_from_Set (tags state ++ default [] (p_tags updates)))
      (with_notes (fun _ =>
          (fun note =>
             if bool_decide (note_id note = id)
             then merged now note updates else note) <$> notes state)
        state)).

Definition deleteNote (db : Supabase) (id : string) : Action unit :=
  await_or_throw (notes_delete db id) ;;;
  set (with_notes (List.filter (fun note => negb (bool_decide (note_id note = id))))).

Definition folder_of_inserted (data : FolderRow) : Folder :=
  {| folder_id := frow_id data;
     folder_name := frow_name data;
     folder_color := frow_color data;
     folder_createdAt := frow_created_at data |}.

Definition addFolder (db : Supabase) (folderData : FolderData) : Action unit :=
  uid <- current_user db ;;
  data <- await_or_throw (folders_insert db folderData uid) ;;
  let newFolder := folder_of_inserted data in
  set (with_folders (fun fs => fs ++ [newFolder])).

Definition updateFolder (db : Supabase)
    (id : string) (updates : PartialFolder) : Action unit :=
  await_or_throw (folders_update db id updates) ;;;
  set (with_folders (fmap (fun folder =>
    if bool_decide (folder_id folder = id)
    then spread_folder folder updates else folder))).

Definition deleteFolder (db : Supabase) (id : string) : Action unit :=
  await_or_throw (folders_delete db id) ;;;
  set (with_folders
         (List.filter (fun folder => negb (bool_decide (folder_id folder = id))))).

(** The note built by [fetchNotes] from a selected row. *)
Definition note_of_row (item : NoteRow) : Note :=
  {| note_id := row_id item;
     note_title := row_title item;
     note_content := JS.or_else (default EmptyString (row_content item)) EmptyString;
     note_tags := default [] (row_tags item);
     note_isFavorite := default false (row_is_favorite item);
     note_folderId := row_folder_id item;
     note_createdAt := row_created_at item;
     note_updatedAt := row_updated_at item |}.

(** [.order('updated_at', { ascending: false })], the order [fetchNotes]
    asks for. *)
Definition notes_order : Order :=
  {| column := updated_at; ascending := false |}.

(** [fetchNotes]: a failed select is logged and swallowed, not thrown. *)
Definition fetchNotes (db : Supabase) (now : JS.Date) : Action unit :=
  setLoading true ;;;
  match notes_select db notes_order with
  | failure _ => setLoading false
  | success data =>
      let notes' := note_of_row <$> data in
      let allTags := JS.Array_from_Set (JS.flatMap note_tags notes') in
      set (fun state =>
        {| notes := notes'; folders := folders state; tags := allTags;
           isLoading := false; lastSync := Some now |})
  end.

Definition folder_of_row (item : FolderRow) : Folder :=
  {| folder_id := frow_id item;
     folder_name := frow_name item;
     folder_color := frow_color item;
     folder_createdAt := frow_created_at item |}.

(** [.order('created_at', { ascending: true })], the order [fetchFolders]
    asks for. *)
Definition folders_order : Order :=
  {| column := created_at; ascending := true |}.

(** [fetchFolders]: a failed select is logged and swallowed as well. *)
Definition fetchFolders (db : Supabase) : Action unit :=
  match folders_select db folders_order with
  | failure _ => ret tt
  | success data => set (with_folders (fun _ => folder_of_row <$> data))
  end.

Definition syncNotes (db : Supabase) (now : JS.Date) : Action unit :=
  fetchNotes db now ;;; fetchFolders db.

(** The predicate of [searchNotes]. *)
Definition search_hit (query : string) (note : Note) : bool :=
  JS.includes (JS.toLowerCase (note_title note)) (JS.toLowerCase query)
  || JS.includes (JS.toLowerCase (note_content note)) (JS.toLowerCase query)
  || JS.some (fun tag => JS.includes (JS.toLowerCase tag) (JS.toLowerCase query))
       (note_tags note).

Definition searchNotes (query : string) (s : NotesState) : list Note :=
  List.filter (search_hit query) (notes s).

End Store.

(* ===================================================================== *)
(** ** [src/components/NotesList.tsx]: the filtered and sorted view *)
(* ===================================================================== *)

Module NotesList.

Inductive SortBy := date | title | favorite.

#[global] Instance SortBy_eq_dec : EqDecision SortBy.
Proof. solve_decision. Defined.

Definition matchesSearch (searchQuery : string) (note : Note) : bool :=
  JS.includes (JS.toLowerCase (note_title note)) (JS.toLowerCase searchQuery)
  || JS.includes (JS.toLowerCase (note_content note)) (JS.toLowerCase searchQuery).

(** [!selectedTag || note.tags.includes(selectedTag)]; [null] and the
    empty string are both falsy. *)
Definition matchesTag (selectedTag : option string) (note : Note) : bool :=
  match selectedTag with
  | None => true
  | Some t => negb (JS.truthy t) || JS.arr_includes (note_tags note) t
  end.

Section View.
(** [String.prototype.localeCompare] depends on the locale of the host. *)
Variable localeCompare : string -> string -> Z.

(** The comparator handed to [sort]. *)
Definition compareNotes (sortBy : SortBy) (a b : Note) : Z :=
  if bool_decide (sortBy = favorite)
     && note_isFavorite a && negb (note_isFavorite b) then -1
  else if bool_decide (sortBy = favorite)
     && negb (note_isFavorite a) && note_isFavorite b then 1
  else if bool_decide (sortBy = title)
  then localeCompare (note_title a) (note_title b)
  else note_updatedAt b - note_updatedAt a.

Definition filteredNotes (notes : list Note) (searchQuery : string)
    (selectedTag : option string) (sortBy : SortBy) : list Note :=
  JS.sort (compareNotes sortBy)
    (List.filter
       (fun note => matchesSearch searchQuery note && matchesTag selectedTag note)
       notes).
End View.

End NotesList.

(* ===================================================================== *)
(** ** The mutating actions of the store, as one family *)
(* ===================================================================== *)

Module Mutations.
Import Remote Store.

Inductive Mutation :=
| AddNote (noteData : NoteData)
| UpdateNote (id : string) (updates : PartialNote)
| DeleteNote (id : string)
| AddFolder (folderData : FolderData)
| UpdateFolder (id : string) (updates : PartialFolder)
| DeleteFolder (id : string).

Definition perform (db : Supabase) (now : JS.Date) (m : Mutation) : Action unit :=
  match m with
  | AddNote noteData => addNote db noteData
  | UpdateNote id updates => updateNote db now id updates
  | DeleteNote id => deleteNote db id
  | AddFolder folderData => addFolder db folderData
  | UpdateFolder id updates => updateFolder db id updates
  | DeleteFolder id => deleteFolder db id
  end.

Definition forget {A} (r : PostgrestResponse A) : PostgrestResponse unit :=
  match r with
  | success _ => success tt
  | failure e => failure e
  end.

(** The signed-in user, as [addNote] and [addFolder] accept it. *)
Definition signed_in (db : Supabase) : option string :=
  match userError (auth_getUser db), user (auth_getUser db) with
  | None, Some uid => Some uid
  | _, _ => None
  end.

(** The answer of the backend to the write that a mutation issues, data
    dropped; [None] when the mutation issues no write because nobody is
    signed in. *)
Definition remote_write (db : Supabase) (m : Mutation)
    : option (PostgrestResponse unit) :=
  match m with
  | AddNote noteData =>
      uid ← signed_in db; Some (forget (notes_insert db noteData uid))
  | UpdateNote id updates => Some (notes_update db id (update_payload updates))
  | DeleteNote id => Some (notes_delete db id)
  | AddFolder folderData =>
      uid ← signed_in db; Some (forget (folders_insert db folderData uid))
  | UpdateFolder id updates => Some (folders_update db id updates)
  | DeleteFolder id => Some (folders_delete db id)
  end.

End Mutations.

(* ===================================================================== *)
(** ** The foreign key of the migration

    [ALTER TABLE public.notes ADD CONSTRAINT notes_folder_id_fkey
     FOREIGN KEY (folder_id) REFERENCES public.folders(id) ON DELETE SET NULL] *)
(* ===================================================================== *)

Module Schema.
Import Remote.

Record Database := mkDatabase {
  tbl_notes : list NoteRow;
  tbl_folders : list FolderRow
}.

(** The trigger function [handle_updated_at]: [NEW.updated_at = now()],
    where [now] is the clock of the database. *)
Definition handle_updated_at (now : JS.Date) (NEW : NoteRow) : NoteRow :=
  {| row_id := row_id NEW; row_title := row_title NEW;
     row_content := row_content NEW; row_tags := row_tags NEW;
     row_is_favorite := row_is_favorite NEW;
     row_folder_id := row_folder_id NEW;
     row_created_at := row_created_at NEW;
     row_updated_at := now |}.

(** An update of one row of [notes]: the trigger [handle_notes_updated_at
    BEFORE UPDATE ON public.notes FOR EACH ROW] is run on the new row before
    it is stored. *)
Definition update_note (now : JS.Date) (assign : NoteRow -> NoteRow)
    (r : NoteRow) : NoteRow :=
  handle_updated_at now (assign r).

(** [SET folder_id = NULL]. *)
Definition folder_id_null (r : NoteRow) : NoteRow :=
  {| row_id := row_id r; row_title := row_title r;
     row_content := row_content r; row_tags := row_tags r;
     row_is_favorite := row_is_favorite r; row_folder_id := None;
     row_created_at := row_created_at r;
     row_updated_at := row_updated_at r |}.

(** The referential action [ON DELETE SET NULL] of [notes_folder_id_fkey]
    on one row of [notes]: a row that references the deleted folder is
    updated, which runs the trigger; the other rows are not touched. *)
Definition set_null (now : JS.Date) (id : string) (r : NoteRow) : NoteRow :=
  if bool_decide (row_folder_id r = Some id)
  then update_note now folder_id_null r
  else r.

(** [DELETE FROM folders WHERE id = ?] under the constraint, at database
    time [now]. *)
Definition delete_folder (now : JS.Date) (id : string) (d : Database)
    : Database :=
  {| tbl_folders :=
       List.filter (fun f => negb (bool_decide (frow_id f = id))) (tbl_folders d);
     tbl_notes := set_null now id <$> tbl_notes d |}.

(** [ORDER BY key ASC | DESC].  Rows that agree on the key may come in any
    order; they are left in table order here. *)
Definition order_by {A} (key : A -> Z) (asc : bool) (rows : list A) : list A :=
  JS.sort (fun a b => if asc then key a - key b else key b - key a) rows.

Definition note_column (c : Column) (r : NoteRow) : Z :=
  match c with
  | created_at => row_created_at r
  | updated_at => row_updated_at r
  end.

(** Table [folders] has no column [updated_at]. *)
Definition folder_column (c : Column) : option (FolderRow -> Z) :=
  match c with
  | created_at => Some frow_created_at
  | updated_at => None
  end.

(** [SELECT * FROM notes ORDER BY ...]. *)
Definition select_notes (d : Database) (q : Order)
    : PostgrestResponse (list NoteRow) :=
  success (order_by (note_column (column q)) (ascending q) (tbl_notes d)).

(** [SELECT * FROM folders ORDER BY ...]. *)
Definition select_folders (d : Database) (q : Order)
    : PostgrestResponse (list FolderRow) :=
  match folder_column (column q) with
  | Some key => success (order_by key (ascending q) (tbl_folders d))
  | None => failure "column folders.updated_at does not exist"
  end.

End Schema.

(* ===================================================================== *)
(** ** Concrete data for the examples *)
(* ===================================================================== *)

Module Samples.
Import Remote Store.

(** A backend that rejects every request. *)
Definition offline : Supabase :=
  {| auth_getUser := {| user := Some "u1"; userError := None |};
     notes_insert := fun _ _ => failure "offline";
     notes_update := fun _ _ => failure "offline";
     notes_delete := fun _ => failure "offline";
     notes_select := fun _ => failure "offline";
     folders_insert := fun _ _ => failure "offline";
     folders_update := fun _ _ => failure "offline";
     folders_delete := fun _ => failure "offline";
     folders_select := fun _ => failure "offline" |}.

(** A backend that accepts every request; an inserted note comes back as
    row [n9] stamped 9000, the selects are run on a table [notes] that
    holds [rows] and on an empty table [folders]. *)
Definition online (rows : list NoteRow) : Supabase :=
  {| auth_getUser := {| user := Some "u1"; userError := None |};
     notes_insert := fun d _ =>
       success {| row_id := "n9"; row_title := nd_title d;
                  row_content := Some (nd_content d);
                  row_tags := Some (nd_tags d);
                  row_is_favorite := Some (nd_isFavorite d);
                  row_folder_id := nd_folderId d;
                  row_created_at := 9000; row_updated_at := 9000 |};
     notes_update := fun _ _ => success tt;
     notes_delete := fun _ => success tt;
     notes_select :=
       Schema.select_notes {| Schema.tbl_notes := rows; Schema.tbl_folders := [] |};
     folders_insert := fun d _ =>
       success {| frow_id := "f9"; frow_name := fd_name d;
                  frow_color := fd_color d; frow_created_at := 9000 |};
     folders_update := fun _ _ => success tt;
     folders_delete := fun _ => success tt;
     folders_select :=
       Schema.select_folders {| Schema.tbl_notes := rows; Schema.tbl_folders := [] |} |}.

Definition shopping : Note :=
  {| note_id := "n1"; note_title := "Shopping"; note_content := "";
     note_tags := ["home"]; note_isFavorite := false;
     note_createdAt := 1000; note_updatedAt := 2000;
     note_folderId := Some "f1" |}.

Definition budget : Note :=
  {| note_id := "n2"; note_title := "Budget"; note_content := "";
     note_tags := ["work"; "home"]; note_isFavorite := false;
     note_createdAt := 1000; note_updatedAt := 1500;
     note_folderId := None |}.

Definition groceries : Folder :=
  {| folder_id := "f1"; folder_name := "Groceries"; folder_color := None;
     folder_createdAt := 500 |}.

Definition two_notes : NotesState :=
  {| notes := [shopping; budget]; folders := [groceries];
     tags := ["home"; "work"]; isLoading := false; lastSync := Some 2500 |}.

Definition no_updates : PartialNote :=
  {| p_id := None; p_title := None; p_content := None; p_tags := None;
     p_isFavorite := None; p_createdAt := None; p_updatedAt := None;
     p_folderId := None |}.

Definition retitle (t : string) : PartialNote :=
  {| p_id := None; p_title := Some t; p_content := None; p_tags := None;
     p_isFavorite := None; p_createdAt := None; p_updatedAt := None;
     p_folderId := None |}.

Definition shopping_row : NoteRow :=
  {| row_id := "n1"; row_title := "Shopping"; row_content := None;
     row_tags := Some ["home"]; row_is_favorite := None;
     row_folder_id := Some "f1"; row_created_at := 1000;
     row_updated_at := 2000 |}.

Definition budget_row : NoteRow :=
  {| row_id := "n2"; row_title := "Budget"; row_content := Some "";
     row_tags := Some ["work"; "home"]; row_is_favorite := Some false;
     row_folder_id := None; row_created_at := 1000;
     row_updated_at := 1500 |}.

Definition groceries_row : FolderRow :=
  {| frow_id := "f1"; frow_name := "Groceries"; frow_color := None;
     frow_created_at := 500 |}.

End Samples.

(* ===================================================================== *)
(** ** Words of the specification, for comparison with the code *)
(* ===================================================================== *)

Module SpecWords.

(** [q] occurs in [s] as a contiguous run of characters. *)
Definition substring_of (q s : string) : Prop :=
  ∃ p r : string, s = p +:+ q +:+ r.

(** "query is a case-insensitive substring of text". *)
Definition ci_substring (query text : string) : Prop :=
  substring_of (JS.toLowerCase query) (JS.toLowerCase text).

(** "the note contains the selected tag (no predicate if none selected)";
    the empty selection counts as none. *)
Definition tag_selected (selectedTag : option string) (note : Note) : Prop :=
  match selectedTag with
  | None => True
  | Some t => t = EmptyString ∨ t ∈ note_tags note
  end.

End SpecWords.

(** Three notes [A], [B], [C] with only [B] a favorite; [C] was updated
    after [A]. *)
Module Trio.
Definition A : Note :=
  {| note_id := "a"; note_title := "A"; note_content := "";
     note_tags := []; note_isFavorite := false;
     note_createdAt := 100; note_updatedAt := 100; note_folderId := None |}.
Definition B : Note :=
  {| note_id := "b"; note_title := "B"; note_content := "";
     note_tags := []; note_isFavorite := true;
     note_createdAt := 100; note_updatedAt := 150; note_folderId := None |}.
Definition C : Note :=
  {| note_id := "c"; note_title := "C"; note_content := "";
     note_tags := []; note_isFavorite := false;
     note_createdAt := 100; note_updatedAt := 200; note_folderId := None |}.
(** [C] again, last updated at the same instant as [A]. *)
Definition C' : Note :=
  {| note_id := "c"; note_title := "C"; note_content := "";
     note_tags := []; note_isFavorite := false;
     note_createdAt := 100; note_updatedAt := 100; note_folderId := None |}.
End Trio.

(* ===================================================================== *)
(** ** [src/components/NoteEditor.tsx]: the editor and its autosave

    The component is a set of [useState] cells, one [useRef] cell and three
    effects.  An event runs its handler on the values of the last render,
    then React renders again and runs the effects whose dependencies
    changed, until a render changes no state; the next event is delivered
    after that.  A save in flight is the pending call of [updateNote] or
    [addNote] that [handleSave] awaits; it ends when the backend answers. *)
(* ===================================================================== *)

Module NoteEditor.
Import Mutations.

(** The [useState] cells. *)
Record Fields := mkFields {
  title : string;
  content : string;
  tags : list string;
  newTag : string;
  isFavorite : bool;
  lastSaved : option JS.Date;
  saving : bool;
  hasUnsavedChanges : bool
}.

(** What the closures of one render see. *)
Record Render := mkRender {
  seen : Fields;
  currentNote : option Note
}.

(** A pending [setTimeout] of the host. *)
Record Timer := mkTimer {
  timer_id : positive;
  timer_delay : Z;            (* milliseconds *)
  timer_closure : Render      (* the render that created the callback *)
}.

(** A call of the store that [handleSave] is awaiting. *)
Record Pending := mkPending {
  call : Mutation;
  showToast : bool
}.

Inductive Toast := NoteSaved | SaveFailed.

Definition SyncDeps : Type := option Note.
Definition MarkDeps : Type := string * string * list string * bool * option Note.
Definition AutoSaveDeps : Type := bool * bool * string * string.

Record World := mkWorld {
  store : Store.NotesState;
  noteId : option string;                 (* the prop *)
  st : Fields;
  autoSaveTimeoutRef : option positive;
  timers : list Timer;
  nextTimer : positive;
  deps1 : option SyncDeps;                (* dependencies at the last run *)
  deps2 : option MarkDeps;
  deps3 : option AutoSaveDeps;
  inflight : list Pending;
  toasts : list Toast
}.

#[global] Instance Fields_eq_dec : EqDecision Fields.
Proof. solve_decision. Defined.

Definition setState (g : Fields -> Fields) (w : World) : World :=
  {| store := store w; noteId := noteId w; st := g (st w);
     autoSaveTimeoutRef := autoSaveTimeoutRef w; timers := timers w;
     nextTimer := nextTimer w; deps1 := deps1 w; deps2 := deps2 w;
     deps3 := deps3 w; inflight := inflight w; toasts := toasts w |}.

Definition setTitle (v : string) (f : Fields) : Fields :=
  {| title := v; content := content f; tags := tags f; newTag := newTag f;
     isFavorite := isFavorite f; lastSaved := lastSaved f;
     saving := saving f; hasUnsavedChanges := hasUnsavedChanges f |}.
Definition setContent (v : string) (f : Fields) : Fields :=
  {| title := title f; content := v; tags := tags f; newTag := newTag f;
     isFavorite := isFavorite f; lastSaved := lastSaved f;
     saving := saving f; hasUnsavedChanges := hasUnsavedChanges f |}.
Definition setTags (v : list string) (f : Fields) : Fields :=
  {| title := title f; content := content f; tags := v; newTag := newTag f;
     isFavorite := isFavorite f; lastSaved := lastSaved f;
     saving := saving f; hasUnsavedChanges := hasUnsavedChanges f |}.
Definition setNewTag (v : string) (f : Fields) : Fields :=
  {| title := title f; content := content f; tags := tags f; newTag := v;
     isFavorite := isFavorite f; lastSaved := lastSaved f;
     saving := saving f; hasUnsavedChanges := hasUnsavedChanges f |}.
Definition setIsFavorite (v : bool) (f : Fields) : Fields :=
  {| title := title f; content := content f; tags := tags f; newTag := newTag f;
     isFavorite := v; lastSaved := lastSaved f;
     saving := saving f; hasUnsavedChanges := hasUnsavedChanges f |}.
Definition setLastSaved (v : option JS.Date) (f : Fields) : Fields :=
  {| title := title f; content := content f; tags := tags f; newTag := newTag f;
     isFavorite := isFavorite f; lastSaved := v;
     saving := saving f; hasUnsavedChanges := hasUnsavedChanges f |}.
Definition setSaving (v : bool) (f : Fields) : Fields :=
  {| title := title f; content := content f; tags := tags f; newTag := newTag f;
     isFavorite := isFavorite f; lastSaved := lastSaved f;
     saving := v; hasUnsavedChanges := hasUnsavedChanges f |}.
Definition setHasUnsavedChanges (v : bool) (f : Fields) : Fields :=
  {| title := title f; content := content f; tags := tags f; newTag := newTag f;
     isFavorite := isFavorite f; lastSaved := lastSaved f;
     saving := saving f; hasUnsavedChanges := v |}.

(** [noteId ? notes.find(n => n.id === noteId) : null]. *)
Definition find_current (noteId : option string) (notes : list Note) : option Note :=
  match noteId with
  | None => None
  | Some id =>
      if JS.truthy id
      then JS.find (fun n => bool_decide (note_id n = id)) notes
      else None
  end.

Definition render (w : World) : Render :=
  {| seen := st w; currentNote := find_current (noteId w) (Store.notes (store w)) |}.

(** *** The host timers *)

Definition clearTimeout (id : positive) (w : World) : World :=
  {| store := store w; noteId := noteId w; st := st w;
     autoSaveTimeoutRef := autoSaveTimeoutRef w;
     timers := List.filter (fun t => negb (bool_decide (timer_id t = id))) (timers w);
     nextTimer := nextTimer w; deps1 := deps1 w; deps2 := deps2 w;
     deps3 := deps3 w; inflight := inflight w; toasts := toasts w |}.

(** [if (autoSaveTimeoutRef.current) clearTimeout(autoSaveTimeoutRef.current)];
    a timer id of the host is a positive number, hence truthy. *)
Definition clear_ref (w : World) : World :=
  match autoSaveTimeoutRef w with
  | Some id => clearTimeout id w
  | None => w
  end.

(** [autoSaveTimeoutRef.current = setTimeout(callback, ms)]. *)
Definition arm (r : Render) (ms : Z) (w : World) : World :=
  {| store := store w; noteId := noteId w; st := st w;
     autoSaveTimeoutRef := Some (nextTimer w);
     timers := timers w ++ [ {| timer_id := nextTimer w; timer_delay := ms;
                                timer_closure := r |} ];
     nextTimer := Pos.succ (nextTimer w); deps1 := deps1 w; deps2 := deps2 w;
     deps3 := deps3 w; inflight := inflight w; toasts := toasts w |}.

(** *** [handleSave] *)

Definition blank (s : string) : bool := negb (JS.truthy (JS.trim s)).

Definition noteData_update (r : Render) : PartialNote :=
  {| p_id := None;
     p_title := Some (JS.or_else (title (seen r)) "Untitled Note");
     p_content := Some (content (seen r));
     p_tags := Some (tags (seen r));
     p_isFavorite := Some (isFavorite (seen r));
     p_createdAt := None; p_updatedAt := None; p_folderId := None |}.

Definition noteData_insert (r : Render) : NoteData :=
  {| nd_title := JS.or_else (title (seen r)) "Untitled Note";
     nd_content := content (seen r);
     nd_tags := tags (seen r);
     nd_isFavorite := isFavorite (seen r);
     nd_folderId := None |}.

Definition issue (p : Pending) (w : World) : World :=
  {| store := store w; noteId := noteId w; st := st w;
     autoSaveTimeoutRef := autoSaveTimeoutRef w; timers := timers w;
     nextTimer := nextTimer w; deps1 := deps1 w; deps2 := deps2 w;
     deps3 := deps3 w; inflight := inflight w ++ [p]; toasts := toasts w |}.

(** [handleSave] up to its [await]: the two guards, [setSaving(true)] and
    the call of the store. *)
Definition handleSave (r : Render) (showToast : bool) (w : World) : World :=
  if blank (title (seen r)) && blank (content (seen r)) then w
  else if saving (seen r) then w
  else
    let request :=
      match currentNote r with
      | Some note => UpdateNote (note_id note) (noteData_update r)
      | None => AddNote (noteData_insert r)
      end in
    issue {| call := request; showToast := showToast |}
      (setState (setSaving true) w).

Definition toast (t : Toast) (w : World) : World :=
  {| store := store w; noteId := noteId w; st := st w;
     autoSaveTimeoutRef := autoSaveTimeoutRef w; timers := timers w;
     nextTimer := nextTimer w; deps1 := deps1 w; deps2 := deps2 w;
     deps3 := deps3 w; inflight := inflight w; toasts := toasts w ++ [t] |}.

(** [handleSave] after its [await]: the awaited call [p] ends against the
    backend [db]; [applied] is the clock read by the store, [saved] the
    clock read by [setLastSaved]. *)
Definition resume (p : Pending) (db : Remote.Supabase)
    (applied saved : JS.Date) (rest : list Pending) (w : World) : World :=
  let '(store', outcome) := perform db applied (call p) (store w) in
  let w1 :=
    {| store := store'; noteId := noteId w; st := st w;
       autoSaveTimeoutRef := autoSaveTimeoutRef w; timers := timers w;
       nextTimer := nextTimer w; deps1 := deps1 w; deps2 := deps2 w;
       deps3 := deps3 w; inflight := rest; toasts := toasts w |} in
  let w2 :=
    match outcome with
    | Store.Done _ =>
        let w' := setState (fun f => setHasUnsavedChanges false
                                       (setLastSaved (Some saved) f)) w1 in
        if showToast p then toast NoteSaved w' else w'
    | Store.Thrown _ => toast SaveFailed w1
    end in
  setState (setSaving false) w2.

(** *** The effects *)

(** First effect, on [currentNote]: seed the fields. *)
Definition sync_fields (r : Render) (f : Fields) : Fields :=
  match currentNote r with
  | Some note =>
      setHasUnsavedChanges false
        (setIsFavorite (note_isFavorite note)
           (setTags (note_tags note)
              (setContent (note_content note)
                 (setTitle (note_title note) f))))
  | None =>
      setHasUnsavedChanges false
        (setIsFavorite false (setTags [] (setContent "" (setTitle "" f))))
  end.

(** Second effect: mark the fields as changed.  Two arrays of strings
    have the same [JSON.stringify] exactly when they are equal. *)
Definition hasChanges (r : Render) : bool :=
  match currentNote r with
  | Some note =>
      negb (bool_decide (title (seen r) = note_title note))
      || negb (bool_decide (content (seen r) = note_content note))
      || negb (bool_decide (tags (seen r) = note_tags note))
      || negb (bool_decide (isFavorite (seen r) = note_isFavorite note))
  | None =>
      negb (bool_decide (JS.trim (title (seen r)) = ""))
      || negb (bool_decide (JS.trim (content (seen r)) = ""))
  end.

Definition mark_changes (r : Render) (f : Fields) : Fields :=
  setHasUnsavedChanges (hasChanges r) f.

(** The delay of the autosave timeout, in milliseconds. *)
Definition autoSaveDelay : Z := 30000.

(** Third effect: the debounced autosave. *)
Definition autosave_effect (r : Render) (w : World) : World :=
  if hasUnsavedChanges (seen r) && negb (saving (seen r))
  then arm r autoSaveDelay (clear_ref w)
  else w.

(** The callback handed to [setTimeout] by render [r]. *)
Definition autosave_callback (r : Render) (w : World) : World :=
  if JS.truthy (JS.trim (title (seen r))) || JS.truthy (JS.trim (content (seen r)))
  then handleSave r false w
  else w.

Definition sync_deps (r : Render) : SyncDeps := currentNote r.
Definition mark_deps (r : Render) : MarkDeps :=
  (title (seen r), content (seen r), tags (seen r), isFavorite (seen r),
   currentNote r).
Definition autosave_deps (r : Render) : AutoSaveDeps :=
  (hasUnsavedChanges (seen r), saving (seen r), title (seen r), content (seen r)).

(** An effect runs when it never ran or when a dependency differs from
    the last run.  Dependencies are compared by value here; React compares
    an object by identity, so a note replaced by a fresh object with the
    same fields is a change for React and none here: event [NoteReplaced]
    stands for that case. *)
Definition changed {D} `{EqDecision D} (last : option D) (current : D) : bool :=
  negb (bool_decide (last = Some current)).

Definition remember (r : Render) (w : World) : World :=
  {| store := store w; noteId := noteId w; st := st w;
     autoSaveTimeoutRef := autoSaveTimeoutRef w; timers := timers w;
     nextTimer := nextTimer w; deps1 := Some (sync_deps r);
     deps2 := Some (mark_deps r); deps3 := Some (autosave_deps r);
     inflight := inflight w; toasts := toasts w |}.

(** The effects after the commit of render [r]: the cleanup of the
    autosave effect when it ran before and must run again, then the
    effects that must run, in the order of the source. *)
Definition runEffects (r : Render) (w : World) : World :=
  let c1 := changed (deps1 w) (sync_deps r) in
  let c2 := changed (deps2 w) (mark_deps r) in
  let c3 := changed (deps3 w) (autosave_deps r) in
  let w1 := if c3 && bool_decide (is_Some (deps3 w)) then clear_ref w else w in
  let w2 := if c1 then setState (sync_fields r) w1 else w1 in
  let w3 := if c2 then setState (mark_changes r) w2 else w2 in
  let w4 := if c3 then autosave_effect r w3 else w3 in
  remember r w4.

(** Render and run effects until a render leaves the state as it is. *)
Fixpoint rerender (fuel : nat) (w : World) : World :=
  match fuel with
  | O => w
  | S fuel' =>
      let w' := runEffects (render w) w in
      if bool_decide (st w' = st w) then w' else rerender fuel' w'
  end.

(** Three rounds always reach a render that changes nothing (see
    [rerender_settles]). *)
Definition commit (w : World) : World := rerender 3 w.

(** *** Events *)

Inductive Event :=
| ChangeTitle (v : string)              (* onChange of the title input *)
| ChangeContent (v : string)            (* onChange of the textarea *)
| ChangeNewTag (v : string)             (* onChange of the tag input *)
| ToggleFavorite                        (* the star button *)
| AddTag                                (* handleAddTag *)
| RemoveTag (tagToRemove : string)      (* handleRemoveTag *)
| ClickSave                             (* the Save button: handleSave(); the
                                           button is disabled while saving,
                                           the handler is run all the same *)
| TimerFires (id : positive)            (* a pending timeout expires *)
| Settle (db : Remote.Supabase) (applied saved : JS.Date)
                                        (* the awaited call ends *)
| StoreChanged (s : Store.NotesState)   (* another component wrote the store *)
| SelectNote (id : option string)       (* the parent changes [noteId] *)
| NoteReplaced.                         (* the store replaced the current note
                                           by a fresh object with equal fields *)

Definition handleAddTag (r : Render) (w : World) : World :=
  let tagToAdd := JS.trim (newTag (seen r)) in
  if JS.truthy tagToAdd && negb (JS.arr_includes (tags (seen r)) tagToAdd)
  then setState (fun f => setNewTag "" (setTags (tags (seen r) ++ [tagToAdd]) f)) w
  else w.

Definition handleRemoveTag (r : Render) (tagToRemove : string) (w : World) : World :=
  setState (setTags (List.filter (fun tag => negb (bool_decide (tag = tagToRemove)))
                       (tags (seen r)))) w.

Definition fire (id : positive) (w : World) : World :=
  match List.find (fun t => bool_decide (timer_id t = id)) (timers w) with
  | Some t => autosave_callback (timer_closure t) (clearTimeout id w)
  | None => w
  end.

Definition settle (db : Remote.Supabase) (applied saved : JS.Date) (w : World) : World :=
  match inflight w with
  | p :: rest => resume p db applied saved rest w
  | [] => w
  end.

Definition handle (e : Event) (w : World) : World :=
  let r := render w in
  match e with
  | ChangeTitle v => setState (setTitle v) w
  | ChangeContent v => setState (setContent v) w
  | ChangeNewTag v => setState (setNewTag v) w
  | ToggleFavorite => setState (setIsFavorite (negb (isFavorite (seen r)))) w
  | AddTag => handleAddTag r w
  | RemoveTag t => handleRemoveTag r t w
  | ClickSave => handleSave r true w
  | TimerFires id => fire id w
  | Settle db applied saved => settle db applied saved w
  | StoreChanged s =>
      {| store := s; noteId := noteId w; st := st w;
         autoSaveTimeoutRef := autoSaveTimeoutRef w; timers := timers w;
         nextTimer := nextTimer w; deps1 := deps1 w; deps2 := deps2 w;
         deps3 := deps3 w; inflight := inflight w; toasts := toasts w |}
  | SelectNote id =>
      {| store := store w; noteId := id; st := st w;
         autoSaveTimeoutRef := autoSaveTimeoutRef w; timers := timers w;
         nextTimer := nextTimer w; deps1 := deps1 w; deps2 := deps2 w;
         deps3 := deps3 w; inflight := inflight w; toasts := toasts w |}
  | NoteReplaced =>
      {| store := store w; noteId := noteId w; st := st w;
         autoSaveTimeoutRef := autoSaveTimeoutRef w; timers := timers w;
         nextTimer := nextTimer w; deps1 := None; deps2 := None;
         deps3 := deps3 w; inflight := inflight w; toasts := toasts w |}
  end.

Definition step (e : Event) (w : World) : World := commit (handle e w).

(** The component before its first effects. *)
Definition fresh (noteId : option string) (s : Store.NotesState) : World :=
  {| store := s; noteId := noteId;
     st := {| title := ""; content := ""; tags := []; newTag := "";
              isFavorite := false; lastSaved := None; saving := false;
              hasUnsavedChanges := false |};
     autoSaveTimeoutRef := None; timers := []; nextTimer := 1%positive;
     deps1 := None; deps2 := None; deps3 := None;
     inflight := []; toasts := [] |}.

Definition mount (noteId : option string) (s : Store.NotesState) : World :=
  commit (fresh noteId s).

(** The worlds the editor can be in between two events. *)
Inductive reachable : World -> Prop :=
| reachable_mount noteId s : reachable (mount noteId s)
| reachable_step e w : reachable w -> reachable (step e w).

Definition run (es : list Event) (w : World) : World :=
  foldl (fun w e => step e w) w es.

(** *** What holds between two events *)

(** A world in which a render would run no effect. *)
Definition stable (w : World) : Prop := runEffects (render w) w = w.

(** Every pending timeout is the one the ref points to; the autosave
    effect armed it, with its fixed delay, in a render that had unsaved
    changes and no save in flight, and has not run since. *)
Definition armed (w : World) : Prop :=
  ∀ t, t ∈ timers w →
    autoSaveTimeoutRef w = Some (timer_id t)
    ∧ timer_delay t = autoSaveDelay
    ∧ deps3 w = Some (autosave_deps (timer_closure t))
    ∧ hasUnsavedChanges (seen (timer_closure t)) = true
    ∧ saving (seen (timer_closure t)) = false.

(** [saving] is set exactly while one call of the store is awaited. *)
Definition one_flight (w : World) : Prop :=
  length (inflight w) = if saving (st w) then 1%nat else 0%nat.

Definition invariant (w : World) : Prop := armed w ∧ one_flight w ∧ stable w.

End NoteEditor.

(* ===================================================================== *)
(** ** [src/components/SettingsDialog.tsx]: the profile form *)
(* ===================================================================== *)

Module SettingsDialog.

Record UserProfile := mkUserProfile {
  id : string;
  username : option string;
  full_name : option string;
  avatar_url : option string;
  theme_preference : string;
  auto_save_interval : Z              (* seconds *)
}.

(** The form states of the dialog. *)
Record Form := mkForm {
  fullName : string;
  usernameInput : string;
  autoSaveInterval : Z;
  themePreference : string
}.

(** [fetchProfile] on success: the form takes the stored values,
    [data.auto_save_interval || 30]. *)
Definition load (data : UserProfile) : Form :=
  {| fullName := default "" (full_name data);
     usernameInput := default "" (username data);
     autoSaveInterval :=
       if auto_save_interval data =? 0 then 30 else auto_save_interval data;
     themePreference := JS.or_else (theme_preference data) "system" |}.

(** The row written by [updateProfile] for profile [p] from the form. *)
Definition updateProfile (p : UserProfile) (f : Form) : UserProfile :=
  {| id := id p;
     username := if JS.truthy (usernameInput f) then Some (usernameInput f) else None;
     full_name := Some (fullName f);
     avatar_url := avatar_url p;
     theme_preference := themePreference f;
     auto_save_interval := autoSaveInterval f |}.

End SettingsDialog.

(** A profile as the settings dialog stores it after the user has set the
    autosave interval to 60 seconds. *)
Module Profiles.
Import SettingsDialog.

Definition stored : UserProfile :=
  {| id := "u1"; username := None; full_name := Some "Ada";
     avatar_url := None; theme_preference := "system";
     auto_save_interval := 30 |}.

Definition sixty : Form :=
  {| fullName := "Ada"; usernameInput := ""; autoSaveInterval := 60;
     themePreference := "system" |}.

End Profiles.

(** The tags of every local note are in the tag index.  It holds in the
    initial store and every action of the store keeps it. *)
Definition indexed (s : Store.NotesState) : Prop :=
  ∀ n, n ∈ Store.notes s → note_tags n ⊆ Store.tags s.

From Stdlib Require DecimalString.

(* ===================================================================== *)
(** ** Runs of the store *)
(* ===================================================================== *)

Module StoreRuns.
Import Remote Store Mutations.

(** One call of an action of the store, with the answers of the backend
    and the clock it meets. *)
Inductive StoreCall :=
| Mutate (db : Supabase) (now : JS.Date) (m : Mutation)
| FetchNotes (db : Supabase) (now : JS.Date)
| FetchFolders (db : Supabase)
| SyncNotes (db : Supabase) (now : JS.Date).

Definition action (c : StoreCall) : Action unit :=
  match c with
  | Mutate db now m => perform db now m
  | FetchNotes db now => fetchNotes db now
  | FetchFolders db => fetchFolders db
  | SyncNotes db now => syncNotes db now
  end.

(** The store after the calls [cs], one after the other; a thrown call
    leaves the state it reached. *)
Definition after (cs : list StoreCall) (s : NotesState) : NotesState :=
  foldl (fun s c => fst (action c s)) s cs.

Definition is_folder_mutation (m : Mutation) : bool :=
  match m with
  | AddFolder _ | UpdateFolder _ _ | DeleteFolder _ => true
  | _ => false
  end.

End StoreRuns.

(* ===================================================================== *)
(** ** [src/components/NotesList.tsx]: the rest of the component *)
(* ===================================================================== *)

Module NotesListHandlers.

Inductive Toast := SyncComplete | SyncFailed.

(** [handleSync]: [try { await syncNotes(); toast(...) } catch { toast(...) }]. *)
Definition handleSync (db : Remote.Supabase) (now : JS.Date)
    (s : Store.NotesState) : Store.NotesState * Toast :=
  match Store.syncNotes db now s with
  | (s', Store.Done _) => (s', SyncComplete)
  | (s', Store.Thrown _) => (s', SyncFailed)
  end.

(** The tag buttons: [setSelectedTag(selectedTag === tag ? null : tag)]. *)
Definition clickTag (selectedTag : option string) (tag : string) : option string :=
  if bool_decide (selectedTag = Some tag) then None else Some tag.

(** [String.prototype.slice(0, n)]. *)
Fixpoint slice0 (n : nat) (s : string) : string :=
  match n, s with
  | O, _ => EmptyString
  | S _, EmptyString => EmptyString
  | S n', String c s' => String c (slice0 n' s')
  end.

(** [truncateContent(content, maxLength = 100)]. *)
Definition truncateContent (content : string) (maxLength : nat) : string :=
  if (String.length content <=? maxLength)%nat then content
  else slice0 maxLength content +:+ "...".

Definition truncateContent_default (content : string) : string :=
  truncateContent content 100.

Definition msPerDay : Z := 1000 * 60 * 60 * 24.

(** [Math.ceil(diffTime / (1000 * 60 * 60 * 24))] for a whole, non-negative
    number of milliseconds. *)
Definition ceilDays (diffTime : Z) : Z := (diffTime + msPerDay - 1) / msPerDay.

(** A whole number in a template literal. *)
Definition show_number (n : Z) : string :=
  DecimalString.NilZero.string_of_int (Z.to_int n).

Section FormatDate.
(** [Date.prototype.toLocaleDateString] depends on the locale of the host. *)
Variable toLocaleDateString : JS.Date -> string.

(** [formatDate(date)] at clock reading [now]. *)
Definition formatDate (now date : JS.Date) : string :=
  let diffTime := Z.abs (now - date) in
  let diffDays := ceilDays diffTime in
  if diffDays =? 1 then "Today"
  else if diffDays =? 2 then "Yesterday"
  else if diffDays <=? 7 then show_number (diffDays - 1) +:+ " days ago"
  else toLocaleDateString date.
End FormatDate.

End NotesListHandlers.

(* ===================================================================== *)
(** ** [src/components/NoteEditor.tsx]: more about the editor *)
(* ===================================================================== *)

Module EditorMore.
Import Mutations NoteEditor.

(** The call that [handleSave] of render [r] makes when its guards pass. *)
Definition save_request (r : Render) : Mutation :=
  match currentNote r with
  | Some note => UpdateNote (note_id note) (noteData_update r)
  | None => AddNote (noteData_insert r)
  end.

(** Whether the autosave effect arms a timeout for these dependencies. *)
Definition wants_timer (d : AutoSaveDeps) : bool :=
  let '(unsaved, busy, _, _) := d in unsaved && negb busy.

(** A timeout is pending exactly when the last run of the autosave effect
    armed one. *)
Definition timer_matches (w : World) : Prop :=
  match deps3 w with
  | Some d => timers w ≠ [] ↔ wants_timer d = true
  | None => timers w = []
  end.

(** The second effect's verdict, from its dependencies alone. *)
Definition differs (d : MarkDeps) : bool :=
  let '(t, c, g, f, note) := d in
  hasChanges {| seen := {| title := t; content := c; tags := g; newTag := "";
                           isFavorite := f; lastSaved := None; saving := false;
                           hasUnsavedChanges := false |};
                currentNote := note |}.

(** The first two effects last ran for the same note, and
    [hasUnsavedChanges] is what the second effect computed then. *)
Definition flag_exact (w : World) : Prop :=
  match deps1 w, deps2 w with
  | Some n, Some d => snd d = n ∧ hasUnsavedChanges (st w) = differs d
  | None, None => True
  | _, _ => False
  end.

(** The worlds reached without any awaited save having ended. *)
Inductive editing : World -> Prop :=
| editing_mount noteId s : editing (mount noteId s)
| editing_step e w :
    editing w -> (∀ db applied saved, e ≠ Settle db applied saved) ->
    editing (step e w).

(** [handleExport(format)]: the name and the text of the downloaded file. *)
Inductive Format := md | txt | pdf.

Definition extension (f : Format) : string :=
  match f with md => "md" | txt => "txt" | pdf => "pdf" end.

Definition handleExport (r : Render) (format : Format) : string * string :=
  let fileName := JS.or_else (title (seen r)) "note" +:+ "." +:+ extension format in
  let exportContent :=
    match format with
    | md => "# " +:+ title (seen r) +:+ String "010" (String "010" (content (seen r)))
    | _ => content (seen r)
    end in
  (fileName, exportContent).

End EditorMore.

(** Whether a string holds a line feed. *)
Fixpoint has_line_feed (s : string) : bool :=
  match s with
  | EmptyString => false
  | String c s' => bool_decide (c = "010"%char) || has_line_feed s'
  end.

(* ===================================================================== *)
(** ** [src/hooks/useTheme.ts] *)
(* ===================================================================== *)

Module Theme.

(** What the hook reads and writes outside React: the [theme] entry of
    [localStorage], the [prefers-color-scheme: dark] media query and the
    [dark] class of the document. *)
Record Host := mkHost {
  savedTheme : option string;
  prefersDark : bool;
  darkClass : bool
}.

(** The hook: its [theme] state and the host.  The state is typed
    ['light' | 'dark' | 'system'] but takes whatever string the storage
    holds. *)
Definition Hook : Type := string * Host.

Definition actualTheme (theme : string) (prefersDark : bool) : string :=
  if bool_decide (theme = "system")
  then (if prefersDark then "dark" else "light")
  else theme.

(** The effect on [theme]. *)
Definition apply_theme (theme : string) (h : Host) : Host :=
  {| savedTheme := Some theme;
     prefersDark := prefersDark h;
     darkClass := bool_decide (actualTheme theme (prefersDark h) = "dark") |}.

(** The effect of the mount: [savedTheme ? savedTheme : 'system']. *)
Definition restored (h : Host) : string :=
  match savedTheme h with
  | Some t => if JS.truthy t then t else "system"
  | None => "system"
  end.

(** The hook after its mount: the first render has [theme = 'system'], both
    effects run on it, and the effect on [theme] runs again when the restored
    theme is another one. *)
Definition mount (h : Host) : Hook :=
  let t := restored h in
  let h1 := apply_theme "system" h in
  (t, if bool_decide (t = "system") then h1 else apply_theme t h1).

(** A state update: the effect on [theme] runs when the state changed. *)
Definition update (newTheme : string) (k : Hook) : Hook :=
  (newTheme,
   if bool_decide (newTheme = fst k) then snd k else apply_theme newTheme (snd k)).

Definition setTheme (newTheme : string) (k : Hook) : Hook := update newTheme k.

(** [setThemeState(prev => prev === 'light' ? 'dark' : 'light')]. *)
Definition toggleTheme (k : Hook) : Hook :=
  update (if bool_decide (fst k = "light") then "dark" else "light") k.


(** The hooks a page can be in: mounted on some host, then updated. *)
Inductive reachable : Hook -> Prop :=
| reachable_mount h : reachable (mount h)
| reachable_setTheme t k : reachable k -> reachable (setTheme t k)
| reachable_toggle k : reachable k -> reachable (toggleTheme k).

End Theme.

(* ===================================================================== *)
(** ** [src/components/SettingsDialog.tsx]: the actions of the dialog *)
(* ===================================================================== *)

Module SettingsActions.
Import Remote SettingsDialog.

(** The signed-in user of [useAuth]: its id and
    [user_metadata?.full_name]. *)
Record User := mkUser {
  user_id : string;
  metadata_full_name : option string
}.

(** The columns written by [updateProfile]. *)
Record ProfileUpdate := mkProfileUpdate {
  upd_full_name : string;
  upd_username : option string;
  upd_theme_preference : string;
  upd_auto_save_interval : Z
}.

(** How the backend answers the requests on [profiles]. *)
Record ProfileApi := mkProfileApi {
  profiles_select : string -> PostgrestResponse UserProfile;
  profiles_insert : UserProfile -> PostgrestResponse unit;
  profiles_update : string -> ProfileUpdate -> PostgrestResponse unit
}.

Inductive Toast := ProfileError | ProfileSuccess | SignedOut.

Record Dialog := mkDialog {
  profile : option UserProfile;
  loading : bool;
  form : Form;
  isOpen : bool;
  theme : Theme.Hook;
  toasts : list Toast
}.

Definition initial (k : Theme.Hook) : Dialog :=
  {| profile := None; loading := false;
     form := {| fullName := ""; usernameInput := ""; autoSaveInterval := 30;
                themePreference := "system" |};
     isOpen := false; theme := k; toasts := [] |}.

Definition setLoading (b : bool) (d : Dialog) : Dialog :=
  {| profile := profile d; loading := b; form := form d; isOpen := isOpen d;
     theme := theme d; toasts := toasts d |}.

Definition payload (f : Form) : ProfileUpdate :=
  {| upd_full_name := fullName f;
     upd_username := if JS.truthy (usernameInput f) then Some (usernameInput f)
                     else None;
     upd_theme_preference := themePreference f;
     upd_auto_save_interval := autoSaveInterval f |}.

(** [createProfile]: the defaults are inserted; the form takes them only
    when the insert succeeds, and the username input is left as it is. *)
Definition createProfile (user : option User) (api : ProfileApi) (d : Dialog)
    : Dialog :=
  match user with
  | None => d
  | Some u =>
      let newProfile :=
        {| id := user_id u;
           full_name := Some (JS.or_else (default "" (metadata_full_name u)) "");
           username := None; avatar_url := None;
           theme_preference := "system"; auto_save_interval := 30 |} in
      match profiles_insert api newProfile with
      | failure _ => d
      | success _ =>
          {| profile := Some newProfile; loading := loading d;
             form := {| fullName := default "" (full_name newProfile);
                        usernameInput := usernameInput (form d);
                        autoSaveInterval := auto_save_interval newProfile;
                        themePreference := theme_preference newProfile |};
             isOpen := isOpen d; theme := theme d; toasts := toasts d |}
      end
  end.

(** [fetchProfile]: any failed select is taken to mean that there is no
    profile yet. *)
Definition fetchProfile (user : option User) (api : ProfileApi) (d : Dialog)
    : Dialog :=
  match user with
  | None => d
  | Some u =>
      let d1 := setLoading true d in
      let d2 :=
        match profiles_select api (user_id u) with
        | failure _ => createProfile user api d1
        | success data =>
            {| profile := Some data; loading := loading d1; form := load data;
               isOpen := isOpen d1; theme := theme d1; toasts := toasts d1 |}
        end in
      setLoading false d2
  end.

(** [updateProfile], the handler of "Save Changes". *)
Definition save (user : option User) (api : ProfileApi) (d : Dialog) : Dialog :=
  match user, profile d with
  | Some u, Some _ =>
      match profiles_update api (user_id u) (payload (form d)) with
      | failure _ =>
          {| profile := profile d; loading := false; form := form d;
             isOpen := isOpen d; theme := theme d;
             toasts := toasts d ++ [ProfileError] |}
      | success _ =>
          {| profile := profile d; loading := false; form := form d;
             isOpen := isOpen d;
             theme := Theme.setTheme (themePreference (form d)) (theme d);
             toasts := toasts d ++ [ProfileSuccess] |}
      end
  | _, _ => d
  end.

(** The row of [profiles] after the update of [save] was applied to it. *)
Definition written (row : UserProfile) (u : ProfileUpdate) : UserProfile :=
  {| id := id row; username := upd_username u;
     full_name := Some (upd_full_name u); avatar_url := avatar_url row;
     theme_preference := upd_theme_preference u;
     auto_save_interval := upd_auto_save_interval u |}.

End SettingsActions.

(* ===================================================================== *)
(** * Properties *)
(* ===================================================================== *)

(** ** The tag index as a set *)

Section TagIndex.
Import JS.

Lemma foldl_Set_add_elem (xs acc : list string) (x : string) :
  x ∈ foldl Set_add acc xs ↔ x ∈ acc ∨ x ∈ xs.
Proof.
  revert acc. induction xs as [|y xs IH]; intros acc; simpl.
  - rewrite elem_of_nil. tauto.
  - rewrite IH, elem_of_cons. unfold Set_add.
    case_bool_decide as Hy.
    + split; [tauto|]. intros [?|[->|?]]; auto.
    + rewrite elem_of_app, list_elem_of_singleton. tauto.
Qed.

Lemma foldl_Set_add_NoDup (xs acc : list string) :
  NoDup acc → NoDup (foldl Set_add acc xs).
Proof.
  revert acc. induction xs as [|y xs IH]; intros acc Hacc; simpl; [done|].
  apply IH. unfold Set_add. case_bool_decide as Hy; [done|].
  apply NoDup_app. split_and!; [done| |apply NoDup_singleton].
  intros z Hz ->%list_elem_of_singleton. done.
Qed.

Lemma Array_from_Set_elem (xs : list string) (x : string) :
  x ∈ Array_from_Set xs ↔ x ∈ xs.
Proof.
  unfold Array_from_Set. rewrite foldl_Set_add_elem, elem_of_nil. tauto.
Qed.

Lemma Array_from_Set_NoDup (xs : list string) : NoDup (Array_from_Set xs).
Proof. apply foldl_Set_add_NoDup, NoDup_nil_2. Qed.

Lemma flatMap_elem {A B} (f : A → list B) (l : list A) (y : B) :
  y ∈ flatMap f l ↔ ∃ x, x ∈ l ∧ y ∈ f x.
Proof.
  unfold flatMap. rewrite list_elem_of_In, in_flat_map.
  split; intros (x & Hx & Hy); exists x.
  - by rewrite !list_elem_of_In.
  - by rewrite <- !list_elem_of_In.
Qed.
End TagIndex.

(** ** Write-through *)

Section WriteThrough.
Import Remote Store Mutations.

Lemma current_user_signed_in (db : Supabase) (s : NotesState) :
  current_user db s =
    match signed_in db with
    | Some uid => (s, Done uid)
    | None => (s, Thrown NotAuthenticated)
    end.
Proof.
  unfold current_user, signed_in.
  destruct (userError (auth_getUser db)), (user (auth_getUser db)); reflexivity.
Qed.

(** A thrown action has not touched the state. *)
Lemma perform_thrown (db : Supabase) (now : JS.Date) (m : Mutation)
    (s s' : NotesState) (e : Error) :
  perform db now m s = (s', Thrown e) → s' = s.
Proof.
  destruct m; simpl;
    unfold addNote, updateNote, deleteNote, addFolder, updateFolder,
      deleteFolder, bind; rewrite ?current_user_signed_in;
    repeat match goal with
      | |- context [signed_in ?d] => destruct (signed_in d)
      | |- context [await_or_throw ?r] => destruct r; simpl
      end; unfold set, throw; intros [=]; done.
Qed.

Lemma perform_failure (db : Supabase) (now : JS.Date) (m : Mutation)
    (s : NotesState) (e : PostgrestError) :
  remote_write db m = Some (failure e) →
  perform db now m s = (s, Thrown (Rejected e)).
Proof.
  destruct m; simpl;
    unfold addNote, updateNote, deleteNote, addFolder, updateFolder,
      deleteFolder, bind; rewrite ?current_user_signed_in;
    repeat match goal with
      | |- context [signed_in ?d] => destruct (signed_in d); simpl
      | |- context [forget ?r] => destruct r; simpl
      | |- context [await_or_throw ?r] => destruct r; simpl
      end; intros [=]; subst; done.
Qed.

Lemma perform_unauthenticated (db : Supabase) (now : JS.Date) (m : Mutation)
    (s : NotesState) :
  remote_write db m = None →
  perform db now m s = (s, Thrown NotAuthenticated).
Proof.
  destruct m; simpl; try discriminate;
    unfold addNote, addFolder, bind; rewrite current_user_signed_in;
    destruct (signed_in db); simpl; intros [=]; done.
Qed.
End WriteThrough.

(** ** The stable sort *)

Section SortFacts.
Import JS.
Context {A : Type} (cmp : A → A → Z).

Lemma insert_sorted_split (x : A) (l : list A) :
  ∃ l1 l2, l = l1 ++ l2 ∧ insert_sorted cmp x l = l1 ++ x :: l2
           ∧ Forall (fun y => 0 < cmp x y) l1.
Proof.
  induction l as [|y l (l1 & l2 & -> & Hins & Hall)]; simpl.
  - by exists [], [].
  - destruct (Z.leb_spec (cmp x y) 0).
    + by exists [], (y :: l1 ++ l2).
    + exists (y :: l1), l2. rewrite Hins. split_and!; [done..|].
      constructor; [lia|done].
Qed.

Lemma insert_sorted_Permutation (x : A) (l : list A) :
  insert_sorted cmp x l ≡ₚ x :: l.
Proof.
  destruct (insert_sorted_split x l) as (l1 & l2 & -> & -> & _).
  by rewrite Permutation_middle.
Qed.

Lemma sort_Permutation (l : list A) : sort cmp l ≡ₚ l.
Proof.
  induction l as [|x l IH]; simpl; [done|].
  by rewrite insert_sorted_Permutation, IH.
Qed.

Lemma sort_elem (l : list A) (x : A) : x ∈ sort cmp l ↔ x ∈ l.
Proof. by rewrite sort_Permutation. Qed.

(** Stability: a class of elements that the comparator never puts
    strictly apart keeps its input order. *)
Lemma sort_stable (P : A → bool) (l : list A) :
  (∀ x y, P x = true → 0 < cmp x y → P y = false) →
  List.filter P (sort cmp l) = List.filter P l.
Proof.
  intros HP. induction l as [|x l IH]; simpl; [done|].
  destruct (insert_sorted_split x (sort cmp l)) as (l1 & l2 & Hl & -> & Hall).
  rewrite <- IH, Hl, !List.filter_app. simpl.
  destruct (P x) eqn:Hx; [|done].
  assert (List.filter P l1 = []) as ->; [|done].
  clear Hl. induction Hall as [|y l1 Hy _ IH1]; simpl; [done|].
  by rewrite (HP x y Hx Hy).
Qed.

Lemma insert_sorted_HdRel (x y : A) (l : list A) :
  cmp y x <= 0 → HdRel (fun a b => cmp a b <= 0) y l →
  HdRel (fun a b => cmp a b <= 0) y (insert_sorted cmp x l).
Proof.
  intros Hyx Hl. destruct l as [|z l]; simpl; [by constructor|].
  destruct (cmp x z <=? 0); constructor; [done|].
  by inversion Hl.
Qed.

Lemma sort_Sorted (l : list A) :
  (∀ x y, 0 < cmp x y → cmp y x <= 0) →
  Sorted (fun a b => cmp a b <= 0) (sort cmp l).
Proof.
  intros Htot. induction l as [|x l IH]; simpl; [constructor|].
  induction IH as [|y l' Hs IH' Hhd]; simpl; [by repeat constructor|].
  destruct (Z.leb_spec (cmp x y) 0).
  - constructor; [by constructor|by constructor].
  - constructor; [done|]. apply insert_sorted_HdRel; [|done]. by apply Htot.
Qed.
End SortFacts.

Lemma Sorted_weaken {A} (R R' : A → A → Prop) (l : list A) :
  (∀ a b, R a b → R' a b) → Sorted R l → Sorted R' l.
Proof.
  intros HR. induction 1 as [|x l _ IH Hhd]; constructor; [done|].
  destruct Hhd; constructor. by apply HR.
Qed.

Section StoreClaims.
Import Remote Store Mutations.

(** C1. Every mutating action of the store ([addNote], [updateNote],
    [deleteNote], [addFolder], [updateFolder], [deleteFolder]) is
    write-through: when the remote write fails, the action throws that
    failure to its caller and the whole local state (notes, folders,
    tags, and the rest) is exactly what it was; and whenever an action
    ends in a state different from the one it started in, its remote
    write had succeeded and the action returned normally. *)
Theorem store_write_through (db : Supabase) (now : JS.Date) (m : Mutation)
    (s : NotesState) :
  (∀ e, remote_write db m = Some (failure e) →
        perform db now m s = (s, Thrown (Rejected e)))
  ∧ (∀ s' o, perform db now m s = (s', o) → s' ≠ s →
        remote_write db m = Some (success tt) ∧ o = Done tt).
Proof.
  split; [intros e; apply perform_failure|].
  intros s' o Hrun Hne. destruct o as [[]|e].
  - split; [|done].
    destruct (remote_write db m) as [[[]|e]|] eqn:Hw; [done| |].
    + rewrite (perform_failure _ _ _ _ _ Hw) in Hrun. congruence.
    + rewrite (perform_unauthenticated _ _ _ _ Hw) in Hrun. congruence.
  - apply perform_thrown in Hrun. congruence.
Qed.

Lemma store_write_through_witness :
  perform Samples.offline 3000 (UpdateNote "n1" (Samples.retitle "Errands"))
    Samples.two_notes
  = (Samples.two_notes, Thrown (Rejected "offline"))
  ∧ (remote_write (Samples.online []) (DeleteNote "n1") = Some (success tt)
     ∧ Done tt = Done tt).
Proof.
  split.
  - apply (proj1 (store_write_through Samples.offline 3000
                    (UpdateNote "n1" (Samples.retitle "Errands"))
                    Samples.two_notes)).
    reflexivity.
  - apply (proj2 (store_write_through (Samples.online []) 3000
                    (DeleteNote "n1") Samples.two_notes)
             (with_notes (fun _ => [Samples.budget]) Samples.two_notes)).
    + reflexivity.
    + discriminate.
Defined.

Lemma Sorted_fmap {A B} (R : B → B → Prop) (f : A → B) (l : list A) :
  Sorted (fun a b => R (f a) (f b)) l → Sorted R (f <$> l).
Proof.
  induction 1 as [|x l _ IH Hhd]; simpl; constructor; [done|].
  destruct Hhd; simpl; by constructor.
Qed.

Lemma order_by_Permutation {A} (key : A → Z) (asc : bool) (rows : list A) :
  Schema.order_by key asc rows ≡ₚ rows.
Proof. apply sort_Permutation. Qed.

Lemma order_by_elem {A} (key : A → Z) (asc : bool) (rows : list A) (x : A) :
  x ∈ Schema.order_by key asc rows ↔ x ∈ rows.
Proof. apply sort_elem. Qed.

Lemma order_by_descending {A} (key : A → Z) (rows : list A) :
  Sorted Z.ge (key <$> Schema.order_by key false rows).
Proof.
  apply Sorted_fmap. unfold Schema.order_by.
  apply (Sorted_weaken (fun a b => key b - key a <= 0)).
  - intros a b. lia.
  - apply sort_Sorted. intros x y. lia.
Qed.

Lemma fetchNotes_run (db : Supabase) (now : JS.Date) (s : NotesState)
    (rows : list NoteRow) :
  notes_select db notes_order = success rows →
  fetchNotes db now s =
    ({| notes := note_of_row <$> rows; folders := folders s;
        tags := JS.Array_from_Set
                  (JS.flatMap note_tags (note_of_row <$> rows));
        isLoading := false; lastSync := Some now |}, Done tt).
Proof.
  intros H. unfold fetchNotes, bind, setLoading, set. by rewrite H.
Qed.

(** C2. When the select of [fetchNotes] succeeds with [rows], the action
    returns normally and the local note collection is exactly the rows,
    one note per row, column by column (a null content, tag list or
    favorite flag read as empty, empty and false) and in the order the
    backend delivered them, whatever the collection held before.  The
    request asks for [updated_at] descending: against a backend that runs
    the request on its table the rows are those of the table and the
    collection is in descending order of [updatedAt].  The tag index is
    exactly the set of tags of the fetched rows, without repetition:
    nothing of the previous index survives. *)
Theorem fetchNotes_overwrites (db : Supabase) (now : JS.Date)
    (s : NotesState) (rows : list NoteRow) :
  notes_select db notes_order = success rows →
  let s' := fst (fetchNotes db now s) in
  snd (fetchNotes db now s) = Done tt
  ∧ Forall2 (fun n r =>
       note_id n = row_id r ∧ note_title n = row_title r
       ∧ note_content n = default "" (row_content r)
       ∧ note_tags n = default [] (row_tags r)
       ∧ note_isFavorite n = default false (row_is_favorite r)
       ∧ note_folderId n = row_folder_id r
       ∧ note_createdAt n = row_created_at r
       ∧ note_updatedAt n = row_updated_at r)
     (notes s') rows
  ∧ (∀ d : Schema.Database,
       notes_select db notes_order = Schema.select_notes d notes_order →
       rows ≡ₚ Schema.tbl_notes d
       ∧ Sorted Z.ge (note_updatedAt <$> notes s'))
  ∧ (∀ t, t ∈ tags s' ↔ ∃ r ts, r ∈ rows ∧ row_tags r = Some ts ∧ t ∈ ts)
  ∧ NoDup (tags s')
  ∧ (∀ s0, notes (fst (fetchNotes db now s0)) = notes s'
           ∧ tags (fst (fetchNotes db now s0)) = tags s').
Proof.
  intros Hsel. cbv zeta. rewrite (fetchNotes_run _ _ _ _ Hsel).
  cbn [fst snd notes tags].
  split_and!.
  - done.
  - clear Hsel. induction rows as [|r rows IH]; simpl; constructor; [|done].
    split_and!; try done. simpl. by destruct (row_content r) as [[|]|].
  - intros d Hd. rewrite Hsel in Hd. injection Hd as ->. split.
    + apply order_by_Permutation.
    + rewrite <- list_fmap_compose.
      apply (order_by_descending row_updated_at).
  - intros t. rewrite Array_from_Set_elem, flatMap_elem. split.
    + intros (n & (r & -> & Hr)%list_elem_of_fmap & Ht). simpl in Ht.
      destruct (row_tags r) as [ts|] eqn:Hts; simpl in Ht.
      * by exists r, ts.
      * by apply elem_of_nil in Ht.
    + intros (r & ts & Hr & Hts & Ht). exists (note_of_row r). split.
      * by apply list_elem_of_fmap_2.
      * simpl. by rewrite Hts.
  - apply Array_from_Set_NoDup.
  - intros s0. by rewrite (fetchNotes_run _ _ _ _ Hsel).
Qed.

Lemma fetchNotes_overwrites_witness :
  Sorted Z.ge
    (note_updatedAt <$>
       notes (fst (fetchNotes
                     (Samples.online [Samples.budget_row; Samples.shopping_row])
                     3000 Samples.two_notes))).
Proof.
  assert (Hsel :
    notes_select (Samples.online [Samples.budget_row; Samples.shopping_row])
      notes_order
    = success [Samples.shopping_row; Samples.budget_row]) by reflexivity.
  exact (proj2 (proj1 (proj2 (proj2
    (fetchNotes_overwrites
       (Samples.online [Samples.budget_row; Samples.shopping_row])
       3000 Samples.two_notes
       [Samples.shopping_row; Samples.budget_row] Hsel)))
    {| Schema.tbl_notes := [Samples.budget_row; Samples.shopping_row];
       Schema.tbl_folders := [] |} eq_refl)).
Defined.

Lemma updateNote_run (db : Supabase) (now : JS.Date) (id : string)
    (U : PartialNote) (s : NotesState) :
  notes_update db id (update_payload U) = success tt →
  updateNote db now id U s =
    ({| notes := (fun note => if bool_decide (note_id note = id)
                              then merged now note U else note) <$> notes s;
        folders := folders s;
        tags := JS.Array_from_Set (tags s ++ default [] (p_tags U));
        isLoading := isLoading s; lastSync := lastSync s |}, Done tt).
Proof. intros H. unfold updateNote, bind. rewrite H. reflexivity. Qed.

Lemma addNote_run (db : Supabase) (nd : NoteData) (uid : string)
    (row : NoteRow) (s : NotesState) :
  signed_in db = Some uid →
  notes_insert db nd uid = success row →
  addNote db nd s =
    ({| notes := note_of_inserted row :: notes s;
        folders := folders s;
        tags := JS.Array_from_Set (tags s ++ note_tags (note_of_inserted row));
        isLoading := isLoading s; lastSync := lastSync s |}, Done tt).
Proof.
  intros Hu H. unfold addNote, bind. rewrite current_user_signed_in, Hu. simpl.
  rewrite H. reflexivity.
Qed.

Lemma deleteNote_tags (db : Supabase) (id : string) (s : NotesState) :
  tags (fst (deleteNote db id s)) = tags s.
Proof. unfold deleteNote, bind. destruct (notes_delete db id); reflexivity. Qed.

Lemma tags_after_thrown (db : Supabase) (now : JS.Date) (m : Mutation)
    (s : NotesState) (e : Error) :
  snd (perform db now m s) = Thrown e → fst (perform db now m s) = s.
Proof.
  destruct (perform db now m s) as [s' o] eqn:Hrun. simpl. intros ->.
  by apply perform_thrown in Hrun.
Qed.

(** C3 fails as stated: an update applied at clock reading 2000 to a note
    whose [updatedAt] is already 2000 stores 2000 again. *)
Lemma updateNote_same_instant :
  updateNote (Samples.online []) 2000 "n1" (Samples.retitle "Errands")
    Samples.two_notes
  = ({| notes := [ {| note_id := "n1"; note_title := "Errands";
                      note_content := ""; note_tags := ["home"];
                      note_isFavorite := false; note_createdAt := 1000;
                      note_updatedAt := 2000; note_folderId := Some "f1" |};
                   Samples.budget ];
        folders := [Samples.groceries]; tags := ["home"; "work"];
        isLoading := false; lastSync := Some 2500 |}, Done tt)
  ∧ note_updatedAt Samples.shopping = 2000
  ∧ ¬ (note_updatedAt Samples.shopping < 2000).
Proof. split_and!; [reflexivity..|]. unfold Samples.shopping; simpl. lia. Qed.

(** C3, amended. After [updateNote(id, U)] succeeds the collection has the
    same length; a note whose id differs from [id] is the same note at the
    same position; a note whose id is [id] has, for every field other than
    [updatedAt], the value given in [U] when [U] has the field and its old
    value otherwise; its [updatedAt] is the reading [now] of the client
    clock at the update, whatever [U] says, so it increases strictly
    exactly when that reading is later than the old [updatedAt]. *)
Theorem updateNote_frame (db : Supabase) (now : JS.Date) (id : string)
    (U : PartialNote) (s : NotesState) :
  notes_update db id (update_payload U) = success tt →
  let s' := fst (updateNote db now id U s) in
  snd (updateNote db now id U s) = Done tt
  ∧ length (notes s') = length (notes s)
  ∧ folders s' = folders s
  ∧ ∀ (i : nat) (N : Note), notes s !! i = Some N →
      (note_id N ≠ id → notes s' !! i = Some N)
      ∧ (note_id N = id → ∃ N', notes s' !! i = Some N'
           ∧ note_id N' = default (note_id N) (p_id U)
           ∧ note_title N' = default (note_title N) (p_title U)
           ∧ note_content N' = default (note_content N) (p_content U)
           ∧ note_tags N' = default (note_tags N) (p_tags U)
           ∧ note_isFavorite N' = default (note_isFavorite N) (p_isFavorite U)
           ∧ note_createdAt N' = default (note_createdAt N) (p_createdAt U)
           ∧ note_folderId N' = default (note_folderId N) (p_folderId U)
           ∧ note_updatedAt N' = now
           ∧ (note_updatedAt N < note_updatedAt N' ↔ note_updatedAt N < now)).
Proof.
  intros Hok. rewrite (updateNote_run _ _ _ _ _ Hok). simpl.
  split_and!; [done|by rewrite length_fmap|done|].
  intros i N Hi. rewrite list_lookup_fmap, Hi. simpl. split.
  - intros Hne. by rewrite bool_decide_eq_false_2.
  - intros Heq. rewrite bool_decide_eq_true_2 by done.
    eexists. split; [reflexivity|]. simpl. split_and!; done.
Qed.

Lemma updateNote_frame_witness :
  snd (updateNote (Samples.online []) 3000 "n1" (Samples.retitle "Errands")
         Samples.two_notes) = Done tt.
Proof.
  apply (updateNote_frame (Samples.online []) 3000 "n1"
           (Samples.retitle "Errands") Samples.two_notes).
  reflexivity.
Defined.

(** C6. [addNote] and [updateNote] never remove a tag from the index,
    whatever the backend answers; when they succeed the new index is, as a
    set, the old index together with the tags of the inserted note,
    respectively with the tags carried by the update (none when the update
    carries no [tags]), which in a store whose notes are all indexed is the
    old index together with the tags of the updated note; [deleteNote]
    leaves the index as it is, so the tag of a deleted note stays in the
    index. *)
Theorem tag_index_additive (db : Supabase) (now : JS.Date) (s : NotesState) :
  (∀ nd, tags s ⊆ tags (fst (addNote db nd s)))
  ∧ (∀ id U, tags s ⊆ tags (fst (updateNote db now id U s)))
  ∧ (∀ nd uid row, signed_in db = Some uid →
       notes_insert db nd uid = success row →
       ∀ t, t ∈ tags (fst (addNote db nd s))
            ↔ t ∈ tags s ∨ t ∈ note_tags (note_of_inserted row))
  ∧ (∀ id U, notes_update db id (update_payload U) = success tt →
       ∀ t, t ∈ tags (fst (updateNote db now id U s))
            ↔ t ∈ tags s ∨ t ∈ default [] (p_tags U))
  ∧ (∀ id U, notes_update db id (update_payload U) = success tt →
       indexed s →
       ∀ (i : nat) N N', notes s !! i = Some N → note_id N = id →
         notes (fst (updateNote db now id U s)) !! i = Some N' →
         ∀ t, t ∈ tags (fst (updateNote db now id U s))
              ↔ t ∈ tags s ∨ t ∈ note_tags N')
  ∧ (∀ id, tags (fst (deleteNote db id s)) = tags s).
Proof.
  assert (Hadd : ∀ nd uid row, signed_in db = Some uid →
       notes_insert db nd uid = success row →
       ∀ t, t ∈ tags (fst (addNote db nd s))
            ↔ t ∈ tags s ∨ t ∈ note_tags (note_of_inserted row)).
  { intros nd uid row Hu Hrow t. rewrite (addNote_run _ _ _ _ _ Hu Hrow).
    simpl. by rewrite Array_from_Set_elem, elem_of_app. }
  assert (Hupd : ∀ id U, notes_update db id (update_payload U) = success tt →
       ∀ t, t ∈ tags (fst (updateNote db now id U s))
            ↔ t ∈ tags s ∨ t ∈ default [] (p_tags U)).
  { intros id U Hok t. rewrite (updateNote_run _ _ _ _ _ Hok).
    simpl. by rewrite Array_from_Set_elem, elem_of_app. }
  split_and!; [| |exact Hadd|exact Hupd| |intros id; apply deleteNote_tags].
  - intros nd t Ht.
    destruct (snd (perform db now (AddNote nd) s)) as [[]|e] eqn:Ho.
    + destruct (remote_write db (AddNote nd)) as [[[]|e]|] eqn:Hw.
      * simpl in Hw. destruct (signed_in db) as [uid|] eqn:Hu; [|done].
        simpl in Hw. destruct (notes_insert db nd uid) as [row|] eqn:Hr; [|done].
        apply (Hadd nd uid row eq_refl Hr). by left.
      * rewrite (perform_failure _ now _ s _ Hw) in Ho. done.
      * rewrite (perform_unauthenticated _ now _ s Hw) in Ho. done.
    + apply tags_after_thrown in Ho. simpl in Ho. by rewrite Ho.
  - intros id U t Ht.
    destruct (notes_update db id (update_payload U)) as [[]|e] eqn:Hr.
    + apply (Hupd id U Hr). by left.
    + unfold updateNote, bind. rewrite Hr. done.
  - intros id U Hok Hidx i N N' Hi Hid Hi' t. rewrite (Hupd id U Hok).
    rewrite (updateNote_run _ _ _ _ _ Hok) in Hi'. simpl in Hi'.
    rewrite list_lookup_fmap, Hi in Hi'. simpl in Hi'.
    rewrite bool_decide_eq_true_2 in Hi' by done. injection Hi' as <-. simpl.
    destruct (p_tags U) as [ts|]; simpl; [done|].
    rewrite elem_of_nil. split; [intros [?|[]]; by left|].
    intros [?|Ht]; left; [done|].
    by apply (Hidx N); [apply list_elem_of_lookup; eauto|].
Qed.

Lemma tag_index_additive_witness :
  "tax" ∈ tags (fst (updateNote (Samples.online []) 3000 "n2"
                       {| p_id := None; p_title := None; p_content := None;
                          p_tags := Some ["tax"]; p_isFavorite := None;
                          p_createdAt := None; p_updatedAt := None;
                          p_folderId := None |} Samples.two_notes))
  ↔ "tax" ∈ tags Samples.two_notes ∨ "tax" ∈ ["tax"].
Proof.
  apply (proj1 (proj2 (proj2 (proj2
           (tag_index_additive (Samples.online []) 3000 Samples.two_notes))))
           "n2").
  reflexivity.
Defined.

(** Deleting the only note tagged [work] keeps [work] in the index. *)
Example deleteNote_keeps_last_tag :
  let s' := fst (deleteNote (Samples.online []) "n2" Samples.two_notes) in
  notes s' = [Samples.shopping] ∧ tags s' = ["home"; "work"].
Proof. split; reflexivity. Qed.

(** The initial store is indexed and every action keeps it so. *)
Lemma indexed_initial : indexed initial.
Proof. intros n Hn. by apply elem_of_nil in Hn. Qed.

Lemma indexed_perform (db : Supabase) (now : JS.Date) (m : Mutation)
    (s : NotesState) :
  indexed s → indexed (fst (perform db now m s)).
Proof.
  intros Hidx.
  destruct (remote_write db m) as [[[]|e]|] eqn:Hw;
    [|by rewrite (perform_failure _ _ _ _ _ Hw)
      |by rewrite (perform_unauthenticated _ _ _ _ Hw)].
  destruct m as [nd|id U|id|fd|id U|id]; simpl in Hw |- *.
  - destruct (signed_in db) as [uid|] eqn:Hu; [|done]. simpl in Hw.
    destruct (notes_insert db nd uid) as [row|e] eqn:Hr; [|done].
    rewrite (addNote_run _ _ _ _ _ Hu Hr). simpl.
    intros n [->|Hn]%elem_of_cons t Ht; apply Array_from_Set_elem, elem_of_app.
    + by right.
    + left. by apply (Hidx n).
  - injection Hw as Hr. rewrite (updateNote_run _ _ _ _ _ Hr). simpl.
    intros n' (n & -> & Hn)%list_elem_of_fmap t Ht.
    apply Array_from_Set_elem, elem_of_app.
    case_bool_decide; [|left; by apply (Hidx n)].
    simpl in Ht. destruct (p_tags U) as [ts|]; simpl in *; [by right|].
    left. by apply (Hidx n).
  - injection Hw as Hr. unfold deleteNote, bind. rewrite Hr. simpl.
    intros n Hn. apply (Hidx n).
    apply list_elem_of_In, filter_In in Hn as [Hn _]. by apply list_elem_of_In.
  - unfold addFolder, bind. rewrite current_user_signed_in.
    destruct (signed_in db); [|done]. simpl.
    by destruct (folders_insert db fd _).
  - unfold updateFolder, bind. by destruct (folders_update db id U).
  - unfold deleteFolder, bind. by destruct (folders_delete db id).
Qed.

Lemma indexed_fetchNotes (db : Supabase) (now : JS.Date) (s : NotesState) :
  indexed s → indexed (fst (fetchNotes db now s)).
Proof.
  intros Hidx. unfold fetchNotes, bind, setLoading, set.
  destruct (notes_select db notes_order) as [rows|e]; simpl; [|done].
  intros n Hn t Ht. apply Array_from_Set_elem, flatMap_elem. eauto.
Qed.

Lemma deleteFolder_run (db : Supabase) (id : string) (s : NotesState) :
  folders_delete db id = success tt →
  deleteFolder db id s =
    ({| notes := notes s;
        folders := List.filter
                     (fun folder => negb (bool_decide (folder_id folder = id)))
                     (folders s);
        tags := tags s; isLoading := isLoading s; lastSync := lastSync s |},
     Done tt).
Proof. intros H. unfold deleteFolder, bind. rewrite H. reflexivity. Qed.

Lemma set_null_columns (clock : JS.Date) (id : string) (r : NoteRow) :
  Schema.set_null clock id r
  = (if bool_decide (row_folder_id r = Some id)
     then {| row_id := row_id r; row_title := row_title r;
             row_content := row_content r; row_tags := row_tags r;
             row_is_favorite := row_is_favorite r; row_folder_id := None;
             row_created_at := row_created_at r;
             row_updated_at := clock |}
     else r).
Proof. unfold Schema.set_null. case_bool_decide; done. Qed.

(** C9 fails as stated on the local collection: after a successful
    [deleteFolder("f1")] the note [n1] is still there and its [folderId]
    is still ["f1"], not null. *)
Lemma deleteFolder_leaves_local_reference :
  deleteFolder (Samples.online []) "f1" Samples.two_notes
  = ({| notes := [Samples.shopping; Samples.budget]; folders := [];
        tags := ["home"; "work"]; isLoading := false;
        lastSync := Some 2500 |}, Done tt)
  ∧ note_folderId Samples.shopping = Some "f1"
  ∧ note_folderId Samples.shopping ≠ None.
Proof. split_and!; [reflexivity..|discriminate]. Qed.

(** C9, amended. After [deleteFolder(id)] succeeds the folder is gone from
    the local folder collection and the local note collection is untouched:
    every note is still there, never deleted, and a note that referenced
    the folder still carries the id locally.  The reference is nulled by
    the backend: under [notes_folder_id_fkey ... ON DELETE SET NULL] the
    delete keeps every row of [notes] at its place; a row that did not
    reference the folder is unchanged, and a row that did has [folder_id]
    null and, by the trigger [handle_notes_updated_at], [updated_at] set to
    the clock of the database, every other column being kept.  The local
    notes show both after the next [fetchNotes] of that table: no note is
    missing, none references the folder, and the detached ones carry the
    new [updatedAt]. *)
Theorem deleteFolder_detaches_not_cascades (db : Supabase) (id : string)
    (s : NotesState) :
  folders_delete db id = success tt →
  let s' := fst (deleteFolder db id s) in
  snd (deleteFolder db id s) = Done tt
  ∧ notes s' = notes s
  ∧ (∀ f, f ∈ folders s' ↔ f ∈ folders s ∧ folder_id f ≠ id)
  ∧ ∀ (d : Schema.Database) (clock : JS.Date),
      let d' := Schema.delete_folder clock id d in
      let detached (r : NoteRow) := bool_decide (row_folder_id r = Some id) in
      length (Schema.tbl_notes d') = length (Schema.tbl_notes d)
      ∧ (∀ (i : nat) r, Schema.tbl_notes d !! i = Some r →
           Schema.tbl_notes d' !! i
           = Some (if detached r
                   then {| row_id := row_id r; row_title := row_title r;
                           row_content := row_content r;
                           row_tags := row_tags r;
                           row_is_favorite := row_is_favorite r;
                           row_folder_id := None;
                           row_created_at := row_created_at r;
                           row_updated_at := clock |}
                   else r))
      ∧ (∀ db' now s0,
           notes_select db' notes_order = Schema.select_notes d' notes_order →
           let fetched := notes (fst (fetchNotes db' now s0)) in
           length fetched = length (Schema.tbl_notes d)
           ∧ (∀ n, n ∈ fetched → note_folderId n ≠ Some id)
           ∧ (∀ r, r ∈ Schema.tbl_notes d →
                ∃ n, n ∈ fetched
                  ∧ note_id n = row_id r ∧ note_title n = row_title r
                  ∧ note_content n = default "" (row_content r)
                  ∧ note_tags n = default [] (row_tags r)
                  ∧ note_isFavorite n = default false (row_is_favorite r)
                  ∧ note_createdAt n = row_created_at r
                  ∧ note_folderId n
                    = (if detached r then None else row_folder_id r)
                  ∧ note_updatedAt n
                    = (if detached r then clock else row_updated_at r))).
Proof.
  intros Hok. rewrite (deleteFolder_run _ _ _ Hok). cbv zeta.
  cbn [fst snd notes folders].
  split_and!; [done..| |].
  - intros f. rewrite list_elem_of_In, filter_In, <- list_elem_of_In.
    rewrite negb_true_iff, bool_decide_eq_false. done.
  - intros d clock. cbn [Schema.delete_folder Schema.tbl_notes]. split_and!.
    + by rewrite length_fmap.
    + intros i r Hi. rewrite list_lookup_fmap, Hi. simpl.
      by rewrite set_null_columns.
    + intros db' now s0 Hsel.
      unfold Schema.select_notes, Schema.delete_folder in Hsel.
      cbn [Schema.tbl_notes] in Hsel.
      rewrite (fetchNotes_run _ _ _ _ Hsel).
      cbn [fst notes]. split_and!.
      * rewrite length_fmap.
        by rewrite (Permutation_length (order_by_Permutation _ _ _)),
          length_fmap.
      * intros n (r' & -> & Hr')%list_elem_of_fmap.
        apply order_by_elem in Hr'.
        apply list_elem_of_fmap in Hr' as (r & -> & Hr).
        rewrite set_null_columns. simpl.
        case_bool_decide; simpl; congruence.
      * intros r Hr. exists (note_of_row (Schema.set_null clock id r)). split.
        { apply list_elem_of_fmap_2, order_by_elem.
          by apply list_elem_of_fmap_2. }
        rewrite set_null_columns.
        case_bool_decide; simpl; split_and!; try done;
          by destruct (row_content r) as [[|]|].
Qed.

Lemma deleteFolder_detaches_not_cascades_witness :
  notes (fst (deleteFolder (Samples.online []) "f1" Samples.two_notes))
  = notes Samples.two_notes.
Proof.
  apply (deleteFolder_detaches_not_cascades (Samples.online []) "f1"
           Samples.two_notes).
  reflexivity.
Defined.

(** The rows of [Samples.two_notes] after [f1] was deleted at database
    time 5000: [n1] is detached and stamped 5000, [n2] is as it was. *)
Example delete_folder_stamps_detached_row :
  Schema.tbl_notes
    (Schema.delete_folder 5000 "f1"
       {| Schema.tbl_notes := [Samples.shopping_row; Samples.budget_row];
          Schema.tbl_folders := [Samples.groceries_row] |})
  = [ {| row_id := "n1"; row_title := "Shopping"; row_content := None;
         row_tags := Some ["home"]; row_is_favorite := None;
         row_folder_id := None; row_created_at := 1000;
         row_updated_at := 5000 |};
      Samples.budget_row ].
Proof. reflexivity. Qed.

End StoreClaims.

(** ** Strings *)

Section Strings.
Import JS.

Lemma startsWith_spec (q s : string) :
  startsWith s q = true ↔ ∃ r, s = q +:+ r.
Proof.
  revert s. induction q as [|d q IH]; intros s; simpl.
  - destruct s; simpl; split; eauto.
  - destruct s as [|c s]; simpl.
    + split; [done|]. intros [r [=]].
    + rewrite andb_true_iff, bool_decide_eq_true, IH. split.
      * intros [-> [r ->]]. by exists r.
      * intros [r [= -> ->]]. eauto.
Qed.

Lemma includes_spec (s q : string) :
  includes s q = true ↔ SpecWords.substring_of q s.
Proof.
  unfold SpecWords.substring_of.
  induction s as [|c s IH].
  - change (includes EmptyString q) with (startsWith EmptyString q || false).
    rewrite orb_true_iff, startsWith_spec. split.
    + intros [[r Hr]|[=]]. exists EmptyString, r. done.
    + intros (p & r & Hs). left. destruct p; [|done]. by exists r.
  - change (includes (String c s) q)
      with (startsWith (String c s) q || includes s q).
    rewrite orb_true_iff, IH, startsWith_spec. split.
    + intros [[r Hr]|(p & r & ->)].
      * by exists EmptyString, r.
      * by exists (String c p), r.
    + intros ([|c' p] & r & Hs); simpl in Hs.
      * left. by exists r.
      * right. injection Hs as -> ->. by exists p, r.
Qed.

Lemma includes_ci (text query : string) :
  includes (toLowerCase text) (toLowerCase query) = true
  ↔ SpecWords.ci_substring query text.
Proof. apply includes_spec. Qed.
End Strings.


(** ** The list view *)

Section ListView.
Import JS NotesList.
Variable localeCompare : string → string → Z.

Let byFavorite := compareNotes localeCompare favorite.
Let byDate := compareNotes localeCompare date.

Lemma byDate_eq (a b : Note) : byDate a b = note_updatedAt b - note_updatedAt a.
Proof. reflexivity. Qed.

Lemma byFavorite_same_flag (a b : Note) :
  note_isFavorite a = note_isFavorite b → byFavorite a b = byDate a b.
Proof.
  unfold byFavorite, byDate, compareNotes. simpl.
  intros ->. by destruct (note_isFavorite b).
Qed.

Lemma insert_sorted_ext {A} (c1 c2 : A → A → Z) (x : A) (l : list A) :
  Forall (fun y => c1 x y = c2 x y) l →
  insert_sorted c1 x l = insert_sorted c2 x l.
Proof.
  induction 1 as [|y l Hy _ IH]; simpl; [done|]. by rewrite Hy, IH.
Qed.

Lemma insert_favorite (x : Note) (favs rest : list Note) :
  note_isFavorite x = true →
  Forall (fun y => note_isFavorite y = true) favs →
  Forall (fun y => note_isFavorite y = false) rest →
  insert_sorted byFavorite x (favs ++ rest)
  = insert_sorted byDate x favs ++ rest.
Proof.
  intros Hx Hfavs Hrest. induction Hfavs as [|y favs Hy _ IH]; simpl.
  - destruct Hrest as [|y rest Hy _]; simpl; [done|].
    unfold byFavorite at 1, compareNotes. simpl. by rewrite Hx, Hy.
  - rewrite byFavorite_same_flag by congruence.
    destruct (byDate x y <=? 0); [done|]. by rewrite IH.
Qed.

Lemma insert_other (x : Note) (favs rest : list Note) :
  note_isFavorite x = false →
  Forall (fun y => note_isFavorite y = true) favs →
  Forall (fun y => note_isFavorite y = false) rest →
  insert_sorted byFavorite x (favs ++ rest)
  = favs ++ insert_sorted byDate x rest.
Proof.
  intros Hx Hfavs Hrest. induction Hfavs as [|y favs Hy _ IH]; simpl.
  - apply insert_sorted_ext. eapply Forall_impl; [exact Hrest|].
    intros y Hy. apply byFavorite_same_flag. congruence.
  - unfold byFavorite at 1, compareNotes. simpl. rewrite Hx, Hy. simpl.
    by rewrite IH.
Qed.

Lemma sort_keeps {A} (c : A → A → Z) (P : A → Prop) (l : list A) :
  Forall P l → Forall P (sort c l).
Proof. rewrite !Forall_forall. intros H x Hx. by apply H, (sort_elem c). Qed.

Lemma Forall_filter_flag (b : bool) (l : list Note) :
  Forall (fun y => note_isFavorite y = b)
    (List.filter (fun n => bool_decide (note_isFavorite n = b)) l).
Proof.
  apply Forall_forall. intros x Hx.
  apply list_elem_of_In, filter_In in Hx as [_ Hx].
  by apply bool_decide_eq_true in Hx.
Qed.

(** Sorting by [favorite] is: the favorites sorted by date, then the
    others sorted by date. *)
Lemma sort_byFavorite (l : list Note) :
  sort byFavorite l
  = sort byDate (List.filter (fun n => bool_decide (note_isFavorite n = true)) l)
    ++ sort byDate (List.filter (fun n => bool_decide (note_isFavorite n = false)) l).
Proof.
  induction l as [|x l IH]; simpl; [done|]. rewrite IH.
  destruct (note_isFavorite x) eqn:Hx; simpl.
  - apply insert_favorite; [done|apply sort_keeps, Forall_filter_flag..].
  - apply insert_other; [done|apply sort_keeps, Forall_filter_flag..].
Qed.

(** C4, amended. Sorting by the [favorite] key puts every favorite note
    before every other note; inside each of the two groups the notes come
    by [updatedAt] descending, the date comparator being the tie-break;
    input order decides only among notes of one group with equal
    [updatedAt].  So [A(fav=false), B(fav=true), C(fav=false)] comes out
    as [B, A, C] when [C] was not updated after [A]. *)
Theorem favorite_sort_then_date (notes : list Note) (searchQuery : string)
    (selectedTag : option string) :
  let shown := List.filter
    (fun note => matchesSearch searchQuery note && matchesTag selectedTag note)
    notes in
  filteredNotes localeCompare notes searchQuery selectedTag favorite
  = sort (compareNotes localeCompare date)
      (List.filter (fun n => bool_decide (note_isFavorite n = true)) shown)
    ++ sort (compareNotes localeCompare date)
      (List.filter (fun n => bool_decide (note_isFavorite n = false)) shown)
  ∧ (∀ g : list Note,
       sort (compareNotes localeCompare date) g ≡ₚ g
       ∧ Sorted (fun a b => note_updatedAt b ≤ note_updatedAt a)
           (sort (compareNotes localeCompare date) g)
       ∧ ∀ t, List.filter (fun n => bool_decide (note_updatedAt n = t))
                (sort (compareNotes localeCompare date) g)
              = List.filter (fun n => bool_decide (note_updatedAt n = t)) g)
  ∧ (∀ a b c, note_isFavorite a = false → note_isFavorite b = true →
       note_isFavorite c = false → note_updatedAt c ≤ note_updatedAt a →
       sort (compareNotes localeCompare favorite) [a; b; c] = [b; a; c]).
Proof.
  split_and!.
  - apply sort_byFavorite.
  - intros g. split_and!.
    + apply sort_Permutation.
    + eapply Sorted_weaken; [|apply sort_Sorted].
      * intros a b. simpl. fold byDate. rewrite byDate_eq. lia.
      * intros x y. fold byDate. rewrite !byDate_eq. lia.
    + intros t. apply sort_stable. intros x y Hx.
      fold byDate. rewrite byDate_eq. apply bool_decide_eq_true in Hx.
      intros Hlt. apply bool_decide_eq_false. lia.
  - intros a b c Ha Hb Hc Hle.
    assert (Hbc : compareNotes localeCompare favorite b c = -1).
    { unfold compareNotes. simpl. by rewrite Hb, Hc. }
    assert (Hab : compareNotes localeCompare favorite a b = 1).
    { unfold compareNotes. simpl. by rewrite Ha, Hb. }
    assert (Hac : compareNotes localeCompare favorite a c
                  = note_updatedAt c - note_updatedAt a).
    { unfold compareNotes. simpl. by rewrite Ha, Hc. }
    cbn [sort insert_sorted]. rewrite Hbc. cbn [Z.leb Z.compare insert_sorted].
    rewrite Hab. cbn [Z.leb Z.compare insert_sorted]. rewrite Hac.
    destruct (Z.leb_spec (note_updatedAt c - note_updatedAt a) 0); [done|lia].
Qed.

(** C7, amended. In the list view a note is shown exactly when the query
    is a case-insensitive substring of its title or of its content, and
    of nothing else, and the note carries the selected tag if one is
    selected; the two filters intersect.  The store's own [searchNotes]
    matches more: also a note one of whose tags has the query as a
    case-insensitive substring. *)
Theorem search_title_or_content :
  (∀ notes searchQuery selectedTag sortBy n,
     n ∈ filteredNotes localeCompare notes searchQuery selectedTag sortBy
     ↔ n ∈ notes
       ∧ (SpecWords.ci_substring searchQuery (note_title n)
          ∨ SpecWords.ci_substring searchQuery (note_content n))
       ∧ SpecWords.tag_selected selectedTag n)
  ∧ (∀ s query n,
       n ∈ Store.searchNotes query s
       ↔ n ∈ Store.notes s
         ∧ (SpecWords.ci_substring query (note_title n)
            ∨ SpecWords.ci_substring query (note_content n)
            ∨ ∃ tag, tag ∈ note_tags n ∧ SpecWords.ci_substring query tag)).
Proof.
  split.
  - intros notes q sel sortBy n. unfold filteredNotes.
    rewrite sort_elem, list_elem_of_In, filter_In, <- list_elem_of_In.
    rewrite andb_true_iff. unfold matchesSearch.
    rewrite orb_true_iff, !includes_ci.
    assert (matchesTag sel n = true ↔ SpecWords.tag_selected sel n) as ->; [|done].
    destruct sel as [t|]; simpl; [|done].
    rewrite orb_true_iff, negb_true_iff. unfold arr_includes.
    rewrite bool_decide_eq_true. destruct t as [|c t]; simpl; [tauto|].
    split; (intros [?|?]; [discriminate|by right]).
  - intros s q n. unfold Store.searchNotes, Store.search_hit.
    rewrite list_elem_of_In, filter_In, <- list_elem_of_In.
    rewrite !orb_true_iff, !includes_ci. unfold some. rewrite existsb_exists.
    setoid_rewrite includes_ci. setoid_rewrite <- list_elem_of_In. tauto.
Qed.
End ListView.

(** C4 fails as stated: with [C] updated after [A], sorting
    [A(fav=false), B(fav=true), C(fav=false)] by [favorite] gives
    [B, C, A]; the input order of [A] and [C] is not kept. *)
Lemma favorite_sort_reorders :
  NotesList.filteredNotes (fun _ _ => 0) [Trio.A; Trio.B; Trio.C] "" None
    NotesList.favorite = [Trio.B; Trio.C; Trio.A]
  ∧ [Trio.B; Trio.C; Trio.A] ≠ [Trio.B; Trio.A; Trio.C].
Proof. split; [reflexivity|discriminate]. Qed.

(** With equal [updatedAt] the input order of [A] and [C] is kept. *)
Example favorite_sort_ties :
  NotesList.filteredNotes (fun _ _ => 0) [Trio.A; Trio.B; Trio.C'] "" None
    NotesList.favorite = [Trio.B; Trio.A; Trio.C'].
Proof. reflexivity. Qed.

(** C7 fails as stated for the store's [searchNotes]: the query [home]
    is no substring of the title or of the content of either note, and
    both notes match, through their tags. *)
Lemma searchNotes_matches_tags :
  Store.searchNotes "home" Samples.two_notes = [Samples.shopping; Samples.budget]
  ∧ ¬ SpecWords.ci_substring "home" (note_title Samples.shopping)
  ∧ ¬ SpecWords.ci_substring "home" (note_content Samples.shopping).
Proof.
  split_and!; [reflexivity|..]; rewrite <- includes_ci; by vm_compute.
Qed.

(** The example of the specification: searching [bud] returns only the
    second note, so does filtering by tag [work], and the two filters
    intersect. *)
Example search_and_tag_example :
  let view := NotesList.filteredNotes (fun _ _ => 0)
                [Samples.shopping; Samples.budget] in
  view "bud" None NotesList.date = [Samples.budget]
  ∧ view "" (Some "work") NotesList.date = [Samples.budget]
  ∧ view "" (Some "home") NotesList.date = [Samples.shopping; Samples.budget]
  ∧ view "bud" (Some "home") NotesList.date = [Samples.budget]
  ∧ view "shop" (Some "work") NotesList.date = []
  ∧ Store.searchNotes "bud" Samples.two_notes = [Samples.budget].
Proof. split_and!; reflexivity. Qed.

(** ** The editor *)

Section EditorFacts.
Import NoteEditor.

Ltac effects_cases :=
  unfold runEffects, autosave_effect, clear_ref;
  repeat match goal with
    | |- context [changed ?a ?b] => destruct (changed a b)
    | |- context [bool_decide (is_Some ?a)] => destruct (bool_decide (is_Some a))
    | |- context [hasUnsavedChanges ?f && negb (saving ?f)] =>
        destruct (hasUnsavedChanges f && negb (saving f))
    | |- context [autoSaveTimeoutRef ?w] => destruct (autoSaveTimeoutRef w)
    end; simpl.

Lemma runEffects_frame (r : Render) (w : World) :
  store (runEffects r w) = store w
  ∧ noteId (runEffects r w) = noteId w
  ∧ inflight (runEffects r w) = inflight w
  ∧ toasts (runEffects r w) = toasts w
  ∧ saving (st (runEffects r w)) = saving (st w)
  ∧ lastSaved (st (runEffects r w)) = lastSaved (st w)
  ∧ newTag (st (runEffects r w)) = newTag (st w).
Proof.
  effects_cases; unfold sync_fields; destruct (currentNote r); done.
Qed.

Lemma runEffects_deps (r : Render) (w : World) :
  deps1 (runEffects r w) = Some (sync_deps r)
  ∧ deps2 (runEffects r w) = Some (mark_deps r)
  ∧ deps3 (runEffects r w) = Some (autosave_deps r).
Proof. done. Qed.

Lemma changed_same {D} `{EqDecision D} (d : D) : changed (Some d) d = false.
Proof. unfold changed. by rewrite bool_decide_eq_true_2. Qed.

Lemma runEffects_idle (r : Render) (w : World) :
  deps1 w = Some (sync_deps r) → deps2 w = Some (mark_deps r) →
  deps3 w = Some (autosave_deps r) → runEffects r w = w.
Proof.
  intros H1 H2 H3. unfold runEffects. rewrite H1, H2, H3, !changed_same.
  simpl. destruct w; simpl in *. by subst.
Qed.

Lemma render_eq (w w' : World) :
  st w' = st w → store w' = store w → noteId w' = noteId w →
  render w' = render w.
Proof. unfold render. by intros -> -> ->. Qed.

(** A round that changes no state ends the rendering. *)
Lemma runEffects_quiet (w : World) :
  st (runEffects (render w) w) = st w → stable (runEffects (render w) w).
Proof.
  intros Hst. unfold stable.
  destruct (runEffects_frame (render w) w) as (Hs & Hn & _).
  rewrite (render_eq _ _ Hst Hs Hn). by apply runEffects_idle.
Qed.

(** Once the first effect is up to date, a round changes nothing but
    [hasUnsavedChanges]. *)
Lemma runEffects_text (r : Render) (w : World) :
  deps1 w = Some (sync_deps r) →
  title (st (runEffects r w)) = title (st w)
  ∧ content (st (runEffects r w)) = content (st w)
  ∧ tags (st (runEffects r w)) = tags (st w)
  ∧ isFavorite (st (runEffects r w)) = isFavorite (st w).
Proof.
  intros H1. unfold runEffects. rewrite H1, changed_same.
  effects_cases; done.
Qed.

(** Once the first two effects are up to date, a round changes no state. *)
Lemma runEffects_still (r : Render) (w : World) :
  deps1 w = Some (sync_deps r) → deps2 w = Some (mark_deps r) →
  st (runEffects r w) = st w.
Proof.
  intros H1 H2. unfold runEffects. rewrite H1, H2, !changed_same.
  effects_cases; done.
Qed.

Lemma currentNote_frame (w w' : World) :
  store w' = store w → noteId w' = noteId w →
  currentNote (render w') = currentNote (render w).
Proof. unfold render. simpl. by intros -> ->. Qed.

Lemma runEffects_sync_deps (w : World) :
  deps1 (runEffects (render w) w)
  = Some (sync_deps (render (runEffects (render w) w))).
Proof.
  destruct (runEffects_frame (render w) w) as (Hs & Hn & _).
  unfold sync_deps. by rewrite (currentNote_frame _ _ Hs Hn).
Qed.

Lemma next_round_still (w : World) :
  deps1 w = Some (sync_deps (render w)) →
  st (runEffects (render (runEffects (render w) w)) (runEffects (render w) w))
  = st (runEffects (render w) w).
Proof.
  intros Hd1.
  destruct (runEffects_frame (render w) w) as (Hs & Hn & _).
  destruct (runEffects_text (render w) w Hd1) as (Ht & Hc & Hg & Hf).
  apply runEffects_still; [apply runEffects_sync_deps|].
  unfold mark_deps. rewrite (currentNote_frame _ _ Hs Hn).
  change (seen (render (runEffects (render w) w)))
    with (st (runEffects (render w) w)).
  rewrite Ht, Hc, Hg, Hf. done.
Qed.

Lemma third_round_still (w : World) :
  st (runEffects
        (render (runEffects (render (runEffects (render w) w))
                   (runEffects (render w) w)))
        (runEffects (render (runEffects (render w) w))
           (runEffects (render w) w)))
  = st (runEffects (render (runEffects (render w) w))
          (runEffects (render w) w)).
Proof. apply next_round_still, runEffects_sync_deps. Qed.

(** Rendering settles: after [commit] no effect is left to run. *)
Lemma rerender_settles (w : World) : stable (commit w).
Proof.
  unfold commit. cbn [rerender].
  case_bool_decide as H1; [by apply runEffects_quiet|].
  case_bool_decide as H2; [by apply runEffects_quiet|].
  rewrite bool_decide_eq_true_2 by apply third_round_still.
  apply runEffects_quiet, third_round_still.
Qed.

Lemma commit_stable (w : World) : stable w → commit w = w.
Proof.
  unfold stable, commit. cbn [rerender]. intros ->.
  by rewrite bool_decide_eq_true_2.
Qed.
End EditorFacts.

Section EditorInvariant.
Import NoteEditor.

Lemma filter_none {A} (f : A → bool) (l : list A) :
  Forall (fun x => f x = false) l → List.filter f l = [].
Proof. induction 1 as [|x l Hx _ IH]; simpl; [done|]. by rewrite Hx. Qed.

Lemma clear_ref_timers (w : World) : armed w → timers (clear_ref w) = [].
Proof.
  intros Ha. unfold clear_ref.
  destruct (autoSaveTimeoutRef w) as [id|] eqn:Href; simpl.
  - apply filter_none, Forall_forall. intros t Ht.
    destruct (Ha t Ht) as (Hid & _). rewrite Href in Hid.
    injection Hid as ->. by rewrite bool_decide_eq_true_2.
  - destruct (timers w) as [|t ts] eqn:Hts; [done|].
    destruct (Ha t) as (Hid & _); [rewrite Hts; left|]. by rewrite Href in Hid.
Qed.

Lemma armed_unarmed (w : World) : armed w → deps3 w = None → timers w = [].
Proof.
  intros Ha Hd. destruct (timers w) as [|t ts] eqn:Hts; [done|].
  destruct (Ha t) as (_ & _ & Hd3 & _); [rewrite Hts; left|]. congruence.
Qed.

Lemma armed_nil (w : World) : timers w = [] → armed w.
Proof. intros Ht t. rewrite Ht. by intros ?%elem_of_nil. Qed.

(** The effects keep the pending timeouts in order. *)
Lemma runEffects_armed (r : Render) (w : World) :
  armed w → armed (runEffects r w).
Proof.
  intros Ha. unfold runEffects.
  destruct (changed (deps3 w) (autosave_deps r)) eqn:Hc3.
  - set (w1 := if true && bool_decide (is_Some (deps3 w)) then clear_ref w else w).
    assert (Ht1 : timers w1 = []).
    { unfold w1. simpl. case_bool_decide as Hsome.
      - by apply clear_ref_timers.
      - apply armed_unarmed; [done|]. destruct (deps3 w); [|done].
        exfalso. apply Hsome. eauto. }
    set (w3 := if changed (deps2 w) (mark_deps r) then _ else _).
    assert (Ht3 : timers w3 = []).
    { unfold w3. by repeat (destruct (changed _ _); simpl). }
    unfold autosave_effect.
    destruct (hasUnsavedChanges (seen r) && negb (saving (seen r))) eqn:Hgo.
    + apply andb_true_iff in Hgo as [Hu Hs%negb_true_iff].
      assert (Htc : timers (clear_ref w3) = []).
      { unfold clear_ref. destruct (autoSaveTimeoutRef w3); [|done].
        simpl. by rewrite Ht3. }
      intros t. simpl. rewrite Htc. simpl.
      intros ->%list_elem_of_singleton. simpl.
      by split_and!.
    + apply armed_nil. simpl. done.
  - unfold changed in Hc3. apply negb_false_iff, bool_decide_eq_true in Hc3.
    simpl. intros t Ht.
    assert (Ht' : t ∈ timers w).
    { revert Ht. by repeat (destruct (changed _ _); simpl). }
    destruct (Ha t Ht') as (Hid & Hdelay & Hd3 & Hu & Hs).
    split_and!; try done.
    + revert Hid. by repeat (destruct (changed _ _); simpl).
    + simpl. congruence.
Qed.

Lemma runEffects_one_flight (r : Render) (w : World) :
  one_flight w → one_flight (runEffects r w).
Proof.
  unfold one_flight.
  destruct (runEffects_frame r w) as (_ & _ & -> & _ & -> & _). done.
Qed.

Lemma rerender_keeps (P : World → Prop) (fuel : nat) (w : World) :
  (∀ r w, P w → P (runEffects r w)) → P w → P (rerender fuel w).
Proof.
  intros HP. revert w. induction fuel as [|fuel IH]; intros w Hw; simpl; [done|].
  case_bool_decide; [by apply HP|]. by apply IH, HP.
Qed.

Lemma commit_invariant (w : World) :
  armed w → one_flight w → invariant (commit w).
Proof.
  intros Ha Hf. split_and!.
  - unfold commit. by apply rerender_keeps; [apply runEffects_armed|].
  - unfold commit. by apply rerender_keeps; [apply runEffects_one_flight|].
  - apply rerender_settles.
Qed.

Lemma rerender_frame (fuel : nat) (w : World) :
  store (rerender fuel w) = store w
  ∧ noteId (rerender fuel w) = noteId w
  ∧ inflight (rerender fuel w) = inflight w
  ∧ toasts (rerender fuel w) = toasts w
  ∧ saving (st (rerender fuel w)) = saving (st w).
Proof.
  revert w. induction fuel as [|fuel IH]; intros w; simpl; [done|].
  destruct (runEffects_frame (render w) w) as (Hs & Hn & Hi & Ht & Hv & _).
  case_bool_decide; [done|].
  destruct (IH (runEffects (render w) w)) as (-> & -> & -> & -> & ->). done.
Qed.
End EditorInvariant.

Section EditorSteps.
Import NoteEditor.

Lemma stable_deps (w : World) :
  stable w → deps3 w = Some (autosave_deps (render w)).
Proof.
  unfold stable. intros Hs.
  destruct (runEffects_deps (render w) w) as (_ & _ & Hd). by rewrite Hs in Hd.
Qed.

(** Between two events a pending timeout was armed by the current
    render's title and content, and no save is in flight. *)
Lemma pending_timer_current (w : World) (t : Timer) :
  invariant w → t ∈ timers w →
  saving (st w) = false
  ∧ title (seen (timer_closure t)) = title (st w)
  ∧ content (seen (timer_closure t)) = content (st w).
Proof.
  intros (Ha & _ & Hs) Ht.
  destruct (Ha t Ht) as (_ & _ & Hd & _ & Hsv).
  rewrite (stable_deps w Hs) in Hd. unfold autosave_deps in Hd. simpl in Hd.
  injection Hd as Hu Hv Htt Hc. split_and!; congruence.
Qed.

Lemma armed_setState (g : Fields → Fields) (w : World) :
  armed w → armed (setState g w).
Proof. done. Qed.

Lemma one_flight_setState (g : Fields → Fields) (w : World) :
  saving (g (st w)) = saving (st w) → one_flight w → one_flight (setState g w).
Proof. unfold one_flight. simpl. by intros ->. Qed.

Lemma handleSave_keeps (r : Render) (b : bool) (w : World) :
  armed w → one_flight w →
  (saving (seen r) = false → saving (st w) = false) →
  armed (handleSave r b w) ∧ one_flight (handleSave r b w).
Proof.
  intros Ha Hf Hsv. unfold handleSave.
  destruct (blank (title (seen r)) && blank (content (seen r))); [done|].
  destruct (saving (seen r)); [done|]. split; [done|].
  unfold one_flight in *. simpl. rewrite Hsv in Hf by done.
  rewrite length_app, Hf. done.
Qed.

Lemma armed_clearTimeout (id : positive) (w : World) :
  armed w → armed (clearTimeout id w).
Proof.
  intros Ha t Ht. simpl in *. apply Ha.
  apply list_elem_of_In, filter_In in Ht as [Ht _]. by apply list_elem_of_In.
Qed.

Lemma find_timer (id : positive) (w : World) (t : Timer) :
  List.find (fun t => bool_decide (timer_id t = id)) (timers w) = Some t →
  t ∈ timers w.
Proof. intros [Ht _]%find_some. by apply list_elem_of_In. Qed.

Lemma resume_keeps (p : Pending) (db : Remote.Supabase) (applied saved : JS.Date)
    (w : World) :
  armed w →
  armed (resume p db applied saved [] w)
  ∧ one_flight (resume p db applied saved [] w).
Proof.
  intros Ha. unfold resume.
  destruct (Mutations.perform db applied (call p) (store w)) as [store' [[]|e]];
    [destruct (showToast p)|]; done.
Qed.

(** Every handler keeps the timeouts in order and one save in flight. *)
Lemma handle_keeps (e : Event) (w : World) :
  invariant w → armed (handle e w) ∧ one_flight (handle e w).
Proof.
  intros Hinv. pose proof Hinv as (Ha & Hf & Hs).
  destruct e; simpl; try done.
  - unfold handleAddTag. by destruct (_ && _).
  - by apply handleSave_keeps.
  - unfold fire.
    destruct (List.find _ (timers w)) as [t|] eqn:Hfind; [|done].
    apply find_timer in Hfind.
    destruct (pending_timer_current w t Hinv Hfind) as (Hsv & _).
    unfold autosave_callback.
    destruct (_ || _); [|by split; [apply armed_clearTimeout|]].
    apply handleSave_keeps; [by apply armed_clearTimeout|done|done].
  - unfold settle. destruct (inflight w) as [|p rest] eqn:Hin; [done|].
    assert (rest = []) as ->.
    { unfold one_flight in Hf. rewrite Hin in Hf. simpl in Hf.
      destruct (saving (st w)); [|done]. by destruct rest. }
    by apply resume_keeps.
Qed.

Lemma reachable_invariant (w : World) : reachable w → invariant w.
Proof.
  induction 1 as [id s|e w _ IH].
  - apply commit_invariant; [by apply armed_nil|done].
  - destruct (handle_keeps e w IH). by apply commit_invariant.
Qed.

Lemma step_inflight (e : Event) (w : World) :
  inflight (step e w) = inflight (handle e w)
  ∧ store (step e w) = store (handle e w)
  ∧ toasts (step e w) = toasts (handle e w).
Proof.
  unfold step, commit.
  destruct (rerender_frame 3 (handle e w)) as (-> & _ & -> & -> & _). done.
Qed.
End EditorSteps.

Section EditorClaims.
Import NoteEditor.

Lemma reachable_run (es : list Event) (w : World) :
  reachable w → reachable (run es w).
Proof.
  revert w. induction es as [|e es IH]; intros w Hw; simpl; [done|].
  apply IH. by constructor.
Qed.

Lemma stable_idle (w w' : World) :
  stable w → render w' = render w →
  deps1 w' = deps1 w → deps2 w' = deps2 w → deps3 w' = deps3 w →
  commit w' = w'.
Proof.
  unfold stable. intros Hs Hr H1 H2 H3. apply commit_stable. unfold stable.
  destruct (runEffects_deps (render w) w) as (Hd1 & Hd2 & Hd3).
  rewrite Hs in Hd1, Hd2, Hd3. rewrite Hr. apply runEffects_idle; congruence.
Qed.

Lemma saving_blocks_handleSave (r : Render) (b : bool) (w : World) :
  saving (seen r) = true → handleSave r b w = w.
Proof.
  intros Hs. unfold handleSave. rewrite Hs. by destruct (_ && _).
Qed.

(** C8. In every world the editor can reach, at most one save is in flight,
    and one is in flight exactly when [saving] is set.  While [saving] is set
    no autosave timeout is pending, a click on Save and the expiry of any
    timeout leave the world as it is, and no event makes the number of
    awaited writes grow: neither an explicit save during an autosave nor an
    autosave during an explicit save issues a second write. *)
Theorem save_never_reentrant (w : World) :
  reachable w →
  (length (inflight w) ≤ 1)%nat
  ∧ (saving (st w) = true ↔ length (inflight w) = 1%nat)
  ∧ (saving (st w) = true →
       timers w = []
       ∧ step ClickSave w = w
       ∧ (∀ id, step (TimerFires id) w = w)
       ∧ ∀ e, (length (inflight (step e w)) ≤ length (inflight w))%nat).
Proof.
  intros Hr. pose proof (reachable_invariant w Hr) as Hinv.
  pose proof Hinv as (Ha & Hf & Hs). unfold one_flight in Hf.
  split_and!.
  - rewrite Hf. destruct (saving (st w)); lia.
  - rewrite Hf. destruct (saving (st w)); split; done.
  - intros Hsv.
    assert (Hno : timers w = []).
    { destruct (timers w) as [|t ts] eqn:Hts; [done|].
      destruct (pending_timer_current w t Hinv) as (Hsv' & _);
        [rewrite Hts; left|]. congruence. }
    split_and!; [done| | |].
    + unfold step. simpl. rewrite saving_blocks_handleSave by done.
      by apply commit_stable.
    + intros id. unfold step. simpl. unfold fire. rewrite Hno. simpl.
      by apply commit_stable.
    + intros e.
      pose proof (reachable_invariant _ (reachable_step e w Hr)) as (_ & Hf' & _).
      unfold one_flight in Hf'. rewrite Hf', Hf, Hsv.
      destruct (saving (st (step e w))); lia.
Qed.

Lemma save_never_reentrant_witness :
  (length (inflight (run [ChangeTitle "Errands"; ClickSave]
                       (mount (Some "n1") Samples.two_notes))) ≤ 1)%nat.
Proof.
  assert (Hr : reachable (run [ChangeTitle "Errands"; ClickSave]
                            (mount (Some "n1") Samples.two_notes))).
  { apply reachable_run, reachable_mount. }
  exact (proj1 (save_never_reentrant _ Hr)).
Defined.

(** An autosave starts; a click on Save while it is in flight, and a second
    click, leave the one update of note [n1] in flight. *)
Example explicit_save_during_autosave :
  let w := run [ChangeTitle "Errands"; TimerFires 2]
             (mount (Some "n1") Samples.two_notes) in
  saving (st w) = true
  ∧ length (inflight w) = 1%nat
  ∧ inflight (run [ClickSave; ClickSave] w) = inflight w.
Proof. vm_compute. split_and!; reflexivity. Qed.

(** C10. In every world the editor can reach in which the title and the
    content are both empty or white space, a click on Save changes nothing
    at all, and the expiry of a timeout changes neither the fields of the
    editor nor the store, issues no write and shows no toast, whatever the
    tags and the favorite flag are. *)
Theorem blank_note_never_saved (w : World) :
  reachable w →
  blank (title (st w)) = true → blank (content (st w)) = true →
  step ClickSave w = w
  ∧ ∀ id, st (step (TimerFires id) w) = st w
          ∧ store (step (TimerFires id) w) = store w
          ∧ inflight (step (TimerFires id) w) = inflight w
          ∧ toasts (step (TimerFires id) w) = toasts w.
Proof.
  intros Hr Ht Hc. pose proof (reachable_invariant w Hr) as Hinv.
  pose proof Hinv as (Ha & Hf & Hs). split.
  - unfold step. simpl. unfold handleSave. simpl. rewrite Ht, Hc. simpl.
    by apply commit_stable.
  - intros id. unfold step. simpl. unfold fire.
    destruct (List.find _ (timers w)) as [t|] eqn:Hfind.
    + apply find_timer in Hfind.
      destruct (pending_timer_current w t Hinv Hfind) as (_ & Htt & Hcc).
      unfold autosave_callback. rewrite Htt, Hcc.
      unfold blank in Ht, Hc. apply negb_true_iff in Ht, Hc.
      rewrite Ht, Hc. simpl.
      by rewrite (stable_idle w (clearTimeout id w) Hs).
    + by rewrite commit_stable.
Qed.

Lemma blank_note_never_saved_witness :
  step ClickSave (run [ChangeTitle "  "; ToggleFavorite]
                    (mount (Some "n1") Samples.two_notes))
  = run [ChangeTitle "  "; ToggleFavorite] (mount (Some "n1") Samples.two_notes).
Proof.
  assert (Hr : reachable (run [ChangeTitle "  "; ToggleFavorite]
                            (mount (Some "n1") Samples.two_notes))).
  { apply reachable_run, reachable_mount. }
  assert (Ht : blank (title (st (run [ChangeTitle "  "; ToggleFavorite]
                                   (mount (Some "n1") Samples.two_notes)))) = true).
  { vm_compute. reflexivity. }
  assert (Hc : blank (content (st (run [ChangeTitle "  "; ToggleFavorite]
                                     (mount (Some "n1") Samples.two_notes)))) = true).
  { vm_compute. reflexivity. }
  exact (proj1 (blank_note_never_saved _ Hr Ht Hc)).
Defined.

(** A note that is open with its title erased and its content empty has an
    autosave timeout pending; its expiry saves nothing. *)
Example blank_autosave_expires :
  let w := run [ChangeTitle ""; ToggleFavorite]
             (mount (Some "n1") Samples.two_notes) in
  hasUnsavedChanges (st w) = true
  ∧ timer_id <$> timers w = [2%positive]
  ∧ inflight (step (TimerFires 2) w) = []
  ∧ store (step (TimerFires 2) w) = Samples.two_notes.
Proof. vm_compute. split_and!; reflexivity. Qed.

(** C5, on the code. Every autosave timeout of the editor is armed with the
    fixed delay of 30000 milliseconds; the editor reads no profile, so the
    delay differs from the stored [auto_save_interval] as soon as that is
    not 30 seconds. *)
Theorem autosave_delay_fixed (w : World) (t : Timer)
    (p : SettingsDialog.UserProfile) (f : SettingsDialog.Form) :
  reachable w → t ∈ timers w →
  timer_delay t = 30000
  ∧ (SettingsDialog.auto_save_interval (SettingsDialog.updateProfile p f) ≠ 30 →
     timer_delay t
     ≠ 1000 * SettingsDialog.auto_save_interval (SettingsDialog.updateProfile p f)).
Proof.
  intros Hr Ht. destruct (reachable_invariant w Hr) as (Ha & _).
  destruct (Ha t Ht) as (_ & -> & _). unfold autoSaveDelay. split; [done|lia].
Qed.

Lemma autosave_delay_fixed_witness :
  timer_delay {| timer_id := 1; timer_delay := 30000;
                 timer_closure := render (step (ChangeTitle "x")
                                            (mount None Store.initial)) |}
  = 30000
  ∧ (SettingsDialog.auto_save_interval
       (SettingsDialog.updateProfile Profiles.stored Profiles.sixty) ≠ 30 →
     timer_delay {| timer_id := 1; timer_delay := 30000;
                    timer_closure := render (step (ChangeTitle "x")
                                               (mount None Store.initial)) |}
     ≠ 1000 * SettingsDialog.auto_save_interval
                (SettingsDialog.updateProfile Profiles.stored Profiles.sixty)).
Proof.
  assert (Hr : reachable (step (ChangeTitle "x") (mount None Store.initial))).
  { apply reachable_step, reachable_mount. }
  assert (Ht : {| timer_id := 1; timer_delay := 30000;
                  timer_closure := render (step (ChangeTitle "x")
                                             (mount None Store.initial)) |}
               ∈ timers (step (ChangeTitle "x") (mount None Store.initial))).
  { vm_compute. left. }
  exact (autosave_delay_fixed _ _ Profiles.stored Profiles.sixty Hr Ht).
Defined.

(** With the interval of the profile set to 60 seconds, the timeout armed
    by the first keystroke in a new note still has 30000 milliseconds. *)
Example sixty_seconds_ignored :
  SettingsDialog.auto_save_interval
    (SettingsDialog.updateProfile Profiles.stored Profiles.sixty) = 60
  ∧ timer_delay <$> timers (step (ChangeTitle "x") (mount None Store.initial))
    = [30000].
Proof. vm_compute. split; reflexivity. Qed.
(** The failure path of the specification: when the awaited write fails,
    the store keeps its values, the fields keep theirs, [hasUnsavedChanges]
    included, [saving] is reset and the failure is shown. *)
Lemma failed_save_stays_dirty (w : World) (p : Pending) (db : Remote.Supabase)
    (applied saved : JS.Date) (e : Remote.PostgrestError) :
  reachable w → inflight w = [p] →
  Mutations.remote_write db (call p) = Some (Remote.failure e) →
  store (step (Settle db applied saved) w) = store w
  ∧ st (step (Settle db applied saved) w) = setSaving false (st w)
  ∧ inflight (step (Settle db applied saved) w) = []
  ∧ toasts (step (Settle db applied saved) w) = toasts w ++ [SaveFailed].
Proof.
  intros Hr Hin Hw. destruct (reachable_invariant w Hr) as (_ & _ & Hs).
  destruct (step_inflight (Settle db applied saved) w) as (-> & -> & ->).
  unfold step. simpl. unfold settle. rewrite Hin. unfold resume.
  rewrite (perform_failure _ _ _ _ _ Hw). simpl. split_and!; try done.
  unfold stable in Hs.
  destruct (runEffects_deps (render w) w) as (Hd1 & Hd2 & _).
  rewrite Hs in Hd1, Hd2.
  unfold commit. cbn [rerender]. match goal with
  | |- context [bool_decide (st (runEffects ?r ?w') = _)] =>
      assert (Hst : st (runEffects r w') = st w') by
        (apply runEffects_still; [exact Hd1|exact Hd2])
  end.
  rewrite bool_decide_eq_true_2 by exact Hst. exact Hst.
Qed.

End EditorClaims.

(* ===================================================================== *)
(** * Further properties of the store *)
(* ===================================================================== *)

Section StoreMore.
Import Remote Store Mutations StoreRuns.

Lemma fetchNotes_cases (db : Supabase) (now : JS.Date) (s : NotesState) :
  fetchNotes db now s =
    match notes_select db notes_order with
    | success rows =>
        ({| notes := note_of_row <$> rows; folders := folders s;
            tags := JS.Array_from_Set (JS.flatMap note_tags (note_of_row <$> rows));
            isLoading := false; lastSync := Some now |}, Done tt)
    | failure _ =>
        ({| notes := notes s; folders := folders s; tags := tags s;
            isLoading := false; lastSync := lastSync s |}, Done tt)
    end.
Proof.
  unfold fetchNotes, bind, setLoading, set.
  by destruct (notes_select db notes_order).
Qed.

Lemma fetchFolders_cases (db : Supabase) (s : NotesState) :
  fetchFolders db s =
    match folders_select db folders_order with
    | success rows =>
        ({| notes := notes s; folders := folder_of_row <$> rows; tags := tags s;
            isLoading := isLoading s; lastSync := lastSync s |}, Done tt)
    | failure _ => (s, Done tt)
    end.
Proof. unfold fetchFolders. by destruct (folders_select db folders_order). Qed.

(** X1. [fetchNotes] never throws and never touches the folders; when
    its select fails the error is swallowed: notes, tags and [lastSync] stay
    as they were and [isLoading] is back to false. *)
Theorem fetchNotes_swallows_failure (db : Supabase) (now : JS.Date)
    (s : NotesState) :
  snd (fetchNotes db now s) = Done tt
  ∧ folders (fst (fetchNotes db now s)) = folders s
  ∧ isLoading (fst (fetchNotes db now s)) = false
  ∧ ∀ e, notes_select db notes_order = failure e →
      notes (fst (fetchNotes db now s)) = notes s
      ∧ tags (fst (fetchNotes db now s)) = tags s
      ∧ lastSync (fst (fetchNotes db now s)) = lastSync s.
Proof.
  rewrite fetchNotes_cases.
  destruct (notes_select db notes_order); simpl; split_and!;
    try done; by intros ? [=].
Qed.

(** X2. Fetching twice against the same answers gives the notes, the tag
    index and the folders of fetching once, on success and on failure. *)
Theorem fetchNotes_idempotent (db : Supabase) (now now' : JS.Date)
    (s : NotesState) :
  let once := fst (fetchNotes db now s) in
  let twice := fst (fetchNotes db now' once) in
  notes twice = notes once ∧ tags twice = tags once
  ∧ folders twice = folders once ∧ isLoading twice = isLoading once.
Proof.
  simpl. rewrite !fetchNotes_cases. by destruct (notes_select db notes_order).
Qed.

Lemma syncNotes_cases (db : Supabase) (now : JS.Date) (s : NotesState) :
  syncNotes db now s
  = (fst (fetchFolders db (fst (fetchNotes db now s))), Done tt).
Proof.
  unfold syncNotes, bind. rewrite fetchNotes_cases.
  destruct (notes_select db notes_order); rewrite !fetchFolders_cases;
    by destruct (folders_select db folders_order).
Qed.

(** X3. [syncNotes] never throws, whatever the backend answers: the notes,
    the tags and [lastSync] are those [fetchNotes] alone would give and the
    folders are those [fetchFolders] alone would give, so a failed select of
    the notes does not keep the folders from being reloaded, and the other
    way round. *)
Theorem syncNotes_never_throws (db : Supabase) (now : JS.Date) (s : NotesState) :
  snd (syncNotes db now s) = Done tt
  ∧ notes (fst (syncNotes db now s)) = notes (fst (fetchNotes db now s))
  ∧ tags (fst (syncNotes db now s)) = tags (fst (fetchNotes db now s))
  ∧ lastSync (fst (syncNotes db now s)) = lastSync (fst (fetchNotes db now s))
  ∧ folders (fst (syncNotes db now s)) = folders (fst (fetchFolders db s)).
Proof.
  rewrite syncNotes_cases. cbn [fst snd].
  rewrite !fetchFolders_cases, fetchNotes_cases.
  by destruct (notes_select db notes_order), (folders_select db folders_order).
Qed.

(** X4. [handleSync] of the list reports "Sync Complete" whatever the
    backend answers, also when both selects failed and nothing was loaded:
    its "Sync Failed" branch is never taken. *)
Theorem handleSync_always_complete (db : Supabase) (now : JS.Date)
    (s : NotesState) :
  snd (NotesListHandlers.handleSync db now s) = NotesListHandlers.SyncComplete
  ∧ (∀ e e', notes_select db notes_order = failure e →
       folders_select db folders_order = failure e' →
       notes (fst (NotesListHandlers.handleSync db now s)) = notes s
       ∧ folders (fst (NotesListHandlers.handleSync db now s)) = folders s
       ∧ tags (fst (NotesListHandlers.handleSync db now s)) = tags s).
Proof.
  unfold NotesListHandlers.handleSync. rewrite syncNotes_cases. cbn [fst snd].
  split; [done|]. intros e e' He He'.
  by rewrite fetchFolders_cases, fetchNotes_cases, He, He'.
Qed.
End StoreMore.

Section StoreRoundTrips.
Import Remote Store Mutations StoreRuns.

Lemma filter_all {A} (f : A → bool) (l : list A) :
  Forall (fun x => f x = true) l → List.filter f l = l.
Proof. induction 1 as [|x l Hx _ IH]; simpl; [done|]. by rewrite Hx, IH. Qed.

Lemma filter_sublist {A} (f : A → bool) (l : list A) :
  List.filter f l `sublist_of` l.
Proof.
  induction l as [|x l IH]; simpl; [done|].
  destruct (f x); by constructor.
Qed.

Lemma deleteNote_run (db : Supabase) (id : string) (s : NotesState) :
  notes_delete db id = success tt →
  deleteNote db id s =
    ({| notes := List.filter (fun note => negb (bool_decide (note_id note = id)))
                   (notes s);
        folders := folders s; tags := tags s; isLoading := isLoading s;
        lastSync := lastSync s |}, Done tt).
Proof. intros H. unfold deleteNote, bind. rewrite H. reflexivity. Qed.

Lemma keeps_other_ids (id : string) (l : list Note) :
  Forall (fun n => note_id n ≠ id) l →
  List.filter (fun note => negb (bool_decide (note_id note = id))) l = l.
Proof.
  intros H. apply filter_all. eapply Forall_impl; [exact H|].
  intros n Hn. simpl. by rewrite bool_decide_eq_false_2.
Qed.

(** X5. After a successful [deleteNote(id)] the collection holds exactly the
    notes of another id, in their old order and unchanged; every note of that
    id is gone, also when several carry it; deleting the same id again, or an
    id no note carries, changes nothing. *)
Theorem deleteNote_removes (db : Supabase) (id : string) (s : NotesState) :
  notes_delete db id = success tt →
  let s' := fst (deleteNote db id s) in
  (∀ n, n ∈ notes s' ↔ n ∈ notes s ∧ note_id n ≠ id)
  ∧ notes s' `sublist_of` notes s
  ∧ fst (deleteNote db id s') = s'
  ∧ (Forall (fun n => note_id n ≠ id) (notes s) → s' = s).
Proof.
  intros Hok. simpl. rewrite (deleteNote_run _ _ _ Hok). simpl.
  split_and!.
  - intros n. rewrite list_elem_of_In, filter_In, <- list_elem_of_In.
    by rewrite negb_true_iff, bool_decide_eq_false.
  - apply filter_sublist.
  - rewrite (deleteNote_run _ _ _ Hok). simpl. f_equal.
    apply keeps_other_ids, Forall_forall. intros n Hn.
    apply list_elem_of_In, filter_In in Hn as [_ Hn].
    by apply negb_true_iff, bool_decide_eq_false in Hn.
  - intros Hall. rewrite keeps_other_ids by done. by destruct s.
Qed.

Lemma deleteNote_removes_witness :
  fst (deleteNote (Samples.online []) "n1"
         (fst (deleteNote (Samples.online []) "n1" Samples.two_notes)))
  = fst (deleteNote (Samples.online []) "n1" Samples.two_notes).
Proof.
  assert (H : notes_delete (Samples.online []) "n1" = success tt) by reflexivity.
  exact (proj1 (proj2 (proj2
           (deleteNote_removes (Samples.online []) "n1" Samples.two_notes H)))).
Defined.

(** X6. Insert then delete is a round trip on the note collection: when
    [addNote] succeeds with a row whose id no local note carries and
    [deleteNote] of that id succeeds, the notes are exactly what they were.
    The tag index is not part of the round trip: it keeps the tags of the
    inserted note. *)
Theorem addNote_deleteNote_roundtrip (db db' : Supabase) (nd : NoteData)
    (uid : string) (row : NoteRow) (s : NotesState) :
  signed_in db = Some uid →
  notes_insert db nd uid = success row →
  notes_delete db' (row_id row) = success tt →
  Forall (fun n => note_id n ≠ row_id row) (notes s) →
  let s1 := fst (addNote db nd s) in
  let s2 := fst (deleteNote db' (row_id row) s1) in
  notes s1 = note_of_inserted row :: notes s
  ∧ notes s2 = notes s
  ∧ folders s2 = folders s
  ∧ ∀ t, t ∈ tags s2 ↔ t ∈ tags s ∨ t ∈ default [] (row_tags row).
Proof.
  intros Hu Hins Hdel Hfresh. simpl.
  rewrite (addNote_run _ _ _ _ _ Hu Hins). simpl.
  rewrite (deleteNote_run _ _ _ Hdel). simpl.
  rewrite bool_decide_eq_true_2 by done. simpl.
  split_and!; [done|by apply keeps_other_ids|done|].
  intros t. by rewrite Array_from_Set_elem, elem_of_app.
Qed.

Lemma addNote_deleteNote_roundtrip_witness :
  notes (fst (deleteNote (Samples.online []) "n9"
                (fst (addNote (Samples.online [])
                        {| nd_title := "Tax"; nd_content := "2024";
                           nd_tags := ["money"]; nd_isFavorite := false;
                           nd_folderId := None |} Samples.two_notes))))
  = notes Samples.two_notes.
Proof.
  assert (Hu : signed_in (Samples.online []) = Some "u1") by reflexivity.
  assert (Hfresh : Forall (fun n => note_id n ≠ "n9") (notes Samples.two_notes)).
  { repeat constructor; discriminate. }
  exact (proj1 (proj2
    (addNote_deleteNote_roundtrip (Samples.online []) (Samples.online [])
       {| nd_title := "Tax"; nd_content := "2024"; nd_tags := ["money"];
          nd_isFavorite := false; nd_folderId := None |}
       "u1" _ Samples.two_notes Hu eq_refl eq_refl Hfresh))).
Defined.

(** X7. An update of an id that no local note carries still goes to the
    backend and, when it succeeds, changes no local note; yet the tags of the
    update enter the tag index, which then holds tags that no note carries. *)
Theorem updateNote_unknown_id (db : Supabase) (now : JS.Date) (id : string)
    (U : PartialNote) (s : NotesState) :
  notes_update db id (update_payload U) = success tt →
  Forall (fun n => note_id n ≠ id) (notes s) →
  notes (fst (updateNote db now id U s)) = notes s
  ∧ ∀ t, t ∈ default [] (p_tags U) → t ∈ tags (fst (updateNote db now id U s)).
Proof.
  intros Hok Hall. rewrite (updateNote_run _ _ _ _ _ Hok). simpl. split.
  - induction Hall as [|n l Hn _ IH]; simpl; [done|].
    rewrite bool_decide_eq_false_2 by done. by f_equal.
  - intros t Ht. apply Array_from_Set_elem, elem_of_app. by right.
Qed.

Lemma updateNote_unknown_id_witness :
  notes (fst (updateNote (Samples.online []) 3000 "n7"
                (Samples.retitle "Ghost") Samples.two_notes))
  = notes Samples.two_notes.
Proof.
  assert (Hall : Forall (fun n => note_id n ≠ "n7") (notes Samples.two_notes)).
  { repeat constructor; discriminate. }
  exact (proj1 (updateNote_unknown_id (Samples.online []) 3000 "n7"
                  (Samples.retitle "Ghost") Samples.two_notes eq_refl Hall)).
Defined.
End StoreRoundTrips.

Section TagOrder.
Import JS.

Lemma foldl_Set_add_prefix (xs acc : list string) :
  acc `prefix_of` foldl Set_add acc xs.
Proof.
  revert acc. induction xs as [|y xs IH]; intros acc; simpl; [done|].
  unfold Set_add. case_bool_decide; [apply IH|].
  etrans; [|apply IH]. by apply prefix_app_r.
Qed.

Lemma foldl_Set_add_distinct (xs acc : list string) :
  NoDup (acc ++ xs) → foldl Set_add acc xs = acc ++ xs.
Proof.
  revert acc. induction xs as [|y xs IH]; intros acc Hnd; simpl.
  - by rewrite app_nil_r.
  - unfold Set_add. rewrite bool_decide_eq_false_2.
    + rewrite IH; rewrite <- app_assoc; done.
    + apply NoDup_app in Hnd as (_ & Hdis & _). intros Hy.
      apply (Hdis y Hy). left.
Qed.

Lemma Array_from_Set_distinct (xs : list string) :
  NoDup xs → Array_from_Set xs = xs.
Proof. intros H. by apply (foldl_Set_add_distinct xs []). Qed.

Lemma Array_from_Set_app_prefix (old new : list string) :
  NoDup old → old `prefix_of` Array_from_Set (old ++ new).
Proof.
  intros Hnd. unfold Array_from_Set. rewrite foldl_app.
  fold (Array_from_Set old). rewrite (Array_from_Set_distinct old Hnd).
  apply foldl_Set_add_prefix.
Qed.
End TagOrder.

Section StoreInvariants.
Import Remote Store Mutations StoreRuns.

(** X8. The tag buttons keep their places: when the tag index has no
    repetition, a successful [addNote] or [updateNote] leaves it as a prefix
    of the new index, new tags being appended behind it, and the new index
    has no repetition either. *)
Theorem tag_index_keeps_order (db : Supabase) (now : JS.Date) (s : NotesState) :
  NoDup (tags s) →
  (∀ nd uid row, signed_in db = Some uid →
     notes_insert db nd uid = success row →
     tags s `prefix_of` tags (fst (addNote db nd s))
     ∧ NoDup (tags (fst (addNote db nd s))))
  ∧ (∀ id U, notes_update db id (update_payload U) = success tt →
     tags s `prefix_of` tags (fst (updateNote db now id U s))
     ∧ NoDup (tags (fst (updateNote db now id U s)))
     ∧ (p_tags U = None → tags (fst (updateNote db now id U s)) = tags s)).
Proof.
  intros Hnd. split.
  - intros nd uid row Hu Hr. rewrite (addNote_run _ _ _ _ _ Hu Hr). simpl.
    split; [by apply Array_from_Set_app_prefix|apply Array_from_Set_NoDup].
  - intros id U Hok. rewrite (updateNote_run _ _ _ _ _ Hok). simpl.
    split_and!; [by apply Array_from_Set_app_prefix|apply Array_from_Set_NoDup|].
    intros ->. simpl. rewrite app_nil_r. by apply Array_from_Set_distinct.
Qed.

Lemma tag_index_keeps_order_witness :
  tags Samples.two_notes
    `prefix_of` tags (fst (updateNote (Samples.online []) 3000 "n2"
                             {| p_id := None; p_title := None; p_content := None;
                                p_tags := Some ["tax"; "home"];
                                p_isFavorite := None; p_createdAt := None;
                                p_updatedAt := None; p_folderId := None |}
                             Samples.two_notes)).
Proof.
  assert (Hnd : NoDup (tags Samples.two_notes)).
  { apply (bool_decide_unpack _). vm_compute. exact I. }
  exact (proj1 (proj2 (tag_index_keeps_order (Samples.online []) 3000
                         Samples.two_notes Hnd) "n2" _ eq_refl)).
Defined.

(** X9. The two halves of the store are separate: whatever the backend
    answers, an action on folders changes neither the notes nor the tag
    index, an action on notes does not change the folders, and no mutating
    action touches [isLoading] or [lastSync]. *)
Theorem notes_and_folders_separate (db : Supabase) (now : JS.Date)
    (m : Mutation) (s : NotesState) :
  let s' := fst (perform db now m s) in
  (if is_folder_mutation m
   then notes s' = notes s ∧ tags s' = tags s
   else folders s' = folders s)
  ∧ isLoading s' = isLoading s ∧ lastSync s' = lastSync s.
Proof.
  destruct m; simpl;
    unfold addNote, updateNote, deleteNote, addFolder, updateFolder,
      deleteFolder, bind; rewrite ?current_user_signed_in;
    repeat match goal with
      | |- context [signed_in ?d] => destruct (signed_in d); simpl
      | |- context [await_or_throw ?r] => destruct r; simpl
      end; done.
Qed.

Lemma addFolder_run (db : Supabase) (fd : FolderData) (uid : string)
    (row : FolderRow) (s : NotesState) :
  signed_in db = Some uid →
  folders_insert db fd uid = success row →
  addFolder db fd s =
    ({| notes := notes s; folders := folders s ++ [folder_of_inserted row];
        tags := tags s; isLoading := isLoading s; lastSync := lastSync s |},
     Done tt).
Proof.
  intros Hu H. unfold addFolder, bind. rewrite current_user_signed_in, Hu. simpl.
  rewrite H. reflexivity.
Qed.

(** X10. A new folder goes to the end of the folder collection, behind the
    folders already there, and insert then delete is a round trip: when
    [addFolder] succeeds with a row whose id no local folder carries and
    [deleteFolder] of that id succeeds, the whole store is what it was. *)
Theorem addFolder_deleteFolder_roundtrip (db db' : Supabase) (fd : FolderData)
    (uid : string) (row : FolderRow) (s : NotesState) :
  signed_in db = Some uid →
  folders_insert db fd uid = success row →
  folders_delete db' (frow_id row) = success tt →
  Forall (fun f => folder_id f ≠ frow_id row) (folders s) →
  folders (fst (addFolder db fd s)) = folders s ++ [folder_of_inserted row]
  ∧ fst (deleteFolder db' (frow_id row) (fst (addFolder db fd s))) = s.
Proof.
  intros Hu Hins Hdel Hfresh.
  rewrite (addFolder_run _ _ _ _ _ Hu Hins). simpl. split; [done|].
  rewrite (deleteFolder_run _ _ _ Hdel). simpl.
  rewrite List.filter_app. simpl. rewrite bool_decide_eq_true_2 by done. simpl.
  rewrite app_nil_r, filter_all; [by destruct s|].
  eapply Forall_impl; [exact Hfresh|]. intros f Hf. simpl.
  by rewrite bool_decide_eq_false_2.
Qed.

Lemma addFolder_deleteFolder_roundtrip_witness :
  fst (deleteFolder (Samples.online []) "f9"
         (fst (addFolder (Samples.online [])
                 {| fd_name := "Work"; fd_color := None |} Samples.two_notes)))
  = Samples.two_notes.
Proof.
  assert (Hu : signed_in (Samples.online []) = Some "u1") by reflexivity.
  assert (Hfresh : Forall (fun f => folder_id f ≠ "f9") (folders Samples.two_notes)).
  { repeat constructor; discriminate. }
  exact (proj2
    (addFolder_deleteFolder_roundtrip (Samples.online []) (Samples.online [])
       {| fd_name := "Work"; fd_color := None |} "u1" _ Samples.two_notes
       Hu eq_refl eq_refl Hfresh)).
Defined.

(** X11. After a successful [updateFolder(id, U)] the folder collection
    has the same length; a folder of another id is the same folder at the
    same place, a folder of that id has every field that [U] carries replaced
    and every other field kept. *)
Theorem updateFolder_frame (db : Supabase) (id : string) (U : PartialFolder)
    (s : NotesState) :
  folders_update db id U = success tt →
  let s' := fst (updateFolder db id U s) in
  snd (updateFolder db id U s) = Done tt
  ∧ length (folders s') = length (folders s)
  ∧ ∀ (i : nat) F, folders s !! i = Some F →
      (folder_id F ≠ id → folders s' !! i = Some F)
      ∧ (folder_id F = id → ∃ F', folders s' !! i = Some F'
           ∧ folder_id F' = default (folder_id F) (pf_id U)
           ∧ folder_name F' = default (folder_name F) (pf_name U)
           ∧ folder_color F' = default (folder_color F) (pf_color U)
           ∧ folder_createdAt F' = default (folder_createdAt F) (pf_createdAt U)).
Proof.
  intros Hok. unfold updateFolder, bind. rewrite Hok. simpl.
  split_and!; [done|by rewrite length_fmap|].
  intros i F Hi. rewrite list_lookup_fmap, Hi. simpl. split.
  - intros Hne. by rewrite bool_decide_eq_false_2.
  - intros Heq. rewrite bool_decide_eq_true_2 by done.
    eexists. split; [reflexivity|]. done.
Qed.

Lemma updateFolder_frame_witness :
  snd (updateFolder (Samples.online []) "f1"
         {| pf_id := None; pf_name := Some "Food"; pf_color := None;
            pf_createdAt := None |} Samples.two_notes) = Done tt.
Proof.
  exact (proj1 (updateFolder_frame (Samples.online []) "f1"
                  {| pf_id := None; pf_name := Some "Food"; pf_color := None;
                     pf_createdAt := None |} Samples.two_notes eq_refl)).
Defined.

Lemma action_keeps_index (c : StoreCall) (s : NotesState) :
  indexed s ∧ NoDup (tags s) →
  indexed (fst (action c s)) ∧ NoDup (tags (fst (action c s))).
Proof.
  intros [Hidx Hnd].
  assert (Hfetch : ∀ db now s0, indexed s0 → NoDup (tags s0) →
            NoDup (tags (fst (fetchNotes db now s0)))).
  { intros db now s0 _ Hnd0. rewrite fetchNotes_cases.
    destruct (notes_select db notes_order); simpl; [apply Array_from_Set_NoDup|done]. }
  assert (Hff : ∀ db s0, indexed s0 ∧ NoDup (tags s0) →
            indexed (fst (fetchFolders db s0))
            ∧ NoDup (tags (fst (fetchFolders db s0)))).
  { intros db s0 H0. rewrite fetchFolders_cases.
    by destruct (folders_select db folders_order). }
  destruct c as [db now m|db now|db|db now]; simpl.
  - split; [by apply indexed_perform|].
    destruct m; simpl;
      unfold addNote, updateNote, deleteNote, addFolder, updateFolder,
        deleteFolder, bind; rewrite ?current_user_signed_in;
      repeat match goal with
        | |- context [signed_in ?d] => destruct (signed_in d); simpl
        | |- context [await_or_throw ?r] => destruct r; simpl
        end; try done; apply Array_from_Set_NoDup.
  - split; [by apply indexed_fetchNotes|by apply Hfetch].
  - by apply Hff.
  - unfold syncNotes, bind.
    pose proof (indexed_fetchNotes db now s Hidx) as Hi1.
    pose proof (Hfetch db now s Hidx Hnd) as Hn1.
    rewrite fetchNotes_cases in Hi1, Hn1 |- *.
    destruct (notes_select db notes_order); by apply Hff.
Qed.

(** X12. Whatever calls of its actions the store has seen since it was
    created, and whatever the backend answered to them, the tags of every
    local note are in the tag index and the tag index has no repetition. *)
Theorem store_index_invariant (cs : list StoreCall) :
  indexed (after cs initial) ∧ NoDup (tags (after cs initial)).
Proof.
  unfold after.
  assert (H0 : indexed initial ∧ NoDup (tags initial)).
  { split; [apply indexed_initial|apply NoDup_nil_2]. }
  revert H0. generalize initial. induction cs as [|c cs IH]; intros s Hs; simpl.
  - done.
  - by apply IH, action_keeps_index.
Qed.
End StoreInvariants.

(* ===================================================================== *)
(** * Further properties of the list *)
(* ===================================================================== *)

Section ListMore.
Import JS NotesList.
Variable localeCompare : string → string → Z.

Lemma startsWith_empty (s : string) : startsWith s "" = true.
Proof. by destruct s. Qed.

Lemma includes_empty (s : string) : includes s "" = true.
Proof. destruct s; simpl; by rewrite ?startsWith_empty. Qed.

(** X13. Whatever the sort key, the view shows every note that passes the
    search and the tag filter exactly once and nothing else.  Under the
    [title] key, provided [localeCompare] never puts two titles strictly
    after each other, the view is ascending for [localeCompare] and notes
    with the same title keep the order of the store. *)
Theorem view_shows_each_match_once (notes : list Note) (searchQuery : string)
    (selectedTag : option string) :
  let shown := List.filter
    (fun note => matchesSearch searchQuery note && matchesTag selectedTag note)
    notes in
  (∀ sortBy,
     filteredNotes localeCompare notes searchQuery selectedTag sortBy ≡ₚ shown)
  ∧ ((∀ a b, 0 < localeCompare a b → localeCompare b a <= 0) →
     Sorted (fun a b => localeCompare (note_title a) (note_title b) <= 0)
       (filteredNotes localeCompare notes searchQuery selectedTag title)
     ∧ ∀ t, List.filter (fun n => bool_decide (note_title n = t))
              (filteredNotes localeCompare notes searchQuery selectedTag title)
            = List.filter (fun n => bool_decide (note_title n = t)) shown).
Proof.
  split.
  - intros sortBy. apply sort_Permutation.
  - intros Htot. split.
    + unfold filteredNotes. eapply Sorted_weaken; [|apply sort_Sorted].
      * intros a b. unfold compareNotes. simpl. done.
      * intros x y. unfold compareNotes. simpl. apply Htot.
    + intros t. apply sort_stable. intros x y Hx Hlt.
      apply bool_decide_eq_true in Hx. apply bool_decide_eq_false. intros Hy.
      unfold compareNotes in Hlt. simpl in Hlt. rewrite Hx, Hy in Hlt.
      pose proof (Htot t t Hlt). lia.
Qed.

(** X14. With an empty search box and no tag selected (or the empty tag)
    the view shows every note of the store exactly once, under every sort
    key. *)
Theorem empty_filters_show_all (notes : list Note) (sortBy : SortBy) :
  filteredNotes localeCompare notes "" None sortBy ≡ₚ notes
  ∧ filteredNotes localeCompare notes "" (Some "") sortBy ≡ₚ notes.
Proof.
  unfold filteredNotes. rewrite !sort_Permutation.
  split; rewrite filter_all; try done; apply Forall_forall; intros n _;
    unfold matchesSearch; simpl; by rewrite includes_empty.
Qed.

(** X15. The search of the store finds at least what the search box of the
    list finds: every note shown by the list for a query, under any tag
    filter and sort key, is returned by [searchNotes] for that query. *)
Theorem searchNotes_covers_view (s : Store.NotesState) (query : string)
    (selectedTag : option string) (sortBy : SortBy) (n : Note) :
  n ∈ filteredNotes localeCompare (Store.notes s) query selectedTag sortBy →
  n ∈ Store.searchNotes query s.
Proof.
  unfold filteredNotes, Store.searchNotes. rewrite sort_elem.
  rewrite !list_elem_of_In, !filter_In.
  intros (Hn & (Hm & _)%andb_true_iff). split; [done|].
  unfold Store.search_hit. unfold matchesSearch in Hm. by rewrite Hm.
Qed.
End ListMore.

Lemma searchNotes_covers_view_witness :
  Samples.budget ∈ Store.searchNotes "bud" Samples.two_notes.
Proof.
  assert (H : Samples.budget
              ∈ NotesList.filteredNotes (fun _ _ => 0)
                  (Store.notes Samples.two_notes) "bud" None NotesList.date).
  { vm_compute. left. }
  exact (searchNotes_covers_view (fun _ _ => 0) Samples.two_notes "bud" None
           NotesList.date Samples.budget H).
Defined.

Section ListHelpers.
Import NotesListHandlers.

Lemma string_length_app (a b : string) :
  String.length (a +:+ b) = (String.length a + String.length b)%nat.
Proof. induction a as [|c a IH]; simpl; [done|]. by rewrite IH. Qed.

Lemma slice0_length (n : nat) (s : string) :
  String.length (slice0 n s) = Nat.min n (String.length s).
Proof.
  revert s. induction n as [|n IH]; intros [|c s]; simpl; try done.
  by rewrite IH.
Qed.

Lemma slice0_prefix (n : nat) (s : string) : ∃ rest, s = slice0 n s +:+ rest.
Proof.
  revert s. induction n as [|n IH]; intros s; simpl.
  - by exists s.
  - destruct s as [|c s]; [by exists EmptyString|].
    destruct (IH s) as [rest Hrest]. exists rest.
    change (String c s = String c (slice0 n s +:+ rest)). congruence.
Qed.

(** X16. [truncateContent] returns a content of at most [maxLength]
    characters as it is; a longer content becomes its first [maxLength]
    characters followed by three dots, [maxLength + 3] characters in all, so
    a content one or two characters over the limit is shown longer than it
    is. *)
Theorem truncateContent_length (content : string) (maxLength : nat) :
  ((String.length content ≤ maxLength)%nat →
     truncateContent content maxLength = content)
  ∧ ((maxLength < String.length content)%nat →
     String.length (truncateContent content maxLength) = (maxLength + 3)%nat
     ∧ ∃ rest, content = slice0 maxLength content +:+ rest
               ∧ rest ≠ EmptyString
               ∧ truncateContent content maxLength
                 = slice0 maxLength content +:+ "...").
Proof.
  unfold truncateContent. split.
  - intros Hle. by rewrite (proj2 (Nat.leb_le _ _) Hle).
  - intros Hlt. rewrite (proj2 (Nat.leb_gt _ _) Hlt).
    rewrite string_length_app, slice0_length. split; [simpl; lia|].
    destruct (slice0_prefix maxLength content) as [rest Hrest].
    exists rest. split_and!; [done| |done].
    intros ->. apply (f_equal String.length) in Hrest.
    rewrite string_length_app, slice0_length in Hrest. simpl in Hrest. lia.
Qed.

Lemma ceilDays_le (d k : Z) : 0 <= d → (ceilDays d <= k ↔ d <= k * msPerDay).
Proof.
  intros Hd. unfold ceilDays.
  assert (HD : msPerDay = 86400000) by reflexivity. rewrite HD.
  pose proof (Z.mul_div_le (d + 86400000 - 1) 86400000 ltac:(lia)).
  pose proof (Z.mul_succ_div_gt (d + 86400000 - 1) 86400000 ltac:(lia)).
  lia.
Qed.

Lemma ceilDays_eq (d k : Z) :
  0 <= d → (ceilDays d = k ↔ (k - 1) * msPerDay < d <= k * msPerDay).
Proof.
  intros Hd. pose proof (ceilDays_le d k Hd). pose proof (ceilDays_le d (k - 1) Hd).
  lia.
Qed.

Variable toLocaleDateString : JS.Date → string.

(** X17. [formatDate] looks only at the distance [d] between the date and
    the clock, in either direction: it answers "Today" exactly for
    [0 < d <= 1 day], "Yesterday" exactly for [1 day < d <= 2 days], the
    locale date exactly beyond 7 days, and between 2 and 7 days "n days ago"
    with [n] the days rounded up, less one; a date equal to the clock
    reading gives "-1 days ago". *)
Theorem formatDate_cases (now date : JS.Date) :
  let d := Z.abs (now - date) in
  (d = 0 → formatDate toLocaleDateString now date = "-1 days ago")
  ∧ (0 < d <= msPerDay → formatDate toLocaleDateString now date = "Today")
  ∧ (msPerDay < d <= 2 * msPerDay →
     formatDate toLocaleDateString now date = "Yesterday")
  ∧ (2 * msPerDay < d <= 7 * msPerDay →
     2 <= ceilDays d - 1 <= 6
     ∧ formatDate toLocaleDateString now date
       = show_number (ceilDays d - 1) +:+ " days ago")
  ∧ (7 * msPerDay < d →
     formatDate toLocaleDateString now date = toLocaleDateString date).
Proof.
  simpl. unfold formatDate.
  pose proof (Z.abs_nonneg (now - date)) as Hd.
  set (d := Z.abs (now - date)) in *.
  pose proof (ceilDays_le d 7 Hd) as H7.
  pose proof (ceilDays_eq d 1 Hd) as H1.
  pose proof (ceilDays_eq d 2 Hd) as H2.
  pose proof (ceilDays_eq d 0 Hd) as H0.
  pose proof (ceilDays_le d 2 Hd) as Hle2.
  assert (HD : msPerDay = 86400000) by reflexivity. rewrite HD in *.
  split_and!.
  - intros Hz. assert (ceilDays d = 0) as -> by lia. reflexivity.
  - intros Hr. assert (ceilDays d = 1) as -> by lia. reflexivity.
  - intros Hr. assert (ceilDays d = 2) as -> by lia. reflexivity.
  - intros Hr. split; [lia|].
    destruct (Z.eqb_spec (ceilDays d) 1); [lia|].
    destruct (Z.eqb_spec (ceilDays d) 2); [lia|].
    destruct (Z.leb_spec (ceilDays d) 7); [done|lia].
  - intros Hr.
    destruct (Z.eqb_spec (ceilDays d) 1); [lia|].
    destruct (Z.eqb_spec (ceilDays d) 2); [lia|].
    destruct (Z.leb_spec (ceilDays d) 7); [lia|done].
Qed.
End ListHelpers.

(* ===================================================================== *)
(** * Further properties of the editor *)
(* ===================================================================== *)

Section EditorTimers.
Import NoteEditor EditorMore.

Lemma runEffects_single (r : Render) (w : World) :
  armed w → (length (timers w) ≤ 1)%nat →
  (length (timers (runEffects r w)) ≤ 1)%nat.
Proof.
  intros Ha Hlen. unfold runEffects.
  destruct (changed (deps3 w) (autosave_deps r)) eqn:Hc3.
  - set (w1 := if true && bool_decide (is_Some (deps3 w)) then clear_ref w else w).
    assert (Ht1 : timers w1 = []).
    { unfold w1. simpl. case_bool_decide as Hsome.
      - by apply clear_ref_timers.
      - apply armed_unarmed; [done|]. destruct (deps3 w); [|done].
        exfalso. apply Hsome. eauto. }
    set (w3 := if changed (deps2 w) (mark_deps r) then _ else _).
    assert (Ht3 : timers w3 = []).
    { unfold w3. by repeat (destruct (changed _ _); simpl). }
    unfold autosave_effect.
    destruct (hasUnsavedChanges (seen r) && negb (saving (seen r))); simpl.
    + assert (Htc : timers (clear_ref w3) = []).
      { unfold clear_ref. destruct (autoSaveTimeoutRef w3); [|done].
        simpl. by rewrite Ht3. }
      rewrite Htc. simpl. lia.
    + rewrite Ht3. simpl. lia.
  - simpl. by repeat (destruct (changed _ _); simpl).
Qed.

Lemma rerender_single (fuel : nat) (w : World) :
  armed w → (length (timers w) ≤ 1)%nat →
  (length (timers (rerender fuel w)) ≤ 1)%nat.
Proof.
  revert w. induction fuel as [|fuel IH]; intros w Ha Hl; simpl; [done|].
  case_bool_decide; [by apply runEffects_single|].
  apply IH; [by apply runEffects_armed|by apply runEffects_single].
Qed.

Lemma filter_length_le {A} (f : A → bool) (l : list A) :
  (length (List.filter f l) ≤ length l)%nat.
Proof. induction l as [|x l IH]; simpl; [done|]. destruct (f x); simpl; lia. Qed.

Lemma handleSave_timers (r : Render) (b : bool) (w : World) :
  timers (handleSave r b w) = timers w.
Proof.
  unfold handleSave. destruct (_ && _); [done|]. by destruct (saving (seen r)).
Qed.

Lemma handle_single (e : Event) (w : World) :
  (length (timers w) ≤ 1)%nat → (length (timers (handle e w)) ≤ 1)%nat.
Proof.
  intros Hl. destruct e; simpl; try done.
  - unfold handleAddTag. by destruct (_ && _).
  - by rewrite handleSave_timers.
  - unfold fire. destruct (List.find _ (timers w)); [|done].
    unfold autosave_callback. destruct (_ || _); rewrite ?handleSave_timers; simpl;
      (etrans; [apply filter_length_le|done]).
  - unfold settle. destruct (inflight w) as [|p rest]; [done|].
    unfold resume.
    destruct (Mutations.perform db applied (call p) (store w)) as [store' [[]|e]];
      [destruct (showToast p)|]; done.
Qed.

Lemma reachable_single (w : World) : reachable w → (length (timers w) ≤ 1)%nat.
Proof.
  induction 1 as [id s|e w Hr IH].
  - unfold mount, commit. apply rerender_single; [by apply armed_nil|simpl; lia].
  - unfold step, commit. destruct (handle_keeps e w (reachable_invariant w Hr)).
    apply rerender_single; [done|by apply handle_single].
Qed.

Lemma pending_timer_dirty (w : World) (t : Timer) :
  invariant w → t ∈ timers w → hasUnsavedChanges (st w) = true.
Proof.
  intros (Ha & _ & Hs) Ht.
  destruct (Ha t Ht) as (_ & _ & Hd & Hu & _).
  rewrite (stable_deps w Hs) in Hd. unfold autosave_deps in Hd. simpl in Hd.
  injection Hd as Hu' _ _ _. congruence.
Qed.

(** X18. In every world the editor can reach at most one autosave timeout
    is pending.  When one is pending the editor has unsaved changes and no
    save in flight, the timeout is the one the ref holds, and it was armed by
    a render with the title and the content the editor shows now. *)
Theorem one_timer_while_dirty (w : World) :
  reachable w →
  (length (timers w) ≤ 1)%nat
  ∧ ∀ t, t ∈ timers w →
      timers w = [t]
      ∧ hasUnsavedChanges (st w) = true
      ∧ saving (st w) = false
      ∧ autoSaveTimeoutRef w = Some (timer_id t)
      ∧ title (seen (timer_closure t)) = title (st w)
      ∧ content (seen (timer_closure t)) = content (st w).
Proof.
  intros Hr. pose proof (reachable_invariant w Hr) as Hinv.
  pose proof (reachable_single w Hr) as Hl. split; [done|].
  intros t Ht.
  destruct (pending_timer_current w t Hinv Ht) as (Hsv & Htt & Hcc).
  pose proof (pending_timer_dirty w t Hinv Ht) as Hdirty.
  destruct Hinv as (Ha & _). destruct (Ha t Ht) as (Hid & _).
  split_and!; try done.
  destruct (timers w) as [|t0 [|t1 ts]]; simpl in Hl; [by apply elem_of_nil in Ht| |lia].
  by apply list_elem_of_singleton in Ht as ->.
Qed.

Lemma one_timer_while_dirty_witness :
  (length (timers (run [ChangeTitle "Errands"; ChangeContent "milk"]
                        (mount (Some "n1") Samples.two_notes))) ≤ 1)%nat.
Proof.
  assert (Hr : reachable (run [ChangeTitle "Errands"; ChangeContent "milk"]
                            (mount (Some "n1") Samples.two_notes))).
  { apply reachable_run, reachable_mount. }
  exact (proj1 (one_timer_while_dirty _ Hr)).
Defined.
End EditorTimers.

Section EditorRounds.
Import NoteEditor EditorMore.

Lemma stable_all_deps (w : World) :
  stable w →
  deps1 w = Some (sync_deps (render w))
  ∧ deps2 w = Some (mark_deps (render w))
  ∧ deps3 w = Some (autosave_deps (render w)).
Proof.
  unfold stable. intros Hs.
  destruct (runEffects_deps (render w) w) as (H1 & H2 & H3).
  by rewrite Hs in H1, H2, H3.
Qed.

Lemma rerender_text (fuel : nat) (w : World) :
  deps1 w = Some (sync_deps (render w)) →
  title (st (rerender fuel w)) = title (st w)
  ∧ content (st (rerender fuel w)) = content (st w)
  ∧ tags (st (rerender fuel w)) = tags (st w)
  ∧ isFavorite (st (rerender fuel w)) = isFavorite (st w).
Proof.
  revert w. induction fuel as [|fuel IH]; intros w Hd; simpl; [done|].
  destruct (runEffects_text (render w) w Hd) as (Ht & Hc & Hg & Hf).
  case_bool_decide; [done|].
  destruct (IH _ (runEffects_sync_deps w)) as (-> & -> & -> & ->). done.
Qed.

Lemma rerender_newTag (fuel : nat) (w : World) :
  newTag (st (rerender fuel w)) = newTag (st w)
  ∧ lastSaved (st (rerender fuel w)) = lastSaved (st w).
Proof.
  revert w. induction fuel as [|fuel IH]; intros w; simpl; [done|].
  destruct (runEffects_frame (render w) w) as (_ & _ & _ & _ & _ & Hl & Hn).
  case_bool_decide; [done|].
  destruct (IH (runEffects (render w) w)) as (-> & ->). done.
Qed.

Lemma runEffects_timer_matches (r : Render) (w : World) :
  armed w →
  changed (deps3 w) (autosave_deps r) = true ∨ timer_matches w →
  timer_matches (runEffects r w).
Proof.
  intros Ha Hor. unfold timer_matches, runEffects. cbn [deps3 remember].
  destruct (changed (deps3 w) (autosave_deps r)) eqn:Hc3.
  - set (w1 := if true && bool_decide (is_Some (deps3 w)) then clear_ref w else w).
    assert (Ht1 : timers w1 = []).
    { unfold w1. simpl. case_bool_decide as Hsome.
      - by apply clear_ref_timers.
      - apply armed_unarmed; [done|]. destruct (deps3 w); [|done].
        exfalso. apply Hsome. eauto. }
    set (w3 := if changed (deps2 w) (mark_deps r) then _ else _).
    assert (Ht3 : timers w3 = []).
    { unfold w3. by repeat (destruct (changed _ _); simpl). }
    unfold autosave_effect, autosave_deps, wants_timer.
    destruct (hasUnsavedChanges (seen r) && negb (saving (seen r))); simpl.
    + split; [done|]. intros _. by destruct (timers (clear_ref w3)).
    + rewrite Ht3. split; done.
  - destruct Hor as [?|Hm]; [done|].
    unfold changed in Hc3. apply negb_false_iff, bool_decide_eq_true in Hc3.
    unfold timer_matches in Hm. rewrite Hc3 in Hm.
    assert (Hsame : ∀ w', timers (remember r w') = timers w') by done.
    simpl. revert Hm. by repeat (destruct (changed _ _); simpl).
Qed.

Lemma rerender_S (fuel : nat) (w : World) :
  rerender (S fuel) w
  = if bool_decide (st (runEffects (render w) w) = st w)
    then runEffects (render w) w
    else rerender fuel (runEffects (render w) w).
Proof. reflexivity. Qed.

Lemma rerender_timer_matches (fuel : nat) (w : World) :
  armed w →
  changed (deps3 w) (autosave_deps (render w)) = true ∨ timer_matches w →
  timer_matches (rerender (S fuel) w).
Proof.
  revert w. induction fuel as [|fuel IH]; intros w Ha Hor; rewrite rerender_S.
  - case_bool_decide; by apply runEffects_timer_matches.
  - case_bool_decide; [by apply runEffects_timer_matches|].
    apply IH; [by apply runEffects_armed|].
    right. by apply runEffects_timer_matches.
Qed.

(** Between two events, a timeout armed by the last autosave effect is
    pending exactly when the editor is dirty and not saving. *)
Lemma timer_matches_stable (w : World) :
  stable w → timer_matches w →
  (timers w ≠ [] ↔ hasUnsavedChanges (st w) = true ∧ saving (st w) = false).
Proof.
  intros Hs Hm. unfold timer_matches in Hm.
  destruct (stable_all_deps w Hs) as (_ & _ & Hd). rewrite Hd in Hm.
  unfold wants_timer, autosave_deps in Hm. simpl in Hm.
  by rewrite Hm, andb_true_iff, negb_true_iff.
Qed.

Lemma handleSave_issue (r : Render) (b : bool) (w : World) :
  blank (title (seen r)) && blank (content (seen r)) = false →
  saving (seen r) = false →
  handleSave r b w
  = issue {| call := save_request r; showToast := b |}
      (setState (setSaving true) w).
Proof. intros Hb Hs. unfold handleSave, save_request. by rewrite Hb, Hs. Qed.

Lemma fields_eq (f g : Fields) :
  title f = title g → content f = content g → tags f = tags g →
  newTag f = newTag g → isFavorite f = isFavorite g →
  lastSaved f = lastSaved g → saving f = saving g →
  hasUnsavedChanges f = hasUnsavedChanges g → f = g.
Proof. destruct f, g; simpl; by intros; subst. Qed.
End EditorRounds.

Section EditorAutosave.
Import NoteEditor EditorMore.

Lemma not_both_blank (t c : string) :
  blank t && blank c = false →
  JS.truthy (JS.trim t) || JS.truthy (JS.trim c) = true.
Proof. unfold blank. by destruct (JS.truthy _), (JS.truthy _). Qed.

Lemma saving_no_timer (w : World) :
  reachable w → saving (st w) = true → timers w = [].
Proof.
  intros Hr Hsv. destruct (timers w) as [|t ts] eqn:Hts; [done|].
  destruct (pending_timer_current w t (reachable_invariant w Hr)) as (Hsv' & _);
    [rewrite Hts; left|]. congruence.
Qed.

Lemma clean_no_timer (w : World) :
  reachable w → hasUnsavedChanges (st w) = false → timers w = [].
Proof.
  intros Hr Hu. destruct (timers w) as [|t ts] eqn:Hts; [done|].
  pose proof (pending_timer_dirty w t (reachable_invariant w Hr)) as Hd.
  rewrite Hts in Hd. rewrite Hd in Hu; [done|left].
Qed.

Lemma idle_inflight (w : World) :
  reachable w → saving (st w) = false → inflight w = [].
Proof.
  intros Hr Hsv. destruct (reachable_invariant w Hr) as (_ & Hf & _).
  unfold one_flight in Hf. rewrite Hsv in Hf. by destruct (inflight w).
Qed.

(** X19. When a pending autosave timeout expires and the title or the
    content is not blank, exactly one write is issued, without toast, and it
    is the one that the render that armed the timeout would make: an update
    of that render's current note, or an insert, with that render's title,
    content, tags and favorite flag.  The store is untouched until the
    backend answers. *)
Theorem autosave_saves_arming_render (w : World) (t : Timer) :
  reachable w → t ∈ timers w →
  blank (title (st w)) && blank (content (st w)) = false →
  let w' := step (TimerFires (timer_id t)) w in
  inflight w' = [ {| call := save_request (timer_closure t); showToast := false |} ]
  ∧ saving (st w') = true
  ∧ timers w' = []
  ∧ store w' = store w
  ∧ toasts w' = toasts w.
Proof.
  intros Hr Ht Hb. pose proof (reachable_invariant w Hr) as Hinv.
  destruct (pending_timer_current w t Hinv Ht) as (Hsv & Htt & Hcc).
  assert (Hts : timers w = [t]).
  { pose proof (reachable_single w Hr) as Hl.
    destruct (timers w) as [|t0 [|t1 ts]]; simpl in Hl;
      [by apply elem_of_nil in Ht| |lia].
    by apply list_elem_of_singleton in Ht as ->. }
  destruct Hinv as (Ha & _ & _). destruct (Ha t Ht) as (_ & _ & _ & _ & Hcs).
  assert (Hh : handle (TimerFires (timer_id t)) w
               = issue {| call := save_request (timer_closure t); showToast := false |}
                   (setState (setSaving true) (clearTimeout (timer_id t) w))).
  { simpl. unfold fire. rewrite Hts. simpl.
    rewrite bool_decide_eq_true_2 by done.
    unfold autosave_callback. rewrite Htt, Hcc, (not_both_blank _ _ Hb).
    apply handleSave_issue; [by rewrite Htt, Hcc|done]. }
  assert (Hsv' : saving (st (step (TimerFires (timer_id t)) w)) = true).
  { unfold step, commit.
    destruct (rerender_frame 3 (handle (TimerFires (timer_id t)) w))
      as (_ & _ & _ & _ & ->). by rewrite Hh. }
  simpl. destruct (step_inflight (TimerFires (timer_id t)) w) as (-> & -> & ->).
  rewrite Hh. simpl. rewrite (idle_inflight w Hr Hsv). split_and!; try done.
  apply saving_no_timer; [by constructor|done].
Qed.

Lemma autosave_saves_arming_render_witness :
  saving (st (step (TimerFires 2)
                (step (ChangeTitle "Errands")
                   (mount (Some "n1") Samples.two_notes)))) = true.
Proof.
  assert (Hr : reachable (step (ChangeTitle "Errands")
                            (mount (Some "n1") Samples.two_notes))).
  { apply reachable_step, reachable_mount. }
  assert (Ht : {| timer_id := 2; timer_delay := 30000;
                  timer_closure := render (step (ChangeTitle "Errands")
                                             (mount (Some "n1") Samples.two_notes)) |}
               ∈ timers (step (ChangeTitle "Errands")
                           (mount (Some "n1") Samples.two_notes))).
  { vm_compute. left. }
  assert (Hb : blank (title (st (step (ChangeTitle "Errands")
                                   (mount (Some "n1") Samples.two_notes))))
               && blank (content (st (step (ChangeTitle "Errands")
                                        (mount (Some "n1") Samples.two_notes))))
               = false).
  { vm_compute. reflexivity. }
  exact (proj1 (proj2 (autosave_saves_arming_render _ _ Hr Ht Hb))).
Defined.

(** The favorite flag set after the timeout was armed is not in the write
    of the autosave: the star is on in the editor, the update carries
    [isFavorite: false]. *)
Example autosave_writes_stale_flag :
  let w := run [ChangeTitle "Errands"; ToggleFavorite; TimerFires 2]
             (mount (Some "n1") Samples.two_notes) in
  isFavorite (st w) = true
  ∧ (p_isFavorite <$> (match call <$> inflight w with
                       | [Mutations.UpdateNote _ U] => Some U
                       | _ => None
                       end)) = Some (Some false).
Proof. vm_compute. split; reflexivity. Qed.

Lemma changed_title (w : World) (v : string) :
  stable w → v ≠ title (st w) →
  changed (deps3 w) (autosave_deps (render (setState (setTitle v) w))) = true.
Proof.
  intros Hs Hv. destruct (stable_all_deps w Hs) as (_ & _ & ->).
  unfold changed. rewrite bool_decide_eq_false_2; [done|].
  unfold autosave_deps. simpl. intros [=]. congruence.
Qed.

Lemma changed_content (w : World) (v : string) :
  stable w → v ≠ content (st w) →
  changed (deps3 w) (autosave_deps (render (setState (setContent v) w))) = true.
Proof.
  intros Hs Hv. destruct (stable_all_deps w Hs) as (_ & _ & ->).
  unfold changed. rewrite bool_decide_eq_false_2; [done|].
  unfold autosave_deps. simpl. intros [=]. congruence.
Qed.

(** X20. The debounce: typing a different title, or a different content,
    cancels the pending timeout, and when the editor ends dirty and not
    saving exactly then a timeout is pending again, armed by the new text;
    when it ends clean or saving, none is pending. *)
Theorem typing_rearms_autosave (w : World) (v : string) :
  reachable w →
  (v ≠ title (st w) →
     let w' := step (ChangeTitle v) w in
     title (st w') = v
     ∧ (∀ t, t ∈ timers w → t ∉ timers w')
     ∧ (timers w' ≠ []
        ↔ hasUnsavedChanges (st w') = true ∧ saving (st w') = false)
     ∧ ∀ t', t' ∈ timers w' → title (seen (timer_closure t')) = v)
  ∧ (v ≠ content (st w) →
     let w' := step (ChangeContent v) w in
     content (st w') = v
     ∧ (∀ t, t ∈ timers w → t ∉ timers w')
     ∧ (timers w' ≠ []
        ↔ hasUnsavedChanges (st w') = true ∧ saving (st w') = false)
     ∧ ∀ t', t' ∈ timers w' → content (seen (timer_closure t')) = v).
Proof.
  intros Hr. pose proof (reachable_invariant w Hr) as Hinv.
  pose proof Hinv as (Ha & Hf & Hs).
  destruct (stable_all_deps w Hs) as (Hd1 & _ & _).
  split; intros Hv; simpl.
  - assert (Hr' : reachable (step (ChangeTitle v) w)) by by constructor.
    pose proof (reachable_invariant _ Hr') as Hinv'.
    assert (Htitle : title (st (step (ChangeTitle v) w)) = v).
    { unfold step, commit.
      change (handle (ChangeTitle v) w) with (setState (setTitle v) w).
      by destruct (rerender_text 3 (setState (setTitle v) w) Hd1) as (-> & _). }
    split_and!; [done| | |].
    + intros t Ht Ht'.
      destruct (pending_timer_current w t Hinv Ht) as (_ & Htt & _).
      destruct (pending_timer_current _ t Hinv' Ht') as (_ & Htt' & _).
      congruence.
    + apply timer_matches_stable; [apply rerender_settles|].
      unfold step, commit. apply rerender_timer_matches; [done|].
      left. exact (changed_title w v Hs Hv).
    + intros t' Ht'.
      destruct (pending_timer_current _ t' Hinv' Ht') as (_ & Htt' & _).
      congruence.
  - assert (Hr' : reachable (step (ChangeContent v) w)) by by constructor.
    pose proof (reachable_invariant _ Hr') as Hinv'.
    assert (Hcontent : content (st (step (ChangeContent v) w)) = v).
    { unfold step, commit.
      change (handle (ChangeContent v) w) with (setState (setContent v) w).
      by destruct (rerender_text 3 (setState (setContent v) w) Hd1) as (_ & -> & _). }
    split_and!; [done| | |].
    + intros t Ht Ht'.
      destruct (pending_timer_current w t Hinv Ht) as (_ & _ & Hcc).
      destruct (pending_timer_current _ t Hinv' Ht') as (_ & _ & Hcc').
      congruence.
    + apply timer_matches_stable; [apply rerender_settles|].
      unfold step, commit. apply rerender_timer_matches; [done|].
      left. exact (changed_content w v Hs Hv).
    + intros t' Ht'.
      destruct (pending_timer_current _ t' Hinv' Ht') as (_ & _ & Hcc').
      congruence.
Qed.

Lemma typing_rearms_autosave_witness :
  title (st (step (ChangeTitle "Errands") (mount (Some "n1") Samples.two_notes)))
  = "Errands".
Proof.
  assert (Hr : reachable (mount (Some "n1") Samples.two_notes)).
  { apply reachable_mount. }
  assert (Hv : "Errands" ≠ title (st (mount (Some "n1") Samples.two_notes))).
  { vm_compute. discriminate. }
  exact (proj1 (proj1 (typing_rearms_autosave _ "Errands" Hr) Hv)).
Defined.
End EditorAutosave.

Section EditorQuietEdits.
Import NoteEditor EditorMore.

Lemma runEffects_same_timer (r : Render) (w : World) :
  deps3 w = Some (autosave_deps r) →
  timers (runEffects r w) = timers w
  ∧ autoSaveTimeoutRef (runEffects r w) = autoSaveTimeoutRef w.
Proof.
  intros H3. unfold runEffects. rewrite H3, changed_same. simpl.
  by repeat (destruct (changed _ _); simpl).
Qed.

(** An edit of a field that the autosave effect does not depend on. *)
Lemma quiet_edit (g : Fields → Fields) (w : World) :
  reachable w →
  (∀ f, title (g f) = title f ∧ content (g f) = content f
        ∧ saving (g f) = saving f
        ∧ hasUnsavedChanges (g f) = hasUnsavedChanges f) →
  hasUnsavedChanges (st (commit (setState g w))) = hasUnsavedChanges (st w) →
  timers (commit (setState g w)) = timers w
  ∧ autoSaveTimeoutRef (commit (setState g w)) = autoSaveTimeoutRef w.
Proof.
  intros Hr Hg Hflag. destruct (reachable_invariant w Hr) as (_ & _ & Hs).
  destruct (stable_all_deps w Hs) as (Hd1 & _ & Hd3).
  destruct (Hg (st w)) as (Ht & Hc & Hsv & Hu).
  set (w1 := setState g w) in *.
  assert (Hd1' : deps1 w1 = Some (sync_deps (render w1))) by exact Hd1.
  assert (Hd3' : deps3 w1 = Some (autosave_deps (render w1))).
  { simpl. rewrite Hd3. unfold autosave_deps. simpl. by rewrite Ht, Hc, Hsv, Hu. }
  destruct (runEffects_same_timer (render w1) w1 Hd3') as (Htm & Href).
  unfold commit in *. rewrite rerender_S in *.
  case_bool_decide as Hst; [done|].
  exfalso. apply Hst.
  pose proof (next_round_still w1 Hd1') as Hnext.
  rewrite rerender_S, bool_decide_eq_true_2 in Hflag by exact Hnext.
  rewrite Hnext in Hflag.
  destruct (runEffects_text (render w1) w1 Hd1') as (? & ? & ? & ?).
  destruct (runEffects_frame (render w1) w1) as (_ & _ & _ & _ & ? & ? & ?).
  apply fields_eq; try done. by rewrite Hflag, <- Hu.
Qed.

(** X21. A change of the favorite flag or of the tags does not touch the
    autosave timeout: as long as the editor is as dirty after it as before,
    the pending timeouts and the ref are the same, so a pending timeout still
    belongs to the render that armed it and the debounce is not restarted. *)
Theorem flag_and_tag_edits_keep_timer (w : World) (e : Event) :
  reachable w →
  e = ToggleFavorite ∨ e = AddTag ∨ (∃ x, e = RemoveTag x)
    ∨ (∃ v, e = ChangeNewTag v) →
  hasUnsavedChanges (st (step e w)) = hasUnsavedChanges (st w) →
  timers (step e w) = timers w
  ∧ autoSaveTimeoutRef (step e w) = autoSaveTimeoutRef w.
Proof.
  intros Hr He. unfold step.
  destruct He as [->|[->|[[x ->]|[v ->]]]]; simpl.
  - by apply quiet_edit.
  - unfold handleAddTag. destruct (_ && _).
    + by apply quiet_edit.
    + destruct (reachable_invariant w Hr) as (_ & _ & Hs).
      by rewrite (commit_stable w Hs).
  - by apply quiet_edit.
  - by apply quiet_edit.
Qed.

Lemma flag_and_tag_edits_keep_timer_witness :
  timers (step ToggleFavorite
            (step (ChangeTitle "Errands") (mount (Some "n1") Samples.two_notes)))
  = timers (step (ChangeTitle "Errands") (mount (Some "n1") Samples.two_notes)).
Proof.
  assert (Hr : reachable (step (ChangeTitle "Errands")
                            (mount (Some "n1") Samples.two_notes))).
  { apply reachable_step, reachable_mount. }
  assert (Hf : hasUnsavedChanges
                 (st (step ToggleFavorite
                        (step (ChangeTitle "Errands")
                           (mount (Some "n1") Samples.two_notes))))
               = hasUnsavedChanges
                   (st (step (ChangeTitle "Errands")
                          (mount (Some "n1") Samples.two_notes)))).
  { vm_compute. reflexivity. }
  exact (proj1 (flag_and_tag_edits_keep_timer _ ToggleFavorite Hr
                  (or_introl eq_refl) Hf)).
Defined.

(** X22. When the awaited write fails, the store and the fields keep their
    values, [saving] is reset, "Save Failed" is shown, and the save is tried
    again by autosave: a timeout is pending afterwards exactly when the
    editor had unsaved changes. *)
Theorem failed_save_retries (w : World) (p : Pending) (db : Remote.Supabase)
    (applied saved : JS.Date) (e : Remote.PostgrestError) :
  reachable w → inflight w = [p] →
  Mutations.remote_write db (call p) = Some (Remote.failure e) →
  let w' := step (Settle db applied saved) w in
  store w' = store w
  ∧ st w' = setSaving false (st w)
  ∧ inflight w' = []
  ∧ toasts w' = toasts w ++ [SaveFailed]
  ∧ (timers w' ≠ [] ↔ hasUnsavedChanges (st w) = true).
Proof.
  intros Hr Hin Hw. simpl.
  destruct (failed_save_stays_dirty w p db applied saved e Hr Hin Hw)
    as (Hstore & Hst & Hinf & Htoast).
  split_and!; try done.
  destruct (reachable_invariant w Hr) as (Ha & Hf & Hs).
  assert (Hsv : saving (st w) = true).
  { unfold one_flight in Hf. rewrite Hin in Hf. by destruct (saving (st w)). }
  assert (Hm : timer_matches (step (Settle db applied saved) w)).
  { unfold step, commit. apply rerender_timer_matches.
    - by apply handle_keeps.
    - left. simpl. unfold settle. rewrite Hin. unfold resume.
      rewrite (perform_failure _ _ _ _ _ Hw). simpl.
      destruct (stable_all_deps w Hs) as (_ & _ & ->).
      unfold changed. rewrite bool_decide_eq_false_2; [done|].
      unfold autosave_deps. simpl. rewrite Hsv. by intros [=]. }
  assert (Hstable : stable (step (Settle db applied saved) w)).
  { apply rerender_settles. }
  rewrite (timer_matches_stable (step (Settle db applied saved) w) Hstable Hm).
  rewrite Hst. simpl. split; [by intros []|done].
Qed.

Lemma failed_save_retries_witness :
  store (step (Settle Samples.offline 5000 5001)
           (run [ChangeTitle "Errands"; ClickSave]
              (mount (Some "n1") Samples.two_notes)))
  = store (run [ChangeTitle "Errands"; ClickSave]
             (mount (Some "n1") Samples.two_notes)).
Proof.
  assert (Hr : reachable (run [ChangeTitle "Errands"; ClickSave]
                            (mount (Some "n1") Samples.two_notes))).
  { apply reachable_run, reachable_mount. }
  assert (Hin : inflight (run [ChangeTitle "Errands"; ClickSave]
                            (mount (Some "n1") Samples.two_notes))
                = [ {| call := Mutations.UpdateNote "n1"
                                 {| p_id := None; p_title := Some "Errands";
                                    p_content := Some ""; p_tags := Some ["home"];
                                    p_isFavorite := Some false;
                                    p_createdAt := None; p_updatedAt := None;
                                    p_folderId := None |};
                       showToast := true |} ]).
  { vm_compute. reflexivity. }
  exact (proj1 (failed_save_retries _ _ Samples.offline 5000 5001 "offline"
                  Hr Hin eq_refl)).
Defined.
End EditorQuietEdits.

Section EditorNewNote.
Import NoteEditor EditorMore.

Lemma perform_success (db : Remote.Supabase) (now : JS.Date)
    (m : Mutations.Mutation) (s : Store.NotesState) :
  Mutations.remote_write db m = Some (Remote.success tt) →
  snd (Mutations.perform db now m s) = Store.Done tt.
Proof.
  intros Hw. destruct (Mutations.perform db now m s) as [s' [[]|e]] eqn:Hp; [done|].
  exfalso. destruct m; simpl in Hw, Hp;
    unfold Store.addNote, Store.updateNote, Store.deleteNote, Store.addFolder,
      Store.updateFolder, Store.deleteFolder, Store.bind in Hp;
    rewrite ?current_user_signed_in in Hp;
    repeat match type of Hp with
      | context [Mutations.signed_in ?d] => destruct (Mutations.signed_in d); simpl in *
      | context [Store.await_or_throw ?r] => destruct r; simpl in *
      end; discriminate.
Qed.

(** X23. A new note that was saved stays a new note for the editor: when
    the awaited write succeeds while no note is selected, the editor is clean
    and idle, with the fields as typed and no timeout pending, and still has
    no current note; so the next save of what is on screen is another insert
    of a note with these fields, not an update of the note just created. *)
Theorem saved_new_note_stays_new (w : World) (p : Pending) (db : Remote.Supabase)
    (applied saved : JS.Date) :
  reachable w → noteId w = None → inflight w = [p] →
  Mutations.remote_write db (call p) = Some (Remote.success tt) →
  let w' := step (Settle db applied saved) w in
  noteId w' = None
  ∧ store w' = fst (Mutations.perform db applied (call p) (store w))
  ∧ st w' = setSaving false
              (setHasUnsavedChanges false (setLastSaved (Some saved) (st w)))
  ∧ timers w' = [] ∧ inflight w' = []
  ∧ (blank (title (st w)) && blank (content (st w)) = false →
     inflight (step ClickSave w')
     = [ {| call := Mutations.AddNote (noteData_insert (render w'));
            showToast := true |} ]).
Proof.
  intros Hr Hid Hin Hw. simpl.
  destruct (reachable_invariant w Hr) as (Ha & Hf & Hs).
  destruct (stable_all_deps w Hs) as (Hd1 & Hd2 & _).
  pose proof (perform_success db applied (call p) (store w) Hw) as Hdone.
  assert (Hr' : reachable (step (Settle db applied saved) w)) by by constructor.
  assert (Hcur : ∀ s, find_current None s = None) by done.
  assert (Hst : noteId (step (Settle db applied saved) w) = None
    ∧ store (step (Settle db applied saved) w)
      = fst (Mutations.perform db applied (call p) (store w))
    ∧ st (step (Settle db applied saved) w)
      = setSaving false
          (setHasUnsavedChanges false (setLastSaved (Some saved) (st w)))
    ∧ inflight (step (Settle db applied saved) w) = []).
  { unfold step, commit.
    destruct (rerender_frame 3 (handle (Settle db applied saved) w))
      as (-> & -> & -> & _).
    rewrite rerender_S.
    assert (Hw1 : noteId (handle (Settle db applied saved) w) = None
      ∧ store (handle (Settle db applied saved) w)
        = fst (Mutations.perform db applied (call p) (store w))
      ∧ st (handle (Settle db applied saved) w)
        = setSaving false
            (setHasUnsavedChanges false (setLastSaved (Some saved) (st w)))
      ∧ inflight (handle (Settle db applied saved) w) = []
      ∧ deps1 (handle (Settle db applied saved) w) = deps1 w
      ∧ deps2 (handle (Settle db applied saved) w) = deps2 w).
    { simpl. unfold settle. rewrite Hin. unfold resume.
      destruct (Mutations.perform db applied (call p) (store w)) as [s' o].
      simpl in Hdone. subst o. by destruct (showToast p). }
    destruct Hw1 as (Hn1 & Hs1 & Hst1 & Hi1 & H1 & H2).
    assert (Hstill : st (runEffects (render (handle (Settle db applied saved) w))
                          (handle (Settle db applied saved) w))
                     = st (handle (Settle db applied saved) w)).
    { apply runEffects_still.
      - rewrite H1, Hd1. unfold sync_deps, render. cbn [currentNote seen].
        by rewrite Hn1, Hid.
      - rewrite H2, Hd2. unfold mark_deps, render. cbn [currentNote seen].
        by rewrite Hn1, Hid, Hst1. }
    rewrite bool_decide_eq_true_2 by exact Hstill.
    by rewrite Hstill. }
  destruct Hst as (Hn' & Hs' & Hst' & Hi').
  split_and!; try done.
  - apply clean_no_timer; [done|]. by rewrite Hst'.
  - intros Hb.
    destruct (step_inflight ClickSave (step (Settle db applied saved) w)) as (-> & _).
    simpl. rewrite handleSave_issue.
    + simpl. rewrite Hi'. unfold save_request, render. simpl. by rewrite Hn'.
    + simpl. by rewrite Hst'.
    + simpl. by rewrite Hst'.
Qed.

Lemma saved_new_note_stays_new_witness :
  noteId (step (Settle (Samples.online []) 5000 5001)
            (run [ChangeTitle "Tax"; ClickSave] (mount None Store.initial)))
  = None.
Proof.
  assert (Hr : reachable (run [ChangeTitle "Tax"; ClickSave]
                            (mount None Store.initial))).
  { apply reachable_run, reachable_mount. }
  assert (Hin : inflight (run [ChangeTitle "Tax"; ClickSave]
                            (mount None Store.initial))
                = [ {| call := Mutations.AddNote
                                 {| nd_title := "Tax"; nd_content := "";
                                    nd_tags := []; nd_isFavorite := false;
                                    nd_folderId := None |};
                       showToast := true |} ]).
  { vm_compute. reflexivity. }
  assert (Hid : noteId (run [ChangeTitle "Tax"; ClickSave]
                          (mount None Store.initial)) = None).
  { vm_compute. reflexivity. }
  exact (proj1 (saved_new_note_stays_new _ _ (Samples.online []) 5000 5001
                  Hr Hid Hin eq_refl)).
Defined.

(** Saving a new note twice inserts it twice. *)
Example new_note_saved_twice :
  let w := run [ChangeTitle "Tax"; ClickSave;
                Settle (Samples.online []) 5000 5001; ClickSave]
             (mount None Store.initial) in
  note_title <$> Store.notes (store w) = ["Tax"]
  ∧ call <$> inflight w
    = [Mutations.AddNote {| nd_title := "Tax"; nd_content := "";
                            nd_tags := []; nd_isFavorite := false;
                            nd_folderId := None |}].
Proof. vm_compute. split; reflexivity. Qed.
End EditorNewNote.

Section EditorDirtyFlag.
Import NoteEditor EditorMore.

Lemma hasChanges_differs (r : Render) : hasChanges r = differs (mark_deps r).
Proof. unfold hasChanges, differs, mark_deps. simpl. by destruct (currentNote r). Qed.

Lemma runEffects_flag_exact (r : Render) (w : World) :
  flag_exact w → flag_exact (runEffects r w).
Proof.
  intros Hx. unfold flag_exact. cbn [runEffects deps1 deps2 remember].
  split; [done|]. rewrite <- hasChanges_differs.
  unfold runEffects. destruct (changed (deps2 w) (mark_deps r)) eqn:Hc2.
  - unfold autosave_effect, clear_ref.
    repeat match goal with
      | |- context [changed ?a ?b] => destruct (changed a b)
      | |- context [bool_decide (is_Some ?a)] => destruct (bool_decide (is_Some a))
      | |- context [hasUnsavedChanges ?f && negb (saving ?f)] =>
          destruct (hasUnsavedChanges f && negb (saving f))
      | |- context [autoSaveTimeoutRef ?w] => destruct (autoSaveTimeoutRef w)
      end; done.
  - unfold changed in Hc2. apply negb_false_iff, bool_decide_eq_true in Hc2.
    unfold flag_exact in Hx. rewrite Hc2 in Hx.
    destruct (deps1 w) as [n|] eqn:Hd1; [|done]. destruct Hx as [Hn Hu].
    assert (changed (Some n) (sync_deps r) = false) as ->.
    { rewrite <- Hn. apply changed_same. }
    rewrite hasChanges_differs, <- Hu.
    unfold autosave_effect, clear_ref.
    repeat match goal with
      | |- context [changed ?a ?b] => destruct (changed a b)
      | |- context [bool_decide (is_Some ?a)] => destruct (bool_decide (is_Some a))
      | |- context [hasUnsavedChanges ?f && negb (saving ?f)] =>
          destruct (hasUnsavedChanges f && negb (saving f))
      | |- context [autoSaveTimeoutRef ?w] => destruct (autoSaveTimeoutRef w)
      end; done.
Qed.

Lemma handleSave_flag_exact (r : Render) (b : bool) (w : World) :
  flag_exact w → flag_exact (handleSave r b w).
Proof.
  unfold handleSave. destruct (_ && _); [done|]. by destruct (saving (seen r)).
Qed.

Lemma handle_flag_exact (e : Event) (w : World) :
  (∀ db applied saved, e ≠ Settle db applied saved) →
  flag_exact w → flag_exact (handle e w).
Proof.
  intros Hne Hx. destruct e; simpl; try done.
  - unfold handleAddTag. by destruct (_ && _).
  - by apply handleSave_flag_exact.
  - unfold fire. destruct (List.find _ (timers w)); [|done].
    unfold autosave_callback. destruct (_ || _); [|done].
    by apply handleSave_flag_exact.
  - by destruct (Hne db applied saved).
Qed.

Lemma editing_flag_exact (w : World) : editing w → flag_exact w.
Proof.
  induction 1 as [id s|e w _ IH Hne].
  - unfold mount, commit. by apply rerender_keeps; [apply runEffects_flag_exact|].
  - unfold step, commit. apply rerender_keeps; [apply runEffects_flag_exact|].
    by apply handle_flag_exact.
Qed.

Lemma editing_reachable (w : World) : editing w → reachable w.
Proof. induction 1; by constructor. Qed.

Lemma flag_is_hasChanges (w : World) :
  stable w → flag_exact w → hasUnsavedChanges (st w) = hasChanges (render w).
Proof.
  intros Hs Hx. destruct (stable_all_deps w Hs) as (H1 & H2 & _).
  unfold flag_exact in Hx. rewrite H1, H2 in Hx.
  rewrite hasChanges_differs. by destruct Hx.
Qed.

(** X24. As long as no awaited save has ended, the "Unsaved changes" flag
    is exact between two events.  With a current note it is off exactly when
    title, content, tags and favorite flag all equal the stored note, so
    editing back to the stored values makes the editor clean again; without
    a current note it is off exactly when title and content are blank, so
    tags or a favorite flag alone never make a new note dirty. *)
Theorem unsaved_flag_exact (w : World) :
  editing w →
  (∀ n, currentNote (render w) = Some n →
     (hasUnsavedChanges (st w) = false
      ↔ title (st w) = note_title n ∧ content (st w) = note_content n
        ∧ tags (st w) = note_tags n ∧ isFavorite (st w) = note_isFavorite n))
  ∧ (currentNote (render w) = None →
     (hasUnsavedChanges (st w) = false
      ↔ JS.trim (title (st w)) = "" ∧ JS.trim (content (st w)) = "")).
Proof.
  intros He. pose proof (editing_flag_exact w He) as Hx.
  destruct (reachable_invariant w (editing_reachable w He)) as (_ & _ & Hs).
  rewrite (flag_is_hasChanges w Hs Hx). unfold hasChanges.
  split.
  - intros n ->. change (seen (render w)) with (st w).
    rewrite !orb_false_iff, !negb_false_iff, !bool_decide_eq_true. tauto.
  - intros ->. change (seen (render w)) with (st w).
    rewrite !orb_false_iff, !negb_false_iff, !bool_decide_eq_true. tauto.
Qed.

Lemma unsaved_flag_exact_witness :
  hasUnsavedChanges
    (st (step (ChangeTitle "Shopping")
           (step (ChangeTitle "Errands") (mount (Some "n1") Samples.two_notes))))
  = false
  ↔ title (st (step (ChangeTitle "Shopping")
                 (step (ChangeTitle "Errands")
                    (mount (Some "n1") Samples.two_notes))))
    = note_title Samples.shopping
    ∧ content (st (step (ChangeTitle "Shopping")
                     (step (ChangeTitle "Errands")
                        (mount (Some "n1") Samples.two_notes))))
      = note_content Samples.shopping
    ∧ tags (st (step (ChangeTitle "Shopping")
                  (step (ChangeTitle "Errands")
                     (mount (Some "n1") Samples.two_notes))))
      = note_tags Samples.shopping
    ∧ isFavorite (st (step (ChangeTitle "Shopping")
                        (step (ChangeTitle "Errands")
                           (mount (Some "n1") Samples.two_notes))))
      = note_isFavorite Samples.shopping.
Proof.
  assert (He : editing (step (ChangeTitle "Shopping")
                          (step (ChangeTitle "Errands")
                             (mount (Some "n1") Samples.two_notes)))).
  { apply editing_step; [apply editing_step; [apply editing_mount|]|]; discriminate. }
  assert (Hc : currentNote
                 (render (step (ChangeTitle "Shopping")
                            (step (ChangeTitle "Errands")
                               (mount (Some "n1") Samples.two_notes))))
               = Some Samples.shopping).
  { vm_compute. reflexivity. }
  exact (proj1 (unsaved_flag_exact _ He) Samples.shopping Hc).
Defined.

Lemma fresh_first_round (noteId : option string) (s : Store.NotesState) :
  st (runEffects (render (fresh noteId s)) (fresh noteId s))
  = mark_changes (render (fresh noteId s))
      (sync_fields (render (fresh noteId s)) (st (fresh noteId s))).
Proof. reflexivity. Qed.

(** X25. Opening the editor gives a clean editor: after the mount the
    fields are those of the selected note when the store has it, and empty
    otherwise (no selection, an empty id, or an id the store does not have);
    nothing is unsaved, nothing is being saved, no timeout is pending and no
    write was issued. *)
Theorem mount_is_clean (noteId : option string) (s : Store.NotesState) :
  let w := mount noteId s in
  let seed := default
    {| note_id := ""; note_title := ""; note_content := ""; note_tags := [];
       note_isFavorite := false; note_createdAt := 0; note_updatedAt := 0;
       note_folderId := None |}
    (find_current noteId (Store.notes s)) in
  title (st w) = note_title seed ∧ content (st w) = note_content seed
  ∧ tags (st w) = note_tags seed ∧ isFavorite (st w) = note_isFavorite seed
  ∧ hasUnsavedChanges (st w) = false ∧ saving (st w) = false
  ∧ lastSaved (st w) = None ∧ newTag (st w) = ""
  ∧ timers w = [] ∧ inflight w = [] ∧ toasts w = [] ∧ store w = s.
Proof.
  simpl.
  assert (Hr : reachable (mount noteId s)) by constructor.
  assert (He : editing (mount noteId s)) by constructor.
  destruct (reachable_invariant _ Hr) as (_ & _ & Hs).
  pose proof (flag_is_hasChanges _ Hs (editing_flag_exact _ He)) as Hflag.
  assert (Hcur : currentNote (render (mount noteId s))
                 = find_current noteId (Store.notes s)).
  { unfold render, mount, commit. cbn [currentNote].
    by destruct (rerender_frame 3 (fresh noteId s)) as (-> & -> & _). }
  assert (Htext : title (st (mount noteId s))
                  = title (sync_fields (render (fresh noteId s)) (st (fresh noteId s)))
    ∧ content (st (mount noteId s))
      = content (sync_fields (render (fresh noteId s)) (st (fresh noteId s)))
    ∧ tags (st (mount noteId s))
      = tags (sync_fields (render (fresh noteId s)) (st (fresh noteId s)))
    ∧ isFavorite (st (mount noteId s))
      = isFavorite (sync_fields (render (fresh noteId s)) (st (fresh noteId s)))).
  { unfold mount, commit. rewrite rerender_S.
    case_bool_decide.
    - by rewrite fresh_first_round.
    - destruct (rerender_text 2 _ (runEffects_sync_deps (fresh noteId s)))
        as (-> & -> & -> & ->).
      by rewrite fresh_first_round. }
  destruct Htext as (Ht & Hc & Hg & Hf).
  assert (Hclean : hasUnsavedChanges (st (mount noteId s)) = false).
  { rewrite Hflag. unfold hasChanges. rewrite Hcur.
    change (seen (render (mount noteId s))) with (st (mount noteId s)).
    rewrite Ht, Hc, Hg, Hf. unfold sync_fields, render. simpl.
    destruct (find_current noteId (Store.notes s)); simpl;
      by rewrite ?bool_decide_eq_true_2. }
  unfold mount, commit in *.
  destruct (rerender_frame 3 (fresh noteId s)) as (Hst & _ & Hin & Hto & Hsv).
  destruct (rerender_newTag 3 (fresh noteId s)) as (Hnt & Hls).
  rewrite Ht, Hc, Hg, Hf, Hsv, Hls, Hnt, Hin, Hto, Hst.
  split_and!; try done;
    try (unfold sync_fields, render; simpl;
         by destruct (find_current noteId (Store.notes s))).
  by apply clean_no_timer.
Qed.
End EditorDirtyFlag.

Section EditorTags.
Import NoteEditor EditorMore.

Lemma step_setState_text (g : Fields → Fields) (w : World) :
  reachable w →
  tags (st (commit (setState g w))) = tags (g (st w))
  ∧ newTag (st (commit (setState g w))) = newTag (g (st w)).
Proof.
  intros Hr. destruct (reachable_invariant w Hr) as (_ & _ & Hs).
  destruct (stable_all_deps w Hs) as (Hd1 & _).
  unfold commit.
  destruct (rerender_text 3 (setState g w) Hd1) as (_ & _ & -> & _).
  by destruct (rerender_newTag 3 (setState g w)) as (-> & _).
Qed.

(** X26. The tag handlers of the editor.  [handleAddTag] appends the typed
    tag, stripped of surrounding white space, and empties the input, when the
    stripped tag is not empty and not among the tags yet; otherwise tags and
    input stay as they are, so tags without repetition stay without
    repetition.  [handleRemoveTag] removes every occurrence of the tag and
    keeps the other tags in order. *)
Theorem tag_handlers (w : World) :
  reachable w →
  let t := JS.trim (newTag (st w)) in
  (t ≠ "" → t ∉ tags (st w) →
     tags (st (step AddTag w)) = tags (st w) ++ [t]
     ∧ newTag (st (step AddTag w)) = "")
  ∧ (t = "" ∨ t ∈ tags (st w) →
     tags (st (step AddTag w)) = tags (st w)
     ∧ newTag (st (step AddTag w)) = newTag (st w))
  ∧ (NoDup (tags (st w)) → NoDup (tags (st (step AddTag w))))
  ∧ ∀ x, tags (st (step (RemoveTag x) w))
         = List.filter (fun tag => negb (bool_decide (tag = x))) (tags (st w))
         ∧ ¬ (x ∈ tags (st (step (RemoveTag x) w)))
         ∧ newTag (st (step (RemoveTag x) w)) = newTag (st w).
Proof.
  intros Hr. simpl.
  destruct (reachable_invariant w Hr) as (_ & _ & Hs).
  assert (Hadd : JS.trim (newTag (st w)) ≠ "" →
                 JS.trim (newTag (st w)) ∉ tags (st w) →
                 tags (st (step AddTag w))
                 = tags (st w) ++ [JS.trim (newTag (st w))]
                 ∧ newTag (st (step AddTag w)) = "").
  { intros Hne Hnotin. unfold step. simpl. unfold handleAddTag. simpl.
    unfold JS.arr_includes. rewrite bool_decide_eq_false_2 by done.
    destruct (JS.trim (newTag (st w))) eqn:Ht; [done|]. simpl.
    by apply step_setState_text. }
  assert (Hskip : (JS.trim (newTag (st w)) = ""
                   ∨ JS.trim (newTag (st w)) ∈ tags (st w)) →
                  step AddTag w = w).
  { intros Hor. unfold step. simpl. unfold handleAddTag. simpl.
    assert (JS.truthy (JS.trim (newTag (st w)))
            && negb (JS.arr_includes (tags (st w)) (JS.trim (newTag (st w))))
            = false) as ->.
    { destruct Hor as [->|Hin]; [done|].
      unfold JS.arr_includes. rewrite bool_decide_eq_true_2 by done.
      apply andb_false_r. }
    by apply commit_stable. }
  split_and!; [done|by intros ->%Hskip| |].
  - intros Hnd.
    destruct (decide (JS.trim (newTag (st w)) = "")) as [He|Hne];
      [by rewrite Hskip by by left|].
    destruct (decide (JS.trim (newTag (st w)) ∈ tags (st w))) as [Hin|Hnotin];
      [by rewrite Hskip by by right|].
    destruct (Hadd Hne Hnotin) as (-> & _).
    apply NoDup_app. split_and!; [done| |apply NoDup_singleton].
    by intros x Hx ->%list_elem_of_singleton.
  - intros x.
    assert (Hrm : tags (st (step (RemoveTag x) w))
                  = List.filter (fun tag => negb (bool_decide (tag = x)))
                      (tags (st w))
                  ∧ newTag (st (step (RemoveTag x) w)) = newTag (st w)).
    { unfold step. simpl. unfold handleRemoveTag. by apply step_setState_text. }
    destruct Hrm as (Htags & Hnew). split_and!; [done| |done].
    rewrite Htags, list_elem_of_In, filter_In.
    intros [_ Hx]. by rewrite bool_decide_eq_true_2 in Hx.
Qed.

Lemma tag_handlers_witness :
  tags (st (step AddTag
              (step (ChangeNewTag " urgent ") (mount (Some "n1") Samples.two_notes))))
  = tags (st (step (ChangeNewTag " urgent ")
                (mount (Some "n1") Samples.two_notes))) ++ ["urgent"]
  ∧ newTag (st (step AddTag
                  (step (ChangeNewTag " urgent ")
                     (mount (Some "n1") Samples.two_notes)))) = "".
Proof.
  assert (Hr : reachable (step (ChangeNewTag " urgent ")
                            (mount (Some "n1") Samples.two_notes))).
  { apply reachable_step, reachable_mount. }
  assert (Hne : JS.trim (newTag (st (step (ChangeNewTag " urgent ")
                                       (mount (Some "n1") Samples.two_notes))))
                ≠ "").
  { vm_compute. discriminate. }
  assert (Hnotin : JS.trim (newTag (st (step (ChangeNewTag " urgent ")
                                          (mount (Some "n1") Samples.two_notes))))
                   ∉ tags (st (step (ChangeNewTag " urgent ")
                                 (mount (Some "n1") Samples.two_notes)))).
  { apply (bool_decide_unpack _). vm_compute. exact I. }
  exact (proj1 (tag_handlers _ Hr) Hne Hnotin).
Defined.

Lemma append_inj_no_line_feed (t1 t2 c1 c2 : string) :
  has_line_feed t1 = false → has_line_feed t2 = false →
  t1 +:+ String "010" (String "010" c1) = t2 +:+ String "010" (String "010" c2) →
  t1 = t2 ∧ c1 = c2.
Proof.
  revert t2. induction t1 as [|a t1 IH]; intros [|b t2]; simpl; intros H1 H2 Heq.
  - by injection Heq as ->.
  - injection Heq as <- _. by rewrite bool_decide_eq_true_2 in H2.
  - injection Heq as -> _. by rewrite bool_decide_eq_true_2 in H1.
  - injection Heq as -> Heq. apply orb_false_iff in H1 as [_ H1].
    apply orb_false_iff in H2 as [_ H2].
    destruct (IH t2 H1 H2 Heq) as [-> ->]. done.
Qed.

(** X27. The Markdown export loses nothing: as long as titles hold no line
    feed (the title is a one-line input), two renders with the same exported
    Markdown text have the same title and the same content.  Every export
    is named after the title, and [note] when the title is empty. *)
Theorem markdown_export_injective (r1 r2 : Render) :
  has_line_feed (title (seen r1)) = false →
  has_line_feed (title (seen r2)) = false →
  snd (handleExport r1 md) = snd (handleExport r2 md) →
  title (seen r1) = title (seen r2) ∧ content (seen r1) = content (seen r2)
  ∧ fst (handleExport r1 md) = fst (handleExport r2 md).
Proof.
  intros H1 H2 Heq. unfold handleExport in *. simpl in Heq.
  injection Heq as Heq.
  destruct (append_inj_no_line_feed _ _ _ _ H1 H2 Heq) as [Ht Hc].
  simpl. by rewrite Ht, Hc.
Qed.

Lemma markdown_export_injective_witness :
  title (seen (render (mount (Some "n1") Samples.two_notes)))
  = title (seen (render (step ToggleFavorite
                           (mount (Some "n1") Samples.two_notes)))).
Proof.
  assert (H1 : has_line_feed
                 (title (seen (render (mount (Some "n1") Samples.two_notes))))
               = false).
  { vm_compute. reflexivity. }
  assert (H2 : has_line_feed
                 (title (seen (render (step ToggleFavorite
                                         (mount (Some "n1") Samples.two_notes)))))
               = false).
  { vm_compute. reflexivity. }
  assert (He : snd (handleExport (render (mount (Some "n1") Samples.two_notes)) md)
               = snd (handleExport
                        (render (step ToggleFavorite
                                   (mount (Some "n1") Samples.two_notes))) md)).
  { vm_compute. reflexivity. }
  exact (proj1 (markdown_export_injective _ _ H1 H2 He)).
Defined.
End EditorTags.

(* ===================================================================== *)
(** * The theme and the settings *)
(* ===================================================================== *)

Section ThemeFacts.
Import Theme.




Lemma update_prefersDark (t : string) (k : Hook) :
  prefersDark (snd (update t k)) = prefersDark (snd k).
Proof. unfold update. simpl. by case_bool_decide. Qed.


End ThemeFacts.

Section SettingsFacts.
Import Remote SettingsDialog SettingsActions.

Lemma written_is_updateProfile (p : UserProfile) (f : Form) :
  written p (payload f) = updateProfile p f.
Proof. reflexivity. Qed.

Lemma fetchProfile_found (u : User) (api : ProfileApi) (data : UserProfile)
    (d : Dialog) :
  profiles_select api (user_id u) = success data →
  fetchProfile (Some u) api d
  = {| profile := Some data; loading := false; form := load data;
       isOpen := isOpen d; theme := theme d; toasts := toasts d |}.
Proof. intros H. unfold fetchProfile. by rewrite H. Qed.

(** X29. What "Save Changes" wrote is what the dialog shows when it is
    opened again: when the select returns the row as the update left it, the
    form gets back the full name and the username as they were typed, the
    theme (or [system] for an empty one) and the autosave interval, except
    that an interval of 0 comes back as 30.  With an interval other than 0
    and a theme, the form is exactly the saved one. *)
Theorem saved_settings_reload (u : User) (api : ProfileApi) (row : UserProfile)
    (saved : Form) (d : Dialog) :
  profiles_select api (user_id u) = success (written row (payload saved)) →
  let d' := fetchProfile (Some u) api d in
  profile d' = Some (written row (payload saved))
  ∧ loading d' = false
  ∧ fullName (form d') = fullName saved
  ∧ usernameInput (form d') = usernameInput saved
  ∧ themePreference (form d') = JS.or_else (themePreference saved) "system"
  ∧ autoSaveInterval (form d')
    = (if autoSaveInterval saved =? 0 then 30 else autoSaveInterval saved)
  ∧ (autoSaveInterval saved ≠ 0 → themePreference saved ≠ "" →
     form d' = saved).
Proof.
  intros Hsel. cbv zeta. rewrite (fetchProfile_found _ _ _ _ Hsel).
  cbn [profile loading form].
  assert (Hname : default "" (if JS.truthy (usernameInput saved)
                              then Some (usernameInput saved) else None)
                  = usernameInput saved).
  { by destruct (usernameInput saved). }
  split_and!; try done.
  intros Hi Ht. unfold load. simpl. rewrite Hname.
  rewrite (proj2 (Z.eqb_neq _ _) Hi).
  assert (JS.or_else (themePreference saved) "system" = themePreference saved) as ->.
  { by destruct (themePreference saved). }
  by destruct saved.
Qed.

Lemma saved_settings_reload_witness :
  form (fetchProfile (Some {| user_id := "u1"; metadata_full_name := None |})
          {| profiles_select := fun _ =>
               success (written Profiles.stored (payload Profiles.sixty));
             profiles_insert := fun _ => failure "offline";
             profiles_update := fun _ _ => failure "offline" |}
          (initial (Theme.mount {| Theme.savedTheme := None;
                                   Theme.prefersDark := false;
                                   Theme.darkClass := false |})))
  = Profiles.sixty.
Proof.
  assert (Hi : autoSaveInterval Profiles.sixty ≠ 0) by discriminate.
  assert (Ht : themePreference Profiles.sixty ≠ "") by discriminate.
  exact (proj2 (proj2 (proj2 (proj2 (proj2 (proj2
    (saved_settings_reload {| user_id := "u1"; metadata_full_name := None |}
       {| profiles_select := fun _ =>
            success (written Profiles.stored (payload Profiles.sixty));
          profiles_insert := fun _ => failure "offline";
          profiles_update := fun _ _ => failure "offline" |}
       Profiles.stored Profiles.sixty
       (initial (Theme.mount {| Theme.savedTheme := None;
                                Theme.prefersDark := false;
                                Theme.darkClass := false |}))
       eq_refl)))))) Hi Ht).
Defined.

(** X30. "Save Changes" never alters the form, the loaded profile or the
    open state of the dialog; it changes the theme only when its update
    succeeded, to the theme of the form, together with the success message;
    and it does nothing at all, without any message, when nobody is signed in
    or no profile is loaded, which is the state the dialog is left in when
    the profile could neither be read nor created. *)
Theorem save_settings (user : option User) (api : ProfileApi) (d : Dialog) :
  let d' := save user api d in
  form d' = form d ∧ profile d' = profile d ∧ isOpen d' = isOpen d
  ∧ (theme d' ≠ theme d →
     ∃ u, user = Some u
       ∧ profiles_update api (user_id u) (payload (form d)) = success tt
       ∧ theme d' = Theme.setTheme (themePreference (form d)) (theme d)
       ∧ toasts d' = toasts d ++ [ProfileSuccess])
  ∧ (user = None ∨ profile d = None → d' = d)
  ∧ (∀ u api0 d0 e e', user = Some u → profile d0 = None →
       profiles_select api0 (user_id u) = failure e →
       (∀ p, profiles_insert api0 p = failure e') →
       d = fetchProfile (Some u) api0 d0 →
       profile d = None ∧ form d = form d0 ∧ loading d = false ∧ d' = d).
Proof.
  cbv zeta. unfold save. split_and!.
  - destruct user, (profile d); try done. by destruct (profiles_update _ _ _).
  - destruct user, (profile d) eqn:Hp; try done.
    by destruct (profiles_update _ _ _).
  - destruct user, (profile d); try done. by destruct (profiles_update _ _ _).
  - destruct user as [u|], (profile d); try done.
    destruct (profiles_update _ _ _) as [[]|] eqn:Hu; [|done].
    intros _. by exists u.
  - intros [Hu | Hp]; [by rewrite Hu|]. rewrite Hp. by destruct user.
  - intros u api0 d0 e e' -> Hnone Hsel Hins ->.
    unfold fetchProfile, createProfile. rewrite Hsel, Hins. simpl.
    by rewrite Hnone.
Qed.
End SettingsFacts.
